(** * The MySQL records receiver client: a shallow embedding

    This development embeds the client of the mysqlrecords receiver
    (functions [newMySQLClient], [Connect], [getRecords],
    [ExecuteQueryandFetchRecords] and [Close]) and states the properties of
    the incremental polling design against it. It also embeds the Sumo
    Logic extension, which registers the collector and sends its
    heartbeats.

    Go strings are byte sequences: they are modelled by [string], whose
    characters are the bytes. Go maps are finite maps ([gmap]); a [nil] map
    is [None]. The database, the file holding the encryption secret and the
    token service are outside the program and enter as explicit arguments. *)

From Stdlib Require Import ZArith Ascii String List Bool Lia.
From Stdlib Require Import DecimalString DecimalPos DecimalZ.
From stdpp Require Import base option gmap strings list sorting.

Open Scope string_scope.
Open Scope Z_scope.

(** ** The Go library functions the client calls *)

(** UTF-8, as package [unicode/utf8] decodes and encodes it. *)

Module utf8.

Definition byte (c : ascii) : N := N_of_ascii c.

Definition cont (lo hi : N) (s : string) : option (N * string) :=
  match s with
  | String c s' =>
      let b := byte c in
      if ((lo <=? b) && (b <=? hi))%N then Some ((b - 128)%N, s') else None
  | EmptyString => None
  end.

Definition RuneError : N := 65533.

(** [utf8.DecodeRuneInString]: the first character of a non-empty [s] and
    its width in bytes; a malformed or truncated encoding gives
    [(RuneError, 1)]. *)
Definition DecodeRuneInString (s : string) : N * nat :=
  match s with
  | EmptyString => (RuneError, 0%nat)
  | String c s1 =>
      let b := byte c in
      let bad := (RuneError, 1%nat) in
      if (b <? 128)%N then (b, 1%nat)
      else if (b <? 194)%N then bad
      else if (b <? 224)%N then
        match cont 128 191 s1 with
        | Some (x1, _) => (((b - 192) * 64 + x1)%N, 2%nat)
        | None => bad
        end
      else if (b <? 240)%N then
        let lo := if (b =? 224)%N then 160%N else 128%N in
        let hi := if (b =? 237)%N then 159%N else 191%N in
        match cont lo hi s1 with
        | Some (_, s2) =>
            match s1, cont 128 191 s2 with
            | String c1 _, Some (x2, _) =>
                (((b - 224) * 4096 + (byte c1 - 128) * 64 + x2)%N, 3%nat)
            | _, _ => bad
            end
        | None => bad
        end
      else if (b <? 245)%N then
        let lo := if (b =? 240)%N then 144%N else 128%N in
        let hi := if (b =? 244)%N then 143%N else 191%N in
        match cont lo hi s1 with
        | Some (_, s2) =>
            match s1, cont 128 191 s2 with
            | String c1 _, Some (x2, s3) =>
                match cont 128 191 s3 with
                | Some (x3, _) =>
                    (((b - 240) * 262144 + (byte c1 - 128) * 4096
                      + x2 * 64 + x3)%N, 4%nat)
                | None => bad
                end
            | _, _ => bad
            end
        | None => bad
        end
      else bad
  end.

Definition chr (n : N) : string := String (ascii_of_N n) EmptyString.

(** [utf8.EncodeRune]; surrogate halves and values out of range are
    encoded as [RuneError]. *)
Definition EncodeRune (r : N) : string :=
  let r := if ((55296 <=? r) && (r <=? 57343) || (1114111 <? r))%N
           then RuneError else r in
  if (r <? 128)%N then chr r
  else if (r <? 2048)%N then chr (192 + r / 64) +:+ chr (128 + r mod 64)
  else if (r <? 65536)%N then
    chr (224 + r / 4096) +:+ chr (128 + (r / 64) mod 64) +:+ chr (128 + r mod 64)
  else
    chr (240 + r / 262144) +:+ chr (128 + (r / 4096) mod 64) +:+
    chr (128 + (r / 64) mod 64) +:+ chr (128 + r mod 64).

End utf8.

Module GoStrings.

(** [prefixb p s]: the bytes of [p] are the first bytes of [s]. *)
Fixpoint prefixb (p s : string) : bool :=
  match p, s with
  | EmptyString, _ => true
  | String a p', String b s' => if Ascii.eqb a b then prefixb p' s' else false
  | String _ _, EmptyString => false
  end.

(** [strings.Contains(s, substr)]. *)
Fixpoint Contains (s substr : string) : bool :=
  prefixb substr s ||
  match s with
  | EmptyString => false
  | String _ s' => Contains s' substr
  end.

(** [strings.Replace(s, old, new, -1)] for a non-empty [old]: every
    occurrence of [old], found from left to right without overlap, is
    replaced by [new]. [skip] counts the bytes of an occurrence that is
    being replaced and are still to be passed over. *)
Fixpoint replaceFrom (old new : string) (skip : nat) (s : string) : string :=
  match s with
  | EmptyString => EmptyString
  | String c s' =>
      match skip with
      | S k => replaceFrom old new k s'
      | O =>
          if prefixb old s
          then new +:+ replaceFrom old new (Nat.pred (String.length old)) s'
          else String c (replaceFrom old new O s')
      end
  end.

Definition Replace (s old new : string) : string :=
  if String.eqb old new then s else replaceFrom old new O s.

(** [unicode.IsSpace]. *)
Definition IsSpace (r : N) : bool :=
  ((9 <=? r) && (r <=? 13) || (r =? 32) || (r =? 133) || (r =? 160)
   || (r =? 5760) || (8192 <=? r) && (r <=? 8202) || (r =? 8232)
   || (r =? 8233) || (r =? 8239) || (r =? 8287) || (r =? 12288))%N.

(** [len(strings.TrimSpace(s)) == 0]: [s] is white space from its first
    byte to its last. [skip] counts the bytes of the current character
    that are still to be passed over. *)
Fixpoint blankFrom (skip : nat) (s : string) : bool :=
  match s with
  | EmptyString => true
  | String _ s' =>
      match skip with
      | S k => blankFrom k s'
      | O => let '(r, size) := utf8.DecodeRuneInString s in
             IsSpace r && blankFrom (Nat.pred size) s'
      end
  end.

Definition blank (s : string) : bool := blankFrom O s.

End GoStrings.

Module strconv.

(** [strconv.Itoa]. *)
Definition Itoa (i : Z) : string := NilZero.string_of_int (Z.to_int i).

End strconv.

(** Package [encoding/json], for the one type the client encodes:
    [map[string]string]. *)

Module json.

Definition dquote : string := utf8.chr 34.
Definition backslash : string := utf8.chr 92.

Definition hex (n : N) : string :=
  String.substring (N.to_nat n) 1 "0123456789abcdef".

(** The body of a JSON string literal for the bytes of [s], with the HTML
    escaping that [json.Marshal] applies: the quote and the backslash are
    escaped, line feed, carriage return and tab get their short escapes, the
    other control bytes and [<], [>], [&] are written [\u00XX], malformed
    UTF-8 becomes [\ufffd] and U+2028, U+2029 are escaped. *)
Fixpoint escapeFrom (skip : nat) (s : string) : string :=
  match s with
  | EmptyString => EmptyString
  | String c s' =>
      match skip with
      | S k => escapeFrom k s'
      | O =>
          let b := utf8.byte c in
          if (b <? 128)%N then
            (if ((b =? 34) || (b =? 92))%N then backslash +:+ utf8.chr b
             else if (b =? 10)%N then backslash +:+ "n"
             else if (b =? 13)%N then backslash +:+ "r"
             else if (b =? 9)%N then backslash +:+ "t"
             else if ((b <? 32) || (b =? 60) || (b =? 62) || (b =? 38))%N
                  then backslash +:+ "u00" +:+ hex (b / 16) +:+ hex (b mod 16)
             else utf8.chr b) +:+ escapeFrom O s'
          else
            let '(r, size) := utf8.DecodeRuneInString s in
            if ((r =? utf8.RuneError)%N && (size =? 1)%nat)%bool
            then backslash +:+ "ufffd" +:+ escapeFrom O s'
            else if ((r =? 8232) || (r =? 8233))%N
            then backslash +:+ "u202" +:+ hex (r mod 16)
                 +:+ escapeFrom (Nat.pred size) s'
            else String.substring 0 size s +:+ escapeFrom (Nat.pred size) s'
      end
  end.

Definition quote (s : string) : string := dquote +:+ escapeFrom O s +:+ dquote.

Definition member (kv : string * string) : string :=
  quote kv.1 +:+ ":" +:+ quote kv.2.

Fixpoint join (sep : string) (l : list string) : string :=
  match l with
  | [] => EmptyString
  | [x] => x
  | x :: l' => x +:+ sep +:+ join sep l'
  end.

Definition key_le (x y : string * string) : Prop := String.leb x.1 y.1.

(** [json.Marshal] of a non-nil [map[string]string]: the members in the
    order of their keys. The error it can return for other types does not
    occur for this one. *)
Definition Marshal (m : gmap string string) : string * option string :=
  ("{" +:+ join "," (member <$> merge_sort key_le (map_to_list m)) +:+ "}",
   None).

Definition hexval (c : ascii) : option N :=
  let b := utf8.byte c in
  if ((48 <=? b) && (b <=? 57))%N then Some (b - 48)%N
  else if ((97 <=? b) && (b <=? 102))%N then Some (b - 87)%N
  else if ((65 <=? b) && (b <=? 70))%N then Some (b - 55)%N
  else None.

(** [getu4]: the value of the escape [\uXXXX] that [s] starts with. *)
Definition getu4 (s : string) : option N :=
  match s with
  | String b (String u (String h1 (String h2 (String h3 (String h4 _))))) =>
      if (Ascii.eqb b "\" && Ascii.eqb u "u")%bool then
        match hexval h1, hexval h2, hexval h3, hexval h4 with
        | Some v1, Some v2, Some v3, Some v4 =>
            Some (((v1 * 16 + v2) * 16 + v3) * 16 + v4)%N
        | _, _, _, _ => None
        end
      else None
  | _ => None
  end.

Definition prepend (x : string) (r : option (string * string))
  : option (string * string) :=
  match r with
  | Some (d, rest) => Some (x +:+ d, rest)
  | None => None
  end.

(** [unquote]: [s] is the text that follows the opening quote of a string
    literal; the result is the string it denotes and the text after its
    closing quote. Escapes are resolved, a pair of surrogate escapes gives
    one character, a lone surrogate and malformed UTF-8 give U+FFFD, and a
    raw control byte or an unknown escape is an error. *)
Fixpoint unquoteFrom (skip : nat) (s : string) : option (string * string) :=
  match s with
  | EmptyString => None
  | String c s' =>
      match skip with
      | S k => unquoteFrom k s'
      | O =>
          let b := utf8.byte c in
          if (b =? 34)%N then Some (EmptyString, s')
          else if (b =? 92)%N then
            match s' with
            | String e _ =>
                let x := utf8.byte e in
                if ((x =? 34) || (x =? 92) || (x =? 47))%N
                then prepend (utf8.chr x) (unquoteFrom 1 s')
                else if (x =? 98)%N then prepend (utf8.chr 8) (unquoteFrom 1 s')
                else if (x =? 102)%N then prepend (utf8.chr 12) (unquoteFrom 1 s')
                else if (x =? 110)%N then prepend (utf8.chr 10) (unquoteFrom 1 s')
                else if (x =? 114)%N then prepend (utf8.chr 13) (unquoteFrom 1 s')
                else if (x =? 116)%N then prepend (utf8.chr 9) (unquoteFrom 1 s')
                else if (x =? 117)%N then
                  match getu4 s with
                  | Some rr =>
                      if ((55296 <=? rr) && (rr <=? 57343))%N then
                        match getu4 (String.substring 6 6 s) with
                        | Some rr1 =>
                            if ((rr <? 56320) && (56320 <=? rr1) && (rr1 <=? 57343))%N
                            then prepend
                                   (utf8.EncodeRune
                                      ((rr - 55296) * 1024 + (rr1 - 56320) + 65536)%N)
                                   (unquoteFrom 11 s')
                            else prepend (utf8.EncodeRune utf8.RuneError)
                                         (unquoteFrom 5 s')
                        | None => prepend (utf8.EncodeRune utf8.RuneError)
                                          (unquoteFrom 5 s')
                        end
                      else prepend (utf8.EncodeRune rr) (unquoteFrom 5 s')
                  | None => None
                  end
                else None
            | EmptyString => None
            end
          else if (b <? 32)%N then None
          else if (b <? 128)%N then prepend (utf8.chr b) (unquoteFrom O s')
          else
            let '(r, size) := utf8.DecodeRuneInString s in
            prepend (utf8.EncodeRune r) (unquoteFrom (Nat.pred size) s')
      end
  end.

(** The members of an object, from the opening quote of a key to the
    closing brace, which must end the text. A key that occurs again
    replaces the earlier member. *)
Fixpoint members (fuel : nat) (s : string) (m : gmap string string)
  : option (gmap string string) :=
  match fuel with
  | O => None
  | S fuel' =>
      match s with
      | String q s1 =>
          if Ascii.eqb q "034" then
            match unquoteFrom O s1 with
            | Some (k, String colon (String q2 s2)) =>
                if (Ascii.eqb colon ":" && Ascii.eqb q2 "034")%bool then
                  match unquoteFrom O s2 with
                  | Some (v, String d s3) =>
                      if Ascii.eqb d "," then members fuel' s3 (<[k:=v]> m)
                      else if (Ascii.eqb d "}" && String.eqb s3 EmptyString)%bool
                      then Some (<[k:=v]> m)
                      else None
                  | _ => None
                  end
                else None
            | _ => None
            end
          else None
      | EmptyString => None
      end
  end.

(** [json.Unmarshal] into a [map[string]interface{}], on the texts the
    client passes to it. The client only ever decodes a record that
    [Marshal] produced: an object whose members are strings, written
    without white space. On these texts this is the decoder of
    [encoding/json], and every decoded value is a string. Other JSON texts
    (numbers, nested values, white space between tokens) do not reach the
    decoder and are not analysed: they are reported like malformed input. *)
Definition Unmarshal (data : string) : option (gmap string string) :=
  match data with
  | String o s =>
      if Ascii.eqb o "{" then
        if String.eqb s "}" then Some ∅
        else members (String.length s) s ∅
      else None
  | EmptyString => None
  end.

End json.

(** ** Data *)

(** A Go [error] value, by its message. *)
Definition error : Type := string.

(** Modelled from the spec: the declaration of [DBQueries] is not among
    the sources. The spec has a QuerySpec made of an identifier, the raw
    query text, an optional cursor column name, a cursor type and an
    optional initial cursor value; the field names are those [getRecords]
    reads, and the configuration example sets each of them as text. *)
Record DBQueries : Type := mkDBQueries {
  QueryId : string;
  Query : string;
  IndexColumnName : string;
  IndexColumnType : string;
  InitialIndexColumnStartValue : string
}.

(** Modelled from the spec: the declaration of [Config] is not among the
    sources either. These are the settings of the spec's configuration
    surface that the client reads, under the names it reads them by. The
    three pool limits are signed integers: two of them are passed to
    functions that take an [int]. *)
Record Config : Type := mkConfig {
  AuthenticationMode : string;
  DBHost : string;
  DBPort : string;
  Transport : string;
  Username : string;
  Password : string;
  PasswordType : string;
  EncryptSecretPath : string;
  Database : string;
  Region : string;
  AWSCertificatePath : string;
  AllowNativePasswords : bool;
  SetConnMaxLifetime : Z;
  SetMaxOpenConns : Z;
  SetMaxIdleConns : Z
}.

(** [mysql.Config], with the fields [newMySQLClient] sets. *)
Record DriverConfig : Type := mkDriverConfig {
  User : string;
  Passwd : string;
  Net : string;
  Addr : string;
  DBName : string;
  DriverAllowNativePasswords : bool;
  TLSConfig : string;
  AllowCleartextPasswords : bool
}.

(** [sql.RawBytes]: the bytes of a column value, [nil] for SQL NULL. *)
Definition RawBytes : Type := option string.

(** What the database answers to a query text. [rows.Columns()] gives the
    column names or fails; [table] holds the rows that [rows.Next()]
    delivers; after them the iteration ends normally, or one more row
    arrives on which [rows.Scan] fails, or [rows.Err()] reports an error. *)
Inductive RowsEnd : Type :=
| EndOfRows
| ScanFails (e : error)
| ErrAtEnd (e : error).

Record Rows : Type := mkRows {
  Columns : error + list string;
  table : list (list RawBytes);
  ending : RowsEnd
}.

(** The handle [*sql.DB]: the database behind it and the pool limits last
    requested through [SetConnMaxLifetime] (nanoseconds), [SetMaxOpenConns]
    and [SetMaxIdleConns]. *)
Record DB : Type := mkDB {
  answer : string → error + Rows;
  ConnMaxLifetime : option Z;
  MaxOpenConns : option Z;
  MaxIdleConns : option Z
}.

Record mySQLClient : Type := mkClient {
  connStr : string;
  client : option DB;
  conf : Config
}.

(** ** Effects *)

Inductive Level : Type := DebugLevel | InfoLevel | ErrorLevel.

Record Entry : Type := mkEntry {
  level : Level;
  message : string;
  fields : list (string * string)
}.

(** The state the client works on: the checkpoint store, the log written
    through [c.logger], and the query texts sent to the database so far. *)
Record World : Type := mkWorld {
  states : gmap string string;
  logged : list Entry;
  sent : list string
}.

Inductive Outcome (A : Type) : Type :=
| Returned (a : A)
| Panicked.
Arguments Returned {A} a.
Arguments Panicked {A}.

Definition Exec (A : Type) : Type := World → Outcome A * World.

#[global] Instance Exec_ret : MRet Exec := λ A a w, (Returned a, w).
#[global] Instance Exec_bind : MBind Exec := λ A B k m w,
  match m w with
  | (Returned a, w') => k a w'
  | (Panicked, w') => (Panicked, w')
  end.

Definition panic {A : Type} : Exec A := λ w, (Panicked, w).

Definition log (l : Level) (msg : string) (fs : list (string * string))
  : Exec unit :=
  λ w, (Returned (), mkWorld (states w) (logged w ++ [mkEntry l msg fs]) (sent w)).

Definition send (query : string) : Exec unit :=
  λ w, (Returned (), mkWorld (states w) (logged w) (sent w ++ [query])).

(** The fields [zap.String] and [zap.Error] add to a log entry. *)
Definition zapString (k v : string) : string * string := (k, v).
Definition zapError (e : error) : string * string := ("error", e).

(** ** The checkpoint store *)

(** Modelled from the spec: [GetState] and [SaveState] are called by
    [getRecords] but are not among the sources. The spec has the checkpoint
    as a mapping from the QuerySpec identifier to the last cursor value, and
    the value read as the current checkpoint, or the configured initial
    value on first run. *)
Definition GetState (dbquery : DBQueries) : Exec string :=
  λ w, (Returned (default (InitialIndexColumnStartValue dbquery)
                          (states w !! QueryId dbquery)), w).

(** Modelled from the spec: [SaveState] makes [value] the checkpoint of the
    query. *)
Definition SaveState (dbquery : DBQueries) (value : string) : Exec unit :=
  λ w, (Returned (),
        mkWorld (<[QueryId dbquery := value]> (states w)) (logged w) (sent w)).

(** ** The client *)

Module sql.

Definition SetConnMaxLifetime (db : DB) (d : Z) : DB :=
  mkDB (answer db) (Some d) (MaxOpenConns db) (MaxIdleConns db).
Definition SetMaxOpenConns (db : DB) (n : Z) : DB :=
  mkDB (answer db) (ConnMaxLifetime db) (Some n) (MaxIdleConns db).
Definition SetMaxIdleConns (db : DB) (n : Z) : DB :=
  mkDB (answer db) (ConnMaxLifetime db) (MaxOpenConns db) (Some n).

(** [rows.Scan] into one destination per column: it fails when the row
    does not have that many values. *)
Definition Scan (ncols : nat) (row : list RawBytes) : list RawBytes * option error :=
  if (length row =? ncols)%nat then (row, None)
  else ([], Some "sql: wrong number of destination arguments in Scan").

End sql.

Module time.

(** A [time.Duration] is an [int64] count of nanoseconds; its product
    wraps around. *)
Definition int64 (z : Z) : Z := (z + 2 ^ 63) mod 2 ^ 64 - 2 ^ 63.
Definition Minute : Z := 60000000000.
Definition mul (a b : Z) : Z := int64 (a * b).

End time.

Definition setQuery (dbquery : DBQueries) (text : string) : DBQueries :=
  mkDBQueries (QueryId dbquery) text (IndexColumnName dbquery)
              (IndexColumnType dbquery) (InitialIndexColumnStartValue dbquery).

Definition setClient (c : mySQLClient) (db : DB) : mySQLClient :=
  mkClient (connStr c) (Some db) (conf c).

(** [logger.Error(msg, zap.Error(err))] under [if err != nil]. *)
Definition logIfErr (err : option error) (msg : string) : Exec unit :=
  match err with
  | Some e => log ErrorLevel msg [zapError e]
  | None => mret ()
  end.

Section Client.

(** What lies outside the sources: the helpers [readMySecret], [Encrypt]
    and [Decrypt] of the receiver, each by the value and the error it
    returns (what they may log themselves is left out); the token service,
    the certificate file and the MySQL driver; and the database that
    [sql.Open] connects to. *)
Variable readMySecret : Config → string * option error.
Variable Encrypt : string → string → string * option error.
Variable Decrypt : string → string → string * option error.
Variable LoadDefaultConfig : option error.
Variable BuildAuthToken : string → string → string → string * option error.
Variable ReadFile : string → string * option error.
Variable AppendCertsFromPEM : string → bool.
Variable RegisterTLSConfig : string → string → option error.
Variable FormatDSN : DriverConfig → string.
Variable sql_Open : string → string → (string → error + Rows) * option error.

(** The [tls.Config] is represented by the certificate data of its root
    pool. *)
Definition createIAMRDSTLSConf (pempath : string) : Exec string :=
  let '(globalpem, err) := ReadFile pempath in
  logIfErr err "error in reading pem file" ;;
  (if negb (AppendCertsFromPEM globalpem)
   then log ErrorLevel "error in loading certificates from pem file"
            (from_option (λ e, [zapError e]) [] err)
   else mret ()) ;;
  mret (if AppendCertsFromPEM globalpem then globalpem else EmptyString).

Definition generateIAMAuthToken (endpoint : string) (conf : Config) : Exec string :=
  logIfErr LoadDefaultConfig "configuration error:" ;;
  let '(authenticationToken, err) :=
    BuildAuthToken endpoint (Region conf) (Username conf) in
  logIfErr err "failed to create authentication token:" ;;
  mret authenticationToken.

Definition newMySQLClient (conf : Config) : Exec mySQLClient :=
  let basicauthpassword := Password conf in
  (if ((String.length (PasswordType conf) =? 0)%nat
       || String.eqb (PasswordType conf) "plaintext")
      && negb (String.length (EncryptSecretPath conf) =? 0)%nat
   then
     let '(secret, err) := readMySecret conf in
     logIfErr err "error in reading encryption secret from file" ;;
     let '(encText, err) := Encrypt (Password conf) secret in
     logIfErr err "error encrypting your classified text" ;;
     log DebugLevel
         "The plaintext password can be replaced with this encrypted password."
         [zapString "encryptedPassword" encText]
   else mret ()) ;;
  basicauthpassword ←
    (if String.eqb (PasswordType conf) "encrypted"
     then
       let '(secret, err) := readMySecret conf in
       logIfErr err "error in reading encryption secret from file" ;;
       let '(decText, err) := Decrypt (Password conf) secret in
       logIfErr err "error decrypting your encrypted text: " ;;
       mret decText
     else mret basicauthpassword) ;
  let endpoint := DBHost conf +:+ ":" +:+ DBPort conf in
  driverConf ←
    (if String.eqb (AuthenticationMode conf) "IAMRDSAuth"
     then
       authenticationToken ← generateIAMAuthToken endpoint conf ;
       tlsConf ← createIAMRDSTLSConf (AWSCertificatePath conf) ;
       logIfErr (RegisterTLSConfig "custom" tlsConf)
                ("Error %s when RegisterTLSConfig" +:+ utf8.chr 10) ;;
       mret (mkDriverConfig (Username conf) authenticationToken (Transport conf)
                            endpoint (Database conf) (AllowNativePasswords conf)
                            "custom" true)
     else
       mret (mkDriverConfig (Username conf) basicauthpassword (Transport conf)
                            endpoint (Database conf) (AllowNativePasswords conf)
                            EmptyString false)) ;
  let connStr := FormatDSN driverConf in
  mret (mkClient connStr None conf).

(** [Connect] has a pointer receiver: the client it returns is the
    receiver after the call. *)
Definition Connect (c : mySQLClient) : Exec (mySQLClient * option error) :=
  let '(database, err) := sql_Open "mysql" (connStr c) in
  match err with
  | Some e =>
      log ErrorLevel "Unable to connect to database" [zapError e] ;;
      mret (c, Some e)
  | None =>
      let clientDB := mkDB database None None None in
      let clientDB :=
        if negb (SetConnMaxLifetime (conf c) =? 0)
        then sql.SetConnMaxLifetime clientDB
               (time.mul time.Minute (time.int64 (SetConnMaxLifetime (conf c))))
        else sql.SetConnMaxLifetime clientDB (time.mul time.Minute 3) in
      let clientDB :=
        if negb (SetConnMaxLifetime (conf c) =? 0)
        then sql.SetMaxOpenConns clientDB (SetMaxOpenConns (conf c))
        else sql.SetMaxOpenConns clientDB 5 in
      let clientDB :=
        if negb (SetConnMaxLifetime (conf c) =? 0)
        then sql.SetMaxIdleConns clientDB (SetMaxIdleConns (conf c))
        else sql.SetMaxIdleConns clientDB 5 in
      mret (setClient c clientDB, None)
  end.

End Client.

(** The inner loop of the row loop, [for _, col := range values]: [value]
    and [line] are the variables of the source. *)
Definition scanLine (values : list RawBytes) : list string :=
  (foldl (λ (vars : string * list string) (col : RawBytes),
            let '(value, line) := vars in
            match col with
            | None => ("NULL", line)
            | Some bytes => (bytes, (line ++ [bytes])%list)
            end)
         (EmptyString, []) values).2.

(** [for rows.Next() { ... rows.Scan(scanArgs...) ... }] over the rows the
    database delivers. *)
Fixpoint scanRows (ncols : nat) (tbl : list (list RawBytes))
    (lines : list (list string)) : list (list string) * option error :=
  match tbl with
  | [] => (lines, None)
  | row :: tbl' =>
      match sql.Scan ncols row with
      | (_, Some e) => (lines, Some e)
      | (values, None) => scanRows ncols tbl' (lines ++ [scanLine values])%list
      end
  end.

(** [for i, v := range value { myjsonobject[columns[i]] = v }]; [None] is
    the run-time panic of an index out of range. *)
Fixpoint setColumns (columns : list string) (i : nat) (value : list string)
    (myjsonobject : gmap string string) : option (gmap string string) :=
  match value with
  | [] => Some myjsonobject
  | v :: value' =>
      match columns !! i with
      | Some name => setColumns columns (S i) value' (<[name := v]> myjsonobject)
      | None => None
      end
  end.

(** The loop [for j, value := range lines] with the variables it updates:
    [myjsonobject], [myEntireRecord] and [lastIndex]. *)
Fixpoint encodeLines (columns : list string) (queryid : string) (j : nat)
    (lines : list (list string))
    (myjsonobject myEntireRecord : gmap string string) (lastIndex : string)
  : Exec (option (gmap string string) * string * option error) :=
  match lines with
  | [] => mret (Some myEntireRecord, lastIndex, None)
  | value :: lines' =>
      match setColumns columns O value myjsonobject with
      | None => panic
      | Some myjsonobject =>
          match json.Marshal myjsonobject with
          | (_, Some err) =>
              log ErrorLevel "Error in marshalling json object"
                  [zapString "queryId" queryid; zapError err] ;;
              mret (None, EmptyString, None)
          | (jsonStr, None) =>
              let index :=
                queryid +:+ "_record" +:+ strconv.Itoa (Z.of_nat j + 1) in
              encodeLines columns queryid (S j) lines' myjsonobject
                          (<[index := jsonStr]> myEntireRecord) index
          end
      end
  end.

(** The client is passed by value; a [nil] handle makes [c.client.Query]
    panic. *)
Definition ExecuteQueryandFetchRecords (c : mySQLClient) (query queryid : string)
  : Exec (option (gmap string string) * string * option error) :=
  match client c with
  | None => panic
  | Some db =>
      send query ;;
      match answer db query with
      | inl err =>
          log ErrorLevel "Error in executing sql query"
              [zapString "queryId" queryid; zapError err] ;;
          mret (None, EmptyString, None)
      | inr rows =>
          match Columns rows with
          | inl err =>
              log ErrorLevel "Error getting column names from table"
                  [zapString "queryId" queryid; zapError err] ;;
              mret (None, EmptyString, None)
          | inr columns =>
              match scanRows (length columns) (table rows) [] with
              | (_, Some err) =>
                  log ErrorLevel "Error scanning rows from table"
                      [zapString "queryId" queryid; zapError err] ;;
                  mret (None, EmptyString, None)
              | (lines, None) =>
                  match ending rows with
                  | ScanFails err =>
                      log ErrorLevel "Error scanning rows from table"
                          [zapString "queryId" queryid; zapError err] ;;
                      mret (None, EmptyString, None)
                  | ErrAtEnd err =>
                      log ErrorLevel "Error found in rows"
                          [zapString "queryId" queryid; zapError err] ;;
                      mret (None, EmptyString, None)
                  | EndOfRows =>
                      encodeLines columns queryid O lines ∅ ∅ EmptyString
                  end
              end
          end
      end
  end.

(** [for key, element := range queryFetchResult { myEntireRecords[key] =
    element }]; ranging over a [nil] map does nothing. *)
Definition copyInto (queryFetchResult : option (gmap string string))
    (myEntireRecords : gmap string string) : gmap string string :=
  default ∅ queryFetchResult ∪ myEntireRecords.

Definition len (m : option (gmap string string)) : nat := size (default ∅ m).

Definition is_TIMESTAMP (t : string) : bool := String.eqb t "TIMESTAMP".
Definition is_NUMBER (t : string) : bool := String.eqb t "NUMBER".

(** The four texts [getRecords] appends to a query with a cursor column;
    in the first two the placeholder of the value stands between double
    quotes. *)
Definition and_TIMESTAMP : string :=
  " and INDEXCOLUMNNAME > " +:+ json.dquote +:+ "STATEVALUE" +:+ json.dquote
  +:+ " order by INDEXCOLUMNNAME asc;".
Definition where_TIMESTAMP : string :=
  " where INDEXCOLUMNNAME > " +:+ json.dquote +:+ "STATEVALUE" +:+ json.dquote
  +:+ " order by INDEXCOLUMNNAME asc;".
Definition and_NUMBER : string :=
  " and INDEXCOLUMNNAME > STATEVALUE order by INDEXCOLUMNNAME asc;".
Definition where_NUMBER : string :=
  " where INDEXCOLUMNNAME > STATEVALUE order by INDEXCOLUMNNAME asc;".

(** What [getRecords] returns besides the records: its argument is a
    pointer, and the [DBQueries] of the result is the pointee after the
    call. *)
Definition Fetched : Type :=
  DBQueries * (option (gmap string string) * option error).

(** The second [if] of [getRecords]: run the query and, with a cursor
    column, move the checkpoint. *)
Definition fetchRecords (c : mySQLClient) (dbquery : DBQueries)
    (myEntireRecords : gmap string string) : Exec Fetched :=
  let qid := [zapString "queryId" (QueryId dbquery)] in
  if GoStrings.blank (IndexColumnName dbquery) then
    '(queryFetchResult, _, err) ←
      ExecuteQueryandFetchRecords c (Query dbquery) (QueryId dbquery) ;
    let myEntireRecords := copyInto queryFetchResult myEntireRecords in
    match err with
    | Some e =>
        log ErrorLevel "Error in executing query and fetching records for:"
            (qid ++ [zapError e])%list ;;
        mret (dbquery, (None, None))
    | None =>
        (if (len queryFetchResult =? 0)%nat
         then log InfoLevel "No database records found for query with:" qid
         else log InfoLevel "Database records found for query with:" qid) ;;
        mret (dbquery, (Some myEntireRecords, None))
    end
  else
    currentState ← GetState dbquery ;
    let dbquery :=
      setQuery dbquery (GoStrings.Replace (Query dbquery) "STATEVALUE" currentState) in
    let dbquery :=
      setQuery dbquery
        (GoStrings.Replace (Query dbquery) "INDEXCOLUMNNAME" (IndexColumnName dbquery)) in
    '(queryFetchResult, lastIndex, err) ←
      ExecuteQueryandFetchRecords c (Query dbquery) (QueryId dbquery) ;
    let myEntireRecords := copyInto queryFetchResult myEntireRecords in
    match err with
    | Some e =>
        log ErrorLevel "Error in executing query and fetching records"
            (qid ++ [zapError e])%list ;;
        mret (dbquery, (None, None))
    | None =>
        if (len queryFetchResult =? 0)%nat
        then
          log InfoLevel "No new records found for query with : " qid ;;
          mret (dbquery, (Some myEntireRecords, None))
        else
          log InfoLevel "New database records found for query with : " qid ;;
          let lastRecordFetched := default EmptyString (myEntireRecords !! lastIndex) in
          match json.Unmarshal lastRecordFetched with
          | None =>
              log ErrorLevel
                  "Problem converting sql query resultset into json format for:"
                  (qid ++ [zapError "invalid JSON"])%list ;;
              mret (dbquery, (None, None))
          | Some lastRecordFetchedVal =>
              (* the type assertion [.(string)] panics on a missing field *)
              match lastRecordFetchedVal !! IndexColumnName dbquery with
              | None => panic
              | Some lastRecordStateNumber =>
                  SaveState dbquery lastRecordStateNumber ;;
                  mret (dbquery, (Some myEntireRecords, None))
              end
          end
    end.

Definition getRecords (c : mySQLClient) (dbquery : DBQueries) : Exec Fetched :=
  let myEntireRecords : gmap string string := ∅ in
  let qid := [zapString "queryId" (QueryId dbquery)] in
  if GoStrings.blank (Query dbquery) then
    log ErrorLevel "Query is empty, check collector config file for:" qid ;;
    mret (dbquery, (None, None))
  else if GoStrings.blank (IndexColumnName dbquery) then
    log InfoLevel
        "IndexColumnName missing from collector config file, so fetching all records for:"
        qid ;;
    fetchRecords c dbquery myEntireRecords
  else if negb (GoStrings.blank (IndexColumnName dbquery))
          && GoStrings.blank (IndexColumnType dbquery) then
    log ErrorLevel
        "IndexColummType should be specified with a IndexColumnName for a query."
        qid ;;
    log ErrorLevel "Supported values are TIMESTAMP or NUMBER." qid ;;
    mret (dbquery, (None, None))
  else if negb (is_TIMESTAMP (IndexColumnType dbquery))
          && negb (is_NUMBER (IndexColumnType dbquery)) then
    log ErrorLevel
        "Configured non supported Indexcolummtype, supported values are TIMESTAMP or NUMBER."
        qid ;;
    log ErrorLevel "Check collector configuration file for:" qid ;;
    mret (dbquery, (None, None))
  else if negb (GoStrings.blank (IndexColumnName dbquery)) then
    let dbquery :=
      if is_TIMESTAMP (IndexColumnType dbquery) then
        if GoStrings.Contains (Query dbquery) "where"
        then setQuery dbquery (Query dbquery +:+ and_TIMESTAMP)
        else setQuery dbquery (Query dbquery +:+ where_TIMESTAMP)
      else if is_NUMBER (IndexColumnType dbquery) then
        if GoStrings.Contains (Query dbquery) "where"
        then setQuery dbquery (Query dbquery +:+ and_NUMBER)
        else setQuery dbquery (Query dbquery +:+ where_NUMBER)
      else dbquery in
    log InfoLevel
        "IndexColumnName specified, fetching records incrementally for:" qid ;;
    fetchRecords c dbquery myEntireRecords
  else
    fetchRecords c dbquery myEntireRecords.

(** ** Closing the client *)

(** [db.Close()] of package [database/sql] closes the pool behind the
    handle; the handle stays, and every later [Query] on it is refused with
    the error [sql: database is closed]. *)
Definition errDBClosed : error := "sql: database is closed".

Definition closeDB (db : DB) : DB :=
  mkDB (λ _, inl errDBClosed) (ConnMaxLifetime db) (MaxOpenConns db)
       (MaxIdleConns db).

Section Close.

(** What the driver reports when the connections of a pool are closed. *)
Variable closeConns : DB → option error.

(** [Close] has a pointer receiver and does not reset [c.client]: the
    client it returns is the receiver after the call, with the closed
    handle in it. *)
Definition Close (c : mySQLClient) : Exec (mySQLClient * option error) :=
  match client c with
  | Some db =>
      mret (mkClient (connStr c) (Some (closeDB db)) (conf c), closeConns db)
  | None => mret (c, None)
  end.

End Close.

(** * The Sumo Logic extension: registration and heartbeat

    The file [extension.go]: the extension registers the collector over
    HTTP, then sends a heartbeat at every interval until it is shut down,
    and it hands the credentials of the registration to the exporters as
    request headers. The HTTP server, the host name, the URL parser and the
    JSON decoder are outside the program. *)

Module sumologicextension.

(** A [time.Duration] is a number of nanoseconds. *)
Definition Second : Z := 1000000000.

Definition niteBaseUrl : string := "https://nite-open-events.sumologic.net".
Definition heartbeatUrl : string := "/api/v1/collector/heartbeat".
Definition registerUrl : string := "/api/v1/collector/register".
Definition defaultHeartbeatInterval : Z := 15 * Second.

(** The declaration of [Config] is not among the sources: these are the
    fields that [extension.go] reads, under the names it reads them by. *)
Record credentials : Type := mkCredentials {
  AccessID : string;
  AccessKey : string
}.

Record Config : Type := mkConfig {
  CollectorName : string;
  CollectorDescription : string;
  CollectorCategory : string;
  Credentials : credentials;
  HeartBeatInterval : Z
}.

Record OpenRegisterRequestPayload : Type := mkRequestPayload {
  ReqCollectorName : string;
  Ephemeral : bool;
  Description : string;
  Hostname : string;
  Category : string;
  Timezone : string
}.

Record OpenRegisterResponsePayload : Type := mkResponsePayload {
  CollectorCredentialId : string;
  CollectorCredentialKey : string;
  CollectorId : string
}.

(** [closeChan] is open or closed, and [closeOnce] has run or not. *)
Record SumologicExtension : Type := mkExtension {
  baseUrl : string;
  conf : Config;
  registrationInfo : OpenRegisterResponsePayload;
  closeChan_closed : bool;
  closeOnce_done : bool
}.

(** ** HTTP requests *)

(** A [context.Context], by what [ctx.Err()] returns: [nil] until the
    context is done. *)
Definition Context : Type := option error.

(** [http.Header]: the values of each key, in the order they were added. *)
Definition Header : Type := gmap string (list string).

Record Request : Type := mkRequest {
  Method : string;
  URL : string;
  header : Header;
  Body : string;
  Ctx : Context
}.

(** A response: its status code, and its body as [io.Copy] reads it. *)
Record Response : Type := mkResponse {
  StatusCode : Z;
  ResponseBody : error + string
}.

(** The bytes a header name may consist of. *)
Definition validHeaderFieldByte (c : ascii) : bool :=
  let b := utf8.byte c in
  ((b =? 33) || (35 <=? b) && (b <=? 39) || (b =? 42) || (b =? 43)
   || (b =? 45) || (b =? 46) || (48 <=? b) && (b <=? 57)
   || (65 <=? b) && (b <=? 90) || (94 <=? b) && (b <=? 122)
   || (b =? 124) || (b =? 126))%N.

Fixpoint validHeaderField (s : string) : bool :=
  match s with
  | EmptyString => true
  | String c s' => validHeaderFieldByte c && validHeaderField s'
  end.

(** The first letter and every letter after a dash in upper case, the
    other letters in lower case. *)
Fixpoint canonical (upper : bool) (s : string) : string :=
  match s with
  | EmptyString => EmptyString
  | String c s' =>
      let b := utf8.byte c in
      let c' :=
        if (upper && (97 <=? b) && (b <=? 122))%N then ascii_of_N (b - 32)
        else if (negb upper && (65 <=? b) && (b <=? 90))%N
             then ascii_of_N (b + 32)
        else c in
      String c' (canonical (Ascii.eqb c' "-") s')
  end.

(** [textproto.CanonicalMIMEHeaderKey]: a name with a byte that is not
    allowed in a header name is left as it is. *)
Definition CanonicalMIMEHeaderKey (s : string) : string :=
  if validHeaderField s then canonical true s else s.

(** [Header.Add]: the value is appended to the values of the key. *)
Definition Add (h : Header) (key value : string) : Header :=
  let key := CanonicalMIMEHeaderKey key in
  <[key := (default [] (h !! key) ++ [value])%list]> h.

Definition setHeader (req : Request) (h : Header) : Request :=
  mkRequest (Method req) (URL req) h (Body req) (Ctx req).

Definition addClientCredentials (req : Request) (accessID accessKey : string)
  : Request :=
  let req := setHeader req (Add (header req) "accessid" accessID) in
  setHeader req (Add (header req) "accesskey" accessKey).

Definition addJSONHeaders (req : Request) : Request :=
  setHeader req (Add (header req) "Content-Type" "application/json").

Definition addCollectorCredentials (req : Request)
    (collectorCredentialId collectorCredentialKey : string) : Request :=
  let req :=
    setHeader req (Add (header req) "collectorCredentialId" collectorCredentialId) in
  setHeader req (Add (header req) "collectorCredentialKey" collectorCredentialKey).

(** ** Effects *)

Inductive Field : Type :=
| zapString (key value : string)
| zapInt (key : string) (value : Z)
| zapAny (key : string) (value : OpenRegisterResponsePayload).

Record Entry : Type := mkEntry {
  level : Level;
  message : string;
  fields : list Field
}.

(** The state the extension works on: the log written through
    [se.logger] and the requests handed to [http.DefaultClient.Do]. *)
Record Net : Type := mkNet {
  logged : list Entry;
  requests : list Request
}.

(** The number of entries of a log with the message [msg]. *)
Definition marks (msg : string) (es : list Entry) : nat :=
  length (List.filter (λ e, String.eqb (message e) msg) es).

(** A computation returns a value or a Go [error]. *)
Definition Run (A : Type) : Type := Net → (error + A) * Net.

#[local] Instance Run_ret : MRet Run := λ A a s, (inr a, s).
#[local] Instance Run_bind : MBind Run := λ A B k m s,
  match m s with
  | (inr a, s') => k a s'
  | (inl e, s') => (inl e, s')
  end.

(** [return err]. *)
Definition returnErr {A : Type} (e : error) : Run A := λ s, (inl e, s).

(** [if err != nil { return err }]. *)
Definition lift {A : Type} (r : error + A) : Run A := λ s, (r, s).

(** [if err != nil { return fmt.Errorf(prefix + "%w", err) }]. *)
Definition wrap {A : Type} (prefix : string) (r : error + A) : Run A :=
  match r with
  | inl e => returnErr (prefix +:+ e)
  | inr a => mret a
  end.

(** [err := f()]: the error is a value of the caller. *)
Definition errorOf (m : Run unit) : Run (option error) := λ s,
  match m s with
  | (inl e, s') => (inr (Some e), s')
  | (inr _, s') => (inr None, s')
  end.

Definition log (l : Level) (msg : string) (fs : list Field) : Run unit :=
  λ s, (inr (), mkNet (logged s ++ [mkEntry l msg fs]) (requests s)).

(** [json.NewEncoder(&buff).Encode] of the request payload: the fields in
    the order of their declaration, and a line feed. *)
Definition Encode (p : OpenRegisterRequestPayload) : string :=
  "{" +:+ json.member ("collectorName", ReqCollectorName p)
  +:+ "," +:+ json.quote "ephemeral" +:+ ":"
  +:+ (if Ephemeral p then "true" else "false")
  +:+ "," +:+ json.member ("description", Description p)
  +:+ "," +:+ json.member ("hostname", Hostname p)
  +:+ "," +:+ json.member ("category", Category p)
  +:+ "," +:+ json.member ("timeZone", Timezone p)
  +:+ "}" +:+ utf8.chr 10.

Definition setRegistrationInfo (se : SumologicExtension)
    (resp : OpenRegisterResponsePayload) : SumologicExtension :=
  mkExtension (baseUrl se) (conf se) resp (closeChan_closed se)
              (closeOnce_done se).

Definition setHeartBeatInterval (conf : Config) (d : Z) : Config :=
  mkConfig (CollectorName conf) (CollectorDescription conf)
           (CollectorCategory conf) (Credentials conf) d.

(** [newSumologicExtension] writes the default interval through the
    pointer [conf]: the configuration it returns is the pointee after the
    call. *)
Definition newSumologicExtension (conf : Config)
  : Config * (error + SumologicExtension) :=
  if String.eqb (CollectorName conf) EmptyString
  then (conf, inl "collector name is unset")
  else
    let conf :=
      if HeartBeatInterval conf <=? 0
      then setHeartBeatInterval conf defaultHeartbeatInterval
      else conf in
    (conf,
     inr (mkExtension niteBaseUrl conf
            (mkResponsePayload EmptyString EmptyString EmptyString)
            false false)).

(** [close(ch)] panics on a closed channel; [None] is the panic. *)
Definition close (closed : bool) : option bool :=
  if closed then None else Some true.

(** [Shutdown]: [closeOnce.Do] runs the closing function unless it has
    run before; the result is the receiver after the call and the error
    returned. *)
Definition Shutdown (ctx : Context) (se : SumologicExtension)
  : option (SumologicExtension * option error) :=
  se ← (if closeOnce_done se then Some se
        else
          closed ← close (closeChan_closed se) ;
          Some (mkExtension (baseUrl se) (conf se) (registrationInfo se)
                            closed true)) ;
  match ctx with
  | Some err => Some (se, Some err)
  | None => Some (se, None)
  end.

(** The test that [heartbeatLoop] makes before it starts. *)
Definition registered (se : SumologicExtension) : bool :=
  negb (String.eqb (CollectorCredentialId (registrationInfo se)) EmptyString
        || String.eqb (CollectorId (registrationInfo se)) EmptyString).

(** A sequence of calls of [Shutdown], one for each context. *)
Fixpoint Shutdowns (ctxs : list Context) (se : SumologicExtension)
  : option (SumologicExtension * list (option error)) :=
  match ctxs with
  | [] => Some (se, [])
  | ctx :: ctxs' =>
      '(se, err) ← Shutdown ctx se ;
      '(se, errs) ← Shutdowns ctxs' se ;
      Some (se, err :: errs)
  end.

Definition CollectorID (se : SumologicExtension) : string :=
  CollectorId (registrationInfo se).

Definition BaseUrl (se : SumologicExtension) : string := baseUrl se.

Record roundTripper : Type := mkRoundTripper {
  collectorCredentialId : string;
  collectorCredentialKey : string;
  base : Request → error + Response
}.

Definition RoundTripper (se : SumologicExtension)
    (base : Request → error + Response) : roundTripper * option error :=
  (mkRoundTripper (CollectorCredentialId (registrationInfo se))
                  (CollectorCredentialKey (registrationInfo se)) base,
   None).

(** [RoundTrip] writes the headers through the pointer [req]: the
    request it returns is the pointee after the call. *)
Definition RoundTrip (rt : roundTripper) (req : Request)
  : Request * (error + Response) :=
  let req :=
    addCollectorCredentials req (collectorCredentialId rt)
                            (collectorCredentialKey rt) in
  (req, base rt req).

Section Net.

(** What lies outside the sources: the URLs of package [net/url], the
    host name, the check [http.NewRequest] makes of a method and a URL
    text, the answer of the server to a request given the requests made
    before it, and the JSON decoder for the response payload. *)
Variable url : Type.
Variable url_Parse : string → error + url.
Variable setPath : url → string → url.
Variable url_String : url → string.
Variable os_Hostname : error + string.
Variable http_NewRequest : string → string → option error.
Variable server : list Request → Request → error + Response.
Variable Decode : string → error + OpenRegisterResponsePayload.

Definition NewRequestWithContext (ctx : Context) (method url body : string)
  : error + Request :=
  match http_NewRequest method url with
  | Some e => inl e
  | None => inr (mkRequest method url ∅ body ctx)
  end.

(** [http.NewRequest] uses the background context. *)
Definition NewRequest (method url body : string) : error + Request :=
  NewRequestWithContext None method url body.

(** [http.DefaultClient.Do]: the request is handed to the client, which
    returns a response or an error. *)
Definition Do (req : Request) : Run (error + Response) :=
  λ s, (inr (server (requests s) req),
        mkNet (logged s) (requests s ++ [req])).

(** The request that [register] builds. *)
Definition registerRequest (ctx : Context) (se : SumologicExtension)
    (u : url) (hostname : string) : Request :=
  addJSONHeaders
    (addClientCredentials
       (mkRequest "POST" (url_String (setPath u registerUrl)) ∅
          (Encode (mkRequestPayload (CollectorName (conf se)) true
                     (CollectorDescription (conf se)) hostname
                     (CollectorCategory (conf se)) EmptyString))
          ctx)
       (AccessID (Credentials (conf se))) (AccessKey (Credentials (conf se)))).

(** The request that [sendHeartbeat] builds. *)
Definition heartbeatRequest (se : SumologicExtension) (u : url) : Request :=
  addJSONHeaders
    (addCollectorCredentials
       (mkRequest "POST" (url_String u) ∅ EmptyString None)
       (CollectorCredentialId (registrationInfo se))
       (CollectorCredentialKey (registrationInfo se))).

(** [register] has a pointer receiver: the extension it returns is the
    receiver after the call. *)
Definition register (ctx : Context) (se : SumologicExtension)
  : Run SumologicExtension :=
  u ← lift (url_Parse (baseUrl se)) ;
  let u := setPath u registerUrl in
  hostname ← wrap "cannot get hostname: " os_Hostname ;
  let buff :=
    Encode (mkRequestPayload (CollectorName (conf se)) true
              (CollectorDescription (conf se)) hostname
              (CollectorCategory (conf se)) EmptyString) in
  req ← lift (NewRequestWithContext ctx "POST" (url_String u) buff) ;
  let req :=
    addClientCredentials req (AccessID (Credentials (conf se)))
                         (AccessKey (Credentials (conf se))) in
  let req := addJSONHeaders req in
  log InfoLevel "Calling register API" [zapString "URL" (url_String u)] ;;
  res ← Do req ≫= wrap "failed to register the collector: " ;
  if (StatusCode res <? 200) || (400 <=? StatusCode res) then
    buff ← wrap ("failed to copy collector registration response body, status code: "
                 +:+ strconv.Itoa (StatusCode res) +:+ ", err: ")
              (ResponseBody res) ;
    log ErrorLevel "Collector registration failed"
        [zapInt "response status code" (StatusCode res);
         zapString "response" buff] ;;
    mret se
  else
    resp ← lift (match ResponseBody res with
                 | inl e => inl e
                 | inr text => Decode text
                 end) ;
    log InfoLevel "Collector registered"
        [zapString "CollectorID" (CollectorId resp); zapAny "response" resp] ;;
    mret (setRegistrationInfo se resp).

Definition sendHeartbeat (se : SumologicExtension) : Run unit :=
  u ← wrap "unable to parse heartbeat URL "
        (url_Parse (baseUrl se +:+ heartbeatUrl)) ;
  req ← wrap "unable to create HTTP request "
          (NewRequest "POST" (url_String u) EmptyString) ;
  let req :=
    addCollectorCredentials req
      (CollectorCredentialId (registrationInfo se))
      (CollectorCredentialKey (registrationInfo se)) in
  let req := addJSONHeaders req in
  res ← Do req ≫= wrap "unable to send HTTP request: " ;
  if negb (StatusCode res =? 204) then
    buff ← wrap ("failed to copy collector heartbeat response body, status code: "
                 +:+ strconv.Itoa (StatusCode res) +:+ ", err: ")
              (ResponseBody res) ;
    returnErr ("collector heartbeat request failed, status code: "
               +:+ strconv.Itoa (StatusCode res) +:+ ", body: " +:+ buff)
  else mret ().

(** The loop of [heartbeatLoop], for the [ticks] times that it finds
    [closeChan] open before it finds it closed. What it waits between two
    heartbeats has no part in what it sends and logs. *)
Fixpoint beats (ticks : nat) (se : SumologicExtension) : Run unit :=
  match ticks with
  | O => log InfoLevel "Heartbeat sender turn off" []
  | S ticks' =>
      err ← errorOf (sendHeartbeat se) ;
      match err with
      | Some e => log ErrorLevel "Heartbeat error: " [zapString "error: " e]
      | None => mret ()
      end ;;
      log DebugLevel "Heartbeat sent" [] ;;
      beats ticks' se
  end.

Definition heartbeatLoop (ticks : nat) (se : SumologicExtension) : Run unit :=
  if String.eqb (CollectorCredentialId (registrationInfo se)) EmptyString
     || String.eqb (CollectorId (registrationInfo se)) EmptyString
  then log ErrorLevel "Collector not registered, cannot send heartbeat" []
  else
    log InfoLevel
        "Heartbeat heartbeat API initialized. Starting sending hearbeat requests"
        [] ;;
    beats ticks se.

(** [Start]: the goroutine [go se.heartbeatLoop()] is run here to its end,
    which it reaches after [ticks] heartbeats; what [Start] returns is
    decided before the goroutine starts. *)
Definition Start (ticks : nat) (ctx : Context) (se : SumologicExtension)
  : Run SumologicExtension :=
  se ← register ctx se ;
  heartbeatLoop ticks se ;;
  mret se.

End Net.

End sumologicextension.

(** * Notions used in the statements *)

(** The world after [es] was logged and [qs] was sent. *)
Definition extend (w : World) (es : list Entry) (qs : list string) : World :=
  mkWorld (states w) (logged w ++ es) (sent w ++ qs).

Definition isError (e : Entry) : Prop := level e = ErrorLevel.

(** A computation that returns a value and does nothing but log. *)
Definition logsOnly {A : Type} (m : Exec A) : Prop :=
  ∃ a es, ∀ w, m w = (Returned a, extend w es []).

(** The key of the record of the row at index [j]. *)
Definition recordKey (queryid : string) (j : nat) : string :=
  queryid +:+ "_record" +:+ strconv.Itoa (Z.of_nat j + 1).

(** The answers of the database on which the fetch fails: the query is
    refused, the column names cannot be read, a row cannot be scanned, or
    the iteration ends with an error. *)
Definition fetchFails (ans : error + Rows) : bool :=
  match ans with
  | inl _ => true
  | inr rows =>
      match Columns rows with
      | inl _ => true
      | inr columns =>
          match scanRows (length columns) (table rows) [] with
          | (_, Some _) => true
          | (_, None) =>
              match ending rows with
              | EndOfRows => false
              | _ => true
              end
          end
      end
  end.

(** The number of rows the database delivers for an answer. *)
Definition rowCount (ans : error + Rows) : nat :=
  match ans with
  | inl _ => O
  | inr rows => length (table rows)
  end.

(** The query text after the first [if] chain of [getRecords], for a
    query with a cursor column of a supported type. *)
Definition appended (dbquery : DBQueries) : string :=
  if is_TIMESTAMP (IndexColumnType dbquery) then
    if GoStrings.Contains (Query dbquery) "where"
    then Query dbquery +:+ and_TIMESTAMP
    else Query dbquery +:+ where_TIMESTAMP
  else
    if GoStrings.Contains (Query dbquery) "where"
    then Query dbquery +:+ and_NUMBER
    else Query dbquery +:+ where_NUMBER.

(** The query text after the two substitutions. *)
Definition rewritten (dbquery : DBQueries) (currentState : string) : string :=
  GoStrings.Replace
    (GoStrings.Replace (appended dbquery) "STATEVALUE" currentState)
    "INDEXCOLUMNNAME" (IndexColumnName dbquery).

(** The value [GetState] reads in a world. *)
Definition checkpoint (dbquery : DBQueries) (w : World) : string :=
  default (InitialIndexColumnStartValue dbquery) (states w !! QueryId dbquery).

Definition supported (t : string) : bool := is_TIMESTAMP t || is_NUMBER t.

(** A query text, a cursor column and a supported cursor type. *)
Definition cursorQuery (dbquery : DBQueries) : bool :=
  negb (GoStrings.blank (Query dbquery))
  && negb (GoStrings.blank (IndexColumnName dbquery))
  && supported (IndexColumnType dbquery).

(** A query text and no cursor column. *)
Definition snapshotQuery (dbquery : DBQueries) : bool :=
  negb (GoStrings.blank (Query dbquery))
  && GoStrings.blank (IndexColumnName dbquery).

(** A cursor column whose type is missing or unsupported. *)
Definition malformed (dbquery : DBQueries) : bool :=
  negb (GoStrings.blank (IndexColumnName dbquery))
  && (GoStrings.blank (IndexColumnType dbquery)
      || negb (supported (IndexColumnType dbquery))).

(** The text that [getRecords] sends to the database for a well-formed
    query. *)
Definition queryText (dbquery : DBQueries) (w : World) : string :=
  if GoStrings.blank (IndexColumnName dbquery) then Query dbquery
  else rewritten dbquery (checkpoint dbquery w).

(** The last record of a fetch, as [getRecords] looks it up. *)
Definition lastRecord (res : option (gmap string string)) (lastIndex : string)
  : string :=
  default EmptyString (default ∅ res !! lastIndex).

(** No occurrence of [old] begins inside [p] when [p] is followed by
    [rest]. *)
Fixpoint clear (old p rest : string) : bool :=
  match p with
  | EmptyString => true
  | String _ p' =>
      negb (GoStrings.prefixb old (p +:+ rest)) && clear old p' rest
  end.

Fixpoint hasByte (c : ascii) (s : string) : bool :=
  match s with
  | EmptyString => false
  | String a s' => Ascii.eqb a c || hasByte c s'
  end.

(** [rest] is empty or begins with a byte that does not occur in [old]. *)
Definition stops (old rest : string) : bool :=
  match rest with
  | EmptyString => true
  | String c _ => negb (hasByte c old)
  end.

(** The word that joins the predicate to the query text, and the value as
    it is written in the predicate. *)
Definition joiner (text : string) : string :=
  if GoStrings.Contains text "where" then " and " else " where ".

Definition literal (t value : string) : string :=
  if is_TIMESTAMP t then json.dquote +:+ value +:+ json.dquote else value.

(** The incremental query: the configured text, the predicate on the
    cursor column and the ordering. *)
Definition incremental (dbquery : DBQueries) (value : string) : string :=
  Query dbquery +:+ joiner (Query dbquery) +:+ IndexColumnName dbquery
  +:+ " > " +:+ literal (IndexColumnType dbquery) value
  +:+ " order by " +:+ IndexColumnName dbquery +:+ " asc;".

(** A byte that [json.Marshal] writes as it is: printable ASCII other
    than the quote, the backslash and the three HTML characters. A plain
    string has only such bytes. *)
Definition plainByte (c : ascii) : bool :=
  let b := utf8.byte c in
  ((32 <=? b) && (b <? 128) && negb (b =? 34) && negb (b =? 92)
   && negb (b =? 60) && negb (b =? 62) && negb (b =? 38))%N.

Fixpoint plain (s : string) : bool :=
  match s with
  | EmptyString => true
  | String c s' => plainByte c && plain s'
  end.

Definition plainPair (kv : string * string) : Prop :=
  plain kv.1 = true ∧ plain kv.2 = true.

(** ** The statements of the specification *)

(** The checkpoint is not written before the batch has been delivered:
    [getRecords] only fetches, delivery is the caller's, so the checkpoint
    store is the same when [getRecords] is left as when it was entered. *)
Definition checkpoint_kept (c : mySQLClient) (dbquery : DBQueries) (w : World)
  : Prop :=
  states (getRecords c dbquery w).2 = states w.

(** Upper-case ASCII letters made lower case. *)
Definition lowerByte (c : ascii) : ascii :=
  let b := utf8.byte c in
  if ((65 <=? b) && (b <=? 90))%N then ascii_of_N (b + 32) else c.

Fixpoint lower (s : string) : string :=
  match s with
  | EmptyString => EmptyString
  | String c s' => String (lowerByte c) (lower s')
  end.

(** A query text contains a filter clause when the keyword occurs in it,
    in upper or lower case as SQL allows. *)
Definition has_filter_clause (text : string) : bool :=
  GoStrings.Contains (lower text) "where".

(** The rewrite as the specification words it. *)
Definition spec_rewrite (dbquery : DBQueries) (value : string) : string :=
  Query dbquery
  +:+ (if has_filter_clause (Query dbquery) then " and " else " where ")
  +:+ IndexColumnName dbquery +:+ " > "
  +:+ literal (IndexColumnType dbquery) value
  +:+ " order by " +:+ IndexColumnName dbquery +:+ " asc;".

(** The QuerySpec behind the pointer is the same after the call. *)
Definition spec_unchanged (c : mySQLClient) (dbquery : DBQueries) (w : World)
  : Prop :=
  ∀ dbquery' result w',
    getRecords c dbquery w = (Returned (dbquery', result), w') →
    dbquery' = dbquery.

(** The query is skipped on this tick: errors are logged, no record and
    no error is returned, nothing is sent to the database and neither the
    QuerySpec nor the checkpoint store changes. *)
Definition skippedPerTick (c : mySQLClient) (dbquery : DBQueries) (w : World)
  : Prop :=
  ∃ es, es ≠ [] ∧ Forall isError es
        ∧ getRecords c dbquery w
          = (Returned (dbquery, (None, None)), extend w es []).

(** A computation that fails gives no value. *)
Definition fails {A : Type} (r : Outcome A * World) : Prop :=
  ∀ a, r.1 ≠ Returned a.

(** A pool limit that is defaulted when it is unset or not positive. *)
Definition defaulted (configured dflt : Z) : Z :=
  if configured <=? 0 then dflt else configured.

(** The limits of a handle: lifetime, open connections, idle
    connections. *)
Definition limits (db : DB) : option Z * option Z * option Z :=
  (ConnMaxLifetime db, MaxOpenConns db, MaxIdleConns db).

Definition spec_limits (conf : Config) : option Z * option Z * option Z :=
  (Some (time.mul time.Minute (defaulted (SetConnMaxLifetime conf) 3)),
   Some (defaulted (SetMaxOpenConns conf) 5),
   Some (defaulted (SetMaxIdleConns conf) 5)).

(** ** Example inputs *)

Module Examples.

Definition world0 : World := mkWorld ∅ [] [].

(** The receiver settings of the configuration example. *)
Definition conf0 : Config :=
  mkConfig "BasicAuth" "localhost" "3306" "tcp" "test" "uqDpyLNh4Ytfxw=="
           "encrypted" "secret.txt" "employees" "" "" true 3 10 10.


Definition Q2 : DBQueries :=
  mkDBQueries "Q2" "Select * from dept_manager" "emp_no" "NUMBER" "3".

(** A query whose filter clause is written in upper case. *)
Definition Q3 : DBQueries :=
  mkDBQueries "Q3" "SELECT * FROM titles WHERE title = 'Staff'" "from_date"
              "TIMESTAMP" "2006-01-02 15:04:05".

(** A cursor column without a cursor type. *)
Definition Q4 : DBQueries :=
  mkDBQueries "Q4" "Select * from dept_manager" "emp_no" "" "3".

(** A query that does not select its cursor column. *)
Definition Q5 : DBQueries :=
  mkDBQueries "Q5" "Select first_name from employees" "emp_no" "NUMBER" "3".

Definition departments : Rows :=
  mkRows (inr ["dept_no"; "dept_name"])
         [[Some "d001"; Some "Marketing"]; [Some "d002"; Some "Finance"]]
         EndOfRows.

Definition managers : Rows :=
  mkRows (inr ["emp_no"; "dept_no"])
         [[Some "4"; Some "d001"]; [Some "7"; Some "d002"]]
         EndOfRows.

(** The second row has no value in its first column. *)
Definition managers_null : Rows :=
  mkRows (inr ["note"; "emp_no"])
         [[Some "x"; Some "4"]; [None; Some "7"]]
         EndOfRows.

(** An answer without rows. *)
Definition no_titles : Rows :=
  mkRows (inr ["title"; "from_date"]) [] EndOfRows.

(** The selected columns do not include the cursor column. *)
Definition manager_names : Rows :=
  mkRows (inr ["first_name"]) [[Some "Ann"]] EndOfRows.

Definition one_null_row : Rows :=
  mkRows (inr ["a"; "b"]) [[None; Some "x"]] EndOfRows.

(** A connected client over a database that gives one answer to every
    query. *)
Definition database (rows : Rows) : DB :=
  mkDB (λ _, inr rows) None None None.
Definition connected (rows : Rows) : mySQLClient :=
  mkClient "" (Some (database rows)) conf0.

(** A connected client whose database refuses every query. *)
Definition refused : DB :=
  mkDB (λ _, inl "connection refused") None None None.
Definition refusing : mySQLClient := mkClient "" (Some refused) conf0.

(** An environment in which the secret file cannot be read and the
    decryption fails. *)
Definition noSecret (conf : Config) : string * option error :=
  (EmptyString, Some "open secret.txt: no such file or directory").
Definition noCipher (text secret : string) : string * option error :=
  (EmptyString, Some "crypto/aes: invalid key size 0").
Definition noToken (endpoint region user : string) : string * option error :=
  (EmptyString, Some "failed to retrieve credentials").
Definition noFile (path : string) : string * option error :=
  (EmptyString, Some "no such file or directory").
Definition showDSN (d : DriverConfig) : string :=
  User d +:+ ":" +:+ Passwd d +:+ "@" +:+ Net d +:+ "(" +:+ Addr d +:+ ")/"
  +:+ DBName d.

(** A configuration that sets the numbers of connections and leaves the
    lifetime unset. *)
Definition conf_no_lifetime : Config :=
  mkConfig "BasicAuth" "localhost" "3306" "tcp" "test" "secret" "plaintext"
           "" "employees" "" "" true 0 10 10.

(** A configuration that asks for an unlimited number of open
    connections. *)
Definition conf_unlimited : Config :=
  mkConfig "BasicAuth" "localhost" "3306" "tcp" "test" "secret" "plaintext"
           "" "employees" "" "" true 3 (-1) 10.
Definition unconnected (conf : Config) : mySQLClient :=
  mkClient "test:secret@tcp(localhost:3306)/employees" None conf.
Definition opens (driver dsn : string)
  : (string → error + Rows) * option error :=
  (λ _, inr departments, None).

End Examples.

(** ** Notions used in the further properties *)

(** The values of a row that are not NULL, in their order. *)
Definition nonNull (row : list RawBytes) : list string :=
  omap (M := list) id (row : list (option string)).

(** A row without NULL. *)
Definition full (values : list string) : list RawBytes := Some <$> values.

(** The value of [myjsonobject] when the loop over the lines reaches the
    line at index [k]: [obj] for the first line, then the object of the
    line before. *)
Definition before (obj : gmap string string) (objs : list (gmap string string))
    (k : nat) : gmap string string :=
  match k with
  | O => obj
  | S k' => default obj (objs !! k')
  end.

(** A query that passes the checks of [getRecords]. *)
Definition wellFormed (dbquery : DBQueries) : bool :=
  snapshotQuery dbquery || cursorQuery dbquery.

(** The condition of the first [if] of [newMySQLClient]: a plaintext
    password and a path to the encryption secret. *)
Definition offersEncryption (conf : Config) : bool :=
  ((String.length (PasswordType conf) =? 0)%nat
   || String.eqb (PasswordType conf) "plaintext")
  && negb (String.length (EncryptSecretPath conf) =? 0)%nat.

(** The address [newMySQLClient] connects to. *)
Definition endpoint (conf : Config) : string :=
  DBHost conf +:+ ":" +:+ DBPort conf.

(** A computation that returns a value with the property [P] and does
    nothing but log. *)
Definition logsOnlyWith {A : Type} (P : A → Prop) (m : Exec A) : Prop :=
  ∃ a es, P a ∧ ∀ w, m w = (Returned a, extend w es []).

(** [b] is empty or begins with an ASCII byte. *)
Definition startsAscii (b : string) : bool :=
  match b with
  | EmptyString => true
  | String d _ => (utf8.byte d <? 128)%N
  end.

(** Neither placeholder of the rewrite occurs in [s]. *)
Definition placeholderFree (s : string) : bool :=
  negb (GoStrings.Contains s "STATEVALUE")
  && negb (GoStrings.Contains s "INDEXCOLUMNNAME").

(** The predicate and the ordering that follow the query text. *)
Definition suffix (j t col v : string) : string :=
  j +:+ col +:+ " > " +:+ literal t v +:+ " order by " +:+ col +:+ " asc;".

(** ** Further example inputs *)

Module Cases.

(** A plaintext password with a path to the encryption secret, as in the
    configuration example that generates the encrypted password. *)
Definition conf_plain : Config :=
  mkConfig "BasicAuth" "localhost" "3306" "tcp" "test" "test" ""
           "secret.txt" "employees" "" "" true 3 10 10.

Definition conf_iam : Config :=
  mkConfig "IAMRDSAuth" "db.example.com" "3306" "tcp" "test" "" "" ""
           "employees" "us-east-1" "global-bundle.pem" true 3 10 10.

Definition theSecret (conf : Config) : string * option error :=
  ("0123456789abcdefghijklmn", None).
Definition cipher (text secret : string) : string * option error :=
  ("uqDpyLNh4Ytfxw==", None).

(** A lifetime of one hour. *)
Definition conf_hour : Config :=
  mkConfig "BasicAuth" "localhost" "3306" "tcp" "test" "secret" "plaintext"
           "" "employees" "" "" true 60 10 10.

Definition drops (db : DB) : option error := None.

(** The environment of the extension: URLs as their text, a server that
    refuses every request, and a server that registers the collector and
    accepts its heartbeats. *)
Definition parse (s : string) : error + string := inr s.
Definition withPath (u path : string) : string := u +:+ path.
Definition text (u : string) : string := u.
Definition hostname : error + string := inr "collector-1".
Definition anyRequest (method u : string) : option error := None.

Definition unauthorized (earlier : list sumologicextension.Request)
    (req : sumologicextension.Request)
  : error + sumologicextension.Response :=
  inr (sumologicextension.mkResponse 401 (inr "unauthorized")).

Definition accepting (earlier : list sumologicextension.Request)
    (req : sumologicextension.Request)
  : error + sumologicextension.Response :=
  match earlier with
  | [] => inr (sumologicextension.mkResponse 200 (inr "registered"))
  | _ => inr (sumologicextension.mkResponse 204 (inr EmptyString))
  end.

Definition issued : sumologicextension.OpenRegisterResponsePayload :=
  sumologicextension.mkResponsePayload "id-1" "key-1" "collector-1".

Definition decode (body : string)
  : error + sumologicextension.OpenRegisterResponsePayload :=
  if String.eqb body "registered" then inr issued
  else inl "invalid character".

Definition settings : sumologicextension.Config :=
  sumologicextension.mkConfig "OTEL_MYSQL_DB_INTEGRATOR" "" "collector_category"
    (sumologicextension.mkCredentials "access-id" "access-key") 0.

Definition fresh : sumologicextension.SumologicExtension :=
  sumologicextension.mkExtension sumologicextension.niteBaseUrl
    (sumologicextension.setHeartBeatInterval settings 15000000000)
    (sumologicextension.mkResponsePayload EmptyString EmptyString EmptyString)
    false false.

Definition offline : sumologicextension.Net := sumologicextension.mkNet [] [].

End Cases.
(** * Properties *)

(** ** Running [Exec] computations *)

Ltac exec :=
  unfold mbind, Exec_bind, mret, Exec_ret, log, send, panic, logIfErr; simpl.

Lemma extend_nil w : extend w [] [] = w.
Proof. destruct w; unfold extend; simpl. by rewrite !app_nil_r. Qed.

Lemma extend_extend w es qs es' qs' :
  extend (extend w es qs) es' qs' = extend w (es ++ es') (qs ++ qs').
Proof. unfold extend; simpl. by rewrite !app_assoc. Qed.

Lemma log_extend l msg fs w :
  log l msg fs w = (Returned (), extend w [mkEntry l msg fs] []).
Proof. unfold log, extend. by rewrite app_nil_r. Qed.

Lemma send_extend q w : send q w = (Returned (), extend w [] [q]).
Proof. unfold send, extend. by rewrite app_nil_r. Qed.

(** ** The row loops *)

Lemma scanLine_length_aux values value line :
  (length (foldl (λ (vars : string * list string) (col : RawBytes),
            let '(value, line) := vars in
            match col with
            | None => ("NULL", line)
            | Some bytes => (bytes, (line ++ [bytes])%list)
            end) (value, line) values).2
   ≤ length line + length values)%nat.
Proof.
  revert value line. induction values as [|col values IH]; intros value line.
  - simpl. lia.
  - simpl. destruct col as [bytes|].
    + etransitivity; [apply IH|]. rewrite length_app. simpl. lia.
    + etransitivity; [apply IH|]. lia.
Qed.

Lemma scanLine_length values : (length (scanLine values) ≤ length values)%nat.
Proof. unfold scanLine. apply (scanLine_length_aux values EmptyString []). Qed.

Lemma scanRows_lengths ncols tbl lines lines' :
  scanRows ncols tbl lines = (lines', None) →
  Forall (λ l, (length l ≤ ncols)%nat) lines →
  Forall (λ l, (length l ≤ ncols)%nat) lines'.
Proof.
  revert lines. induction tbl as [|row tbl IH]; intros lines Hscan Hall.
  - simpl in Hscan. by inversion Hscan; subst.
  - simpl in Hscan. unfold sql.Scan in Hscan.
    destruct (length row =? ncols)%nat eqn:Hlen; [|discriminate].
    apply Nat.eqb_eq in Hlen. apply IH in Hscan; [done|].
    apply Forall_app. split; [done|]. constructor; [|constructor].
    rewrite <- Hlen. apply scanLine_length.
Qed.

Lemma setColumns_in_range columns value i obj :
  (i + length value ≤ length columns)%nat →
  is_Some (setColumns columns i value obj).
Proof.
  revert i obj. induction value as [|v value IH]; intros i obj Hlen; simpl.
  - by eexists.
  - simpl in Hlen.
    destruct (columns !! i) as [name|] eqn:Hi.
    + apply IH. lia.
    + apply lookup_ge_None in Hi. lia.
Qed.

(** The encoding loop neither fails nor logs when every line fits the
    columns, and it leaves a record under the key of every line. *)
Lemma encodeLines_returns columns queryid lines :
  Forall (λ l, (length l ≤ length columns)%nat) lines →
  ∀ j obj rec last,
  ∃ res lastIndex,
    (∀ w, encodeLines columns queryid j lines obj rec last w
          = (Returned (Some res, lastIndex, None), w))
    ∧ (∀ key, is_Some (rec !! key) → is_Some (res !! key))
    ∧ (∀ k, (k < length lines)%nat → is_Some (res !! recordKey queryid (j + k)))
    ∧ (lines = [] → res = rec ∧ lastIndex = last)
    ∧ (lines ≠ [] →
       lastIndex = recordKey queryid (j + length lines - 1)).
Proof.
  induction 1 as [|value lines Hvalue Hlines IH]; intros j obj rec last.
  - exists rec, last. repeat split; try done.
    simpl. intros k Hk. lia.
  - simpl.
    destruct (setColumns_in_range columns value 0 obj ltac:(simpl; lia))
      as [obj' Hobj].
    rewrite Hobj. unfold json.Marshal.
    destruct (IH (S j) obj'
                 (<[recordKey queryid j := (json.Marshal obj').1]> rec)
                 (recordKey queryid j))
      as (res & lastIndex & Hrun & Hkeep & Hkeys & Hnil & Hlast).
    exists res, lastIndex. split; [|split; [|split; [|split]]].
    + intros w. apply Hrun.
    + intros key Hkey. apply Hkeep.
      destruct (decide (recordKey queryid j = key)) as [->|Hne].
      * rewrite lookup_insert_eq. by eexists.
      * by rewrite lookup_insert_ne.
    + intros [|k] Hk.
      * rewrite Nat.add_0_r. apply Hkeep. rewrite lookup_insert_eq. by eexists.
      * replace (j + S k)%nat with (S j + k)%nat by lia.
        apply Hkeys. simpl in Hk. lia.
    + done.
    + intros _. destruct lines as [|l lines'].
      * destruct (Hnil eq_refl) as [_ ->]. f_equal. simpl. lia.
      * rewrite Hlast; [|done]. f_equal. simpl. lia.
Qed.

Lemma Itoa_inj a b :
  0 < a → 0 < b → strconv.Itoa a = strconv.Itoa b → a = b.
Proof.
  intros Ha Hb Heq. unfold strconv.Itoa in Heq.
  apply (f_equal NilZero.int_of_string) in Heq.
  destruct a as [|p|p]; [lia| |lia]. destruct b as [|q|q]; [lia| |lia].
  assert (Hnil : ∀ r, Z.to_int (Z.pos r) ≠ Decimal.Pos Decimal.Nil).
  { intros r [= H]. by apply DecimalPos.Unsigned.to_uint_nonnil in H. }
  rewrite !NilZero.isi in Heq by (apply Hnil || discriminate).
  apply DecimalZ.to_int_inj. congruence.
Qed.

(** Different rows have different keys. *)
Lemma recordKey_inj queryid j k :
  recordKey queryid j = recordKey queryid k → j = k.
Proof.
  unfold recordKey. intros Heq.
  apply (inj (String.append queryid)) in Heq.
  apply (inj (String.append "_record")) in Heq.
  apply Itoa_inj in Heq; lia.
Qed.

(** The encoding loop adds one record for every line. *)
Lemma encodeLines_size columns queryid lines :
  Forall (λ l, (length l ≤ length columns)%nat) lines →
  ∀ j obj rec last res lastIndex w,
    (∀ k, rec !! recordKey queryid (j + k) = None) →
    encodeLines columns queryid j lines obj rec last w
    = (Returned (Some res, lastIndex, None), w) →
    size res = (size rec + length lines)%nat.
Proof.
  induction 1 as [|value lines Hvalue Hlines IH];
    intros j obj rec last res lastIndex w Hfresh Hrun.
  - simpl in Hrun. injection Hrun as <- _. simpl. lia.
  - simpl in Hrun.
    destruct (setColumns_in_range columns value 0 obj ltac:(simpl; lia))
      as [obj' Hobj].
    rewrite Hobj in Hrun. unfold json.Marshal in Hrun.
    apply IH in Hrun.
    + rewrite Hrun, map_size_insert_None.
      * simpl. lia.
      * specialize (Hfresh O). by rewrite Nat.add_0_r in Hfresh.
    + intros k. rewrite lookup_insert_ne.
      * specialize (Hfresh (S k)).
        by replace (S j + k)%nat with (j + S k)%nat by lia.
      * intros Heq. apply recordKey_inj in Heq. lia.
Qed.

Lemma scanRows_count ncols tbl lines lines' :
  scanRows ncols tbl lines = (lines', None) →
  length lines' = (length lines + length tbl)%nat.
Proof.
  revert lines. induction tbl as [|row tbl IH]; intros lines Hscan.
  - simpl in Hscan. inversion Hscan; subst. simpl. lia.
  - simpl in Hscan. unfold sql.Scan in Hscan.
    destruct (length row =? ncols)%nat; [|discriminate].
    apply IH in Hscan. rewrite Hscan, length_app. simpl. lia.
Qed.

(** ** [ExecuteQueryandFetchRecords] *)

(** On a connected client the function returns on every answer of the
    database, always with a [nil] error. A failed fetch is logged and
    gives a [nil] map; otherwise nothing is logged and every row has its
    record. The world changes only by the log and by the query sent. *)
Lemma ExecuteQueryandFetchRecords_returns c db query queryid :
  client c = Some db →
  ∃ res lastIndex es,
    (∀ w, ExecuteQueryandFetchRecords c query queryid w
          = (Returned (res, lastIndex, None), extend w es [query]))
    ∧ (fetchFails (answer db query) = true →
       res = None ∧ lastIndex = EmptyString ∧ ∃ e, es = [e] ∧ isError e)
    ∧ (fetchFails (answer db query) = false →
       es = [] ∧ ∃ m, res = Some m
       ∧ (∀ k, (k < rowCount (answer db query))%nat →
               is_Some (m !! recordKey queryid k))
       ∧ (rowCount (answer db query) = O → m = ∅)
       ∧ (rowCount (answer db query) ≠ O →
          lastIndex = recordKey queryid (rowCount (answer db query) - 1))
       ∧ size m = rowCount (answer db query)).
Proof.
  intros Hc. unfold ExecuteQueryandFetchRecords, fetchFails, rowCount.
  rewrite Hc.
  destruct (answer db query) as [err|rows].
  { eexists None, EmptyString, _. split; [|split].
    - intros w. exec. unfold extend. simpl. reflexivity.
    - intros _. repeat split. eexists. split; [reflexivity|done].
    - discriminate. }
  destruct (Columns rows) as [err|columns].
  { eexists None, EmptyString, _. split; [|split].
    - intros w. exec. unfold extend. simpl. reflexivity.
    - intros _. repeat split. eexists. split; [reflexivity|done].
    - discriminate. }
  destruct (scanRows (length columns) (table rows) []) as [lines [err|]] eqn:Hscan.
  { eexists None, EmptyString, _. split; [|split].
    - intros w. exec. unfold extend. simpl. reflexivity.
    - intros _. repeat split. eexists. split; [reflexivity|done].
    - discriminate. }
  destruct (ending rows) as [|err|err].
  - pose proof (scanRows_lengths _ _ _ _ Hscan (Forall_nil_2 _)) as Hfit.
    pose proof (scanRows_count _ _ _ _ Hscan) as Hcount. simpl in Hcount.
    destruct (encodeLines_returns columns queryid lines Hfit O ∅ ∅ EmptyString)
      as (res & lastIndex & Hrun & _ & Hkeys & Hnil & Hlast).
    exists (Some res), lastIndex, []. split; [|split].
    + intros w. exec. rewrite Hrun. unfold extend. simpl.
      by rewrite app_nil_r.
    + discriminate.
    + intros _. split; [done|]. exists res. split; [done|].
      rewrite <- Hcount. split; [|split; [|split]].
      * intros k Hk. apply (Hkeys k Hk).
      * intros H0. destruct lines; [|discriminate]. by destruct (Hnil eq_refl).
      * intros Hne. apply Hlast. by destruct lines.
      * rewrite (encodeLines_size columns queryid lines Hfit O ∅ ∅ EmptyString
                   res lastIndex (mkWorld ∅ [] []) (λ k, lookup_empty _)
                   (Hrun _)).
        by rewrite map_size_empty.
  - eexists None, EmptyString, _. split; [|split].
    + intros w. exec. unfold extend. simpl. reflexivity.
    + intros _. repeat split. eexists. split; [reflexivity|done].
    + discriminate.
  - eexists None, EmptyString, _. split; [|split].
    + intros w. exec. unfold extend. simpl. reflexivity.
    + intros _. repeat split. eexists. split; [reflexivity|done].
    + discriminate.
Qed.

Lemma copyInto_empty res : copyInto res ∅ = default ∅ res.
Proof. unfold copyInto. apply (right_id_L ∅ (∪)). Qed.

Lemma supported_not_blank t : supported t = true → GoStrings.blank t = false.
Proof.
  unfold supported, is_TIMESTAMP, is_NUMBER. intros H.
  apply orb_true_iff in H as [H|H]; apply String.eqb_eq in H; by subst.
Qed.

Lemma size_zero_default (res : option (gmap string string)) :
  (len res =? 0)%nat = true → default ∅ res = ∅.
Proof.
  unfold len. intros H. apply Nat.eqb_eq in H. by apply map_size_empty_inv.
Qed.

(** ** Substitution in query texts *)

Section Replace.
Import GoStrings.

Lemma append_assoc (a b c : string) : (a +:+ b) +:+ c = a +:+ b +:+ c.
Proof.
  induction a as [|x a IH]; [done|].
  change (String x ((a +:+ b) +:+ c) = String x (a +:+ b +:+ c)).
  by rewrite IH.
Qed.

Lemma prefixb_refl_app old r : prefixb old (old +:+ r) = true.
Proof.
  induction old as [|a old IH]; simpl; [done|].
  by rewrite Ascii.eqb_refl.
Qed.

Lemma replaceFrom_skip old new x r :
  replaceFrom old new (String.length x) (x +:+ r) = replaceFrom old new O r.
Proof. induction x as [|a x IH]; simpl; [by destruct r|done]. Qed.

Lemma replaceFrom_hit old new r :
  old ≠ EmptyString →
  replaceFrom old new O (old +:+ r) = new +:+ replaceFrom old new O r.
Proof.
  intros Hne. destruct old as [|a old]; [done|].
  change (String a old +:+ r) with (String a (old +:+ r)).
  cbn [replaceFrom].
  change (String a (old +:+ r)) with (String a old +:+ r).
  rewrite prefixb_refl_app. f_equal. cbn [String.length Nat.pred].
  apply replaceFrom_skip.
Qed.

Lemma replaceFrom_pass old new p rest :
  clear old p rest = true →
  replaceFrom old new O (p +:+ rest) = p +:+ replaceFrom old new O rest.
Proof.
  induction p as [|a p IH]; intros Hclear; [done|].
  cbn [clear] in Hclear. apply andb_true_iff in Hclear as [Hhere Hlater].
  apply negb_true_iff in Hhere.
  change (String a p +:+ rest) with (String a (p +:+ rest)) in *.
  change (String a p +:+ replaceFrom old new O rest)
    with (String a (p +:+ replaceFrom old new O rest)).
  cbn [replaceFrom]. rewrite Hhere. f_equal. by apply IH.
Qed.

Lemma stops_tail a old rest :
  stops (String a old) rest = true → stops old rest = true.
Proof.
  destruct rest as [|c rest]; [done|]. simpl.
  intros H. apply negb_true_iff in H. apply orb_false_iff in H as [_ H].
  by rewrite H.
Qed.

(** An occurrence that begins inside [x] also ends inside [x] when the
    text after [x] begins with a byte foreign to [old]. *)
Lemma prefixb_before_stop old x rest :
  stops old rest = true →
  prefixb old (x +:+ rest) = true →
  prefixb old x = true.
Proof.
  revert x. induction old as [|a old IH]; intros x Hstop Hpre; [by destruct x|].
  destruct x as [|b x].
  - exfalso. destruct rest as [|c rest]; [discriminate|].
    simpl in Hpre, Hstop.
    destruct (Ascii.eqb a c); [discriminate|discriminate].
  - simpl in Hpre |- *. destruct (Ascii.eqb a b); [|discriminate].
    apply IH; [|done]. by apply stops_tail in Hstop.
Qed.

Lemma clear_not_contains old p rest :
  Contains p old = false →
  stops old rest = true →
  clear old p rest = true.
Proof.
  intros Hnot Hstop. induction p as [|a p IH]; [done|].
  cbn [Contains] in Hnot. apply orb_false_iff in Hnot as [Hhere Hlater].
  cbn [clear]. apply andb_true_iff. split; [|by apply IH].
  apply negb_true_iff.
  destruct (prefixb old (String a p +:+ rest)) eqn:Hpre; [|done].
  apply (prefixb_before_stop _ _ _ Hstop) in Hpre. congruence.
Qed.

End Replace.

Ltac pass p :=
  rewrite (replaceFrom_pass _ _ p); [f_equal | reflexivity].
Ltac hit :=
  rewrite replaceFrom_hit; [f_equal | discriminate].

Lemma substitute_placeholders Q j q v col :
  j = " and " ∨ j = " where " →
  q = EmptyString ∨ q = json.dquote →
  GoStrings.Contains Q "STATEVALUE" = false →
  GoStrings.Contains Q "INDEXCOLUMNNAME" = false →
  GoStrings.Contains v "INDEXCOLUMNNAME" = false →
  GoStrings.Replace
    (GoStrings.Replace
       (Q +:+ j +:+ "INDEXCOLUMNNAME" +:+ " > " +:+ q +:+ "STATEVALUE" +:+ q
        +:+ " order by " +:+ "INDEXCOLUMNNAME" +:+ " asc;")
       "STATEVALUE" v)
    "INDEXCOLUMNNAME" col
  = Q +:+ j +:+ col +:+ " > " +:+ q +:+ v +:+ q
    +:+ " order by " +:+ col +:+ " asc;".
Proof.
  intros Hj Hq HQ1 HQ2 Hv.
  assert (Hfirst :
    GoStrings.Replace
      (Q +:+ j +:+ "INDEXCOLUMNNAME" +:+ " > " +:+ q +:+ "STATEVALUE" +:+ q
       +:+ " order by " +:+ "INDEXCOLUMNNAME" +:+ " asc;") "STATEVALUE" v
    = Q +:+ j +:+ "INDEXCOLUMNNAME" +:+ " > " +:+ q +:+ v +:+ q
      +:+ " order by " +:+ "INDEXCOLUMNNAME" +:+ " asc;").
  { unfold GoStrings.Replace.
    destruct (String.eqb "STATEVALUE" v) eqn:Heq.
    - apply String.eqb_eq in Heq. by subst v.
    - rewrite replaceFrom_pass.
      + f_equal. destruct Hj as [-> | ->], Hq as [-> | ->]; reflexivity.
      + apply clear_not_contains; [done|].
        destruct Hj as [-> | ->]; reflexivity. }
  rewrite Hfirst. unfold GoStrings.Replace.
  destruct (String.eqb "INDEXCOLUMNNAME" col) eqn:Heq.
  { apply String.eqb_eq in Heq. by subst col. }
  rewrite replaceFrom_pass.
  2:{ apply clear_not_contains; [done|].
      destruct Hj as [-> | ->]; reflexivity. }
  f_equal.
  assert (Hlast : ∀ j, j = " and " ∨ j = " where " →
    GoStrings.replaceFrom "INDEXCOLUMNNAME" col 0
      (v +:+ q +:+ " order by " +:+ "INDEXCOLUMNNAME" +:+ " asc;")
    = v +:+ q +:+ " order by " +:+ col +:+ " asc;").
  { intros _ _. rewrite (replaceFrom_pass _ _ v).
    - f_equal. destruct Hq as [-> | ->]; reflexivity.
    - apply clear_not_contains; [done|].
      destruct Hq as [-> | ->]; reflexivity. }
  specialize (Hlast j Hj).
  destruct Hj as [-> | ->].
  - pass " and ". hit. pass " > ".
    destruct Hq as [-> | ->]; [pass EmptyString|pass json.dquote]; exact Hlast.
  - pass " where ". hit. pass " > ".
    destruct Hq as [-> | ->]; [pass EmptyString|pass json.dquote]; exact Hlast.
Qed.

Lemma rewritten_incremental dbquery v :
  supported (IndexColumnType dbquery) = true →
  GoStrings.Contains (Query dbquery) "STATEVALUE" = false →
  GoStrings.Contains (Query dbquery) "INDEXCOLUMNNAME" = false →
  GoStrings.Contains v "INDEXCOLUMNNAME" = false →
  rewritten dbquery v = incremental dbquery v.
Proof.
  intros Hsup HQ1 HQ2 Hv.
  unfold rewritten, incremental, appended, joiner, literal.
  unfold supported in Hsup.
  destruct (is_TIMESTAMP (IndexColumnType dbquery)) eqn:Ht;
    destruct (GoStrings.Contains (Query dbquery) "where").
  - rewrite !append_assoc.
    apply (substitute_placeholders _ " and " json.dquote); auto.
  - rewrite !append_assoc.
    apply (substitute_placeholders _ " where " json.dquote); auto.
  - apply (substitute_placeholders _ " and " EmptyString); auto.
  - apply (substitute_placeholders _ " where " EmptyString); auto.
Qed.

(** ** The paths of [getRecords] *)

Lemma setQuery_same dbquery : setQuery dbquery (Query dbquery) = dbquery.
Proof. by destruct dbquery. Qed.

(** An empty query text: one error is logged and the call returns. *)
Lemma getRecords_blank_query c dbquery w :
  GoStrings.blank (Query dbquery) = true →
  getRecords c dbquery w
  = (Returned (dbquery, (None, None)),
     extend w [mkEntry ErrorLevel
                 "Query is empty, check collector config file for:"
                 [zapString "queryId" (QueryId dbquery)]] []).
Proof.
  intros Hq. unfold getRecords. rewrite Hq. exec. unfold extend.
  by rewrite app_nil_r.
Qed.

(** A cursor column with a missing or unsupported type: two errors are
    logged and the call returns. *)
Lemma getRecords_malformed c dbquery w :
  GoStrings.blank (Query dbquery) = false →
  malformed dbquery = true →
  skippedPerTick c dbquery w.
Proof.
  intros Hq Hbad. unfold malformed in Hbad.
  apply andb_true_iff in Hbad as [Hcol Hbad]. apply negb_true_iff in Hcol.
  unfold skippedPerTick, getRecords. rewrite Hq, Hcol. simpl.
  destruct (GoStrings.blank (IndexColumnType dbquery)) eqn:Htype.
  - eexists [_; _]. split; [done|]. split; last first.
    + exec. unfold extend. simpl. rewrite <- app_assoc, app_nil_r.
      reflexivity.
    + by repeat constructor.
  - simpl in Hbad. apply negb_true_iff in Hbad. unfold supported in Hbad.
    apply orb_false_iff in Hbad as [-> ->]. simpl.
    eexists [_; _]. split; [done|]. split; last first.
    + exec. unfold extend. simpl. rewrite <- app_assoc, app_nil_r.
      reflexivity.
    + by repeat constructor.
Qed.

(** A query without a cursor column, given what the fetch of its text
    returns. *)
Lemma getRecords_snapshot c dbquery res lastIndex es0 :
  snapshotQuery dbquery = true →
  (∀ w0, ExecuteQueryandFetchRecords c (Query dbquery) (QueryId dbquery) w0
         = (Returned (res, lastIndex, None), extend w0 es0 [Query dbquery])) →
  ∃ e1 e2, ∀ w,
    getRecords c dbquery w
    = (Returned (dbquery, (Some (default ∅ res), None)),
       extend w (e1 :: es0 ++ [e2]) [Query dbquery]).
Proof.
  intros Hsnap Hrun. unfold snapshotQuery in Hsnap.
  apply andb_true_iff in Hsnap as [Hq Hcol]. apply negb_true_iff in Hq.
  unfold getRecords, fetchRecords. rewrite Hq, Hcol.
  destruct (len res =? 0)%nat eqn:Hlen.
  - eexists _, _. intros w. exec. rewrite Hrun. simpl. rewrite Hlen. simpl.
    rewrite copyInto_empty. unfold extend. simpl.
    rewrite <- !app_assoc. reflexivity.
  - eexists _, _. intros w. exec. rewrite Hrun. simpl. rewrite Hlen. simpl.
    rewrite copyInto_empty. unfold extend. simpl.
    rewrite <- !app_assoc. reflexivity.
Qed.

(** The four ways a query with a cursor column ends, by the result
    [(res, lastIndex)] of the fetch of the rewritten text: no record; a
    last record that cannot be decoded; a last record without the cursor
    field, where the type assertion panics; a last record with the cursor
    field, whose value is saved as the checkpoint. *)
Lemma getRecords_cursor c dbquery w res lastIndex es0 :
  cursorQuery dbquery = true →
  let text := rewritten dbquery (checkpoint dbquery w) in
  let dbquery' := setQuery dbquery text in
  (∀ w0, ExecuteQueryandFetchRecords c text (QueryId dbquery) w0
         = (Returned (res, lastIndex, None), extend w0 es0 [text])) →
  (len res = O ∧ ∃ e es,
     getRecords c dbquery w
     = (Returned (dbquery', (Some ∅, None)), extend w (e :: es0 ++ es) [text]))
  ∨ (len res ≠ O ∧ json.Unmarshal (lastRecord res lastIndex) = None
     ∧ ∃ e es,
     getRecords c dbquery w
     = (Returned (dbquery', (None, None)), extend w (e :: es0 ++ es) [text]))
  ∨ (len res ≠ O ∧ ∃ val,
     json.Unmarshal (lastRecord res lastIndex) = Some val
     ∧ val !! IndexColumnName dbquery = None
     ∧ ∃ e es,
     getRecords c dbquery w = (Panicked, extend w (e :: es0 ++ es) [text]))
  ∨ (len res ≠ O ∧ ∃ val v,
     json.Unmarshal (lastRecord res lastIndex) = Some val
     ∧ val !! IndexColumnName dbquery = Some v
     ∧ ∃ e es,
     getRecords c dbquery w
     = (Returned (dbquery', (Some (default ∅ res), None)),
        mkWorld (<[QueryId dbquery := v]> (states w))
                (logged w ++ e :: es0 ++ es) (sent w ++ [text]))).
Proof.
  intros Hcur text dbquery' Hrun.
  unfold cursorQuery in Hcur.
  apply andb_true_iff in Hcur as [Hcur Hsup].
  apply andb_true_iff in Hcur as [Hq Hcol].
  apply negb_true_iff in Hq, Hcol.
  pose proof (supported_not_blank _ Hsup) as Htype.
  assert (Hstep : getRecords c dbquery w
    = fetchRecords c (setQuery dbquery (appended dbquery)) ∅
        (extend w [mkEntry InfoLevel
           "IndexColumnName specified, fetching records incrementally for:"
           [zapString "queryId" (QueryId dbquery)]] [])).
  { unfold getRecords. rewrite Hq, Hcol, Htype. simpl.
    unfold supported in Hsup. unfold appended.
    destruct (is_TIMESTAMP (IndexColumnType dbquery)) eqn:Ht; simpl.
    - exec. unfold extend. rewrite app_nil_r.
      by destruct (GoStrings.Contains (Query dbquery) "where").
    - simpl in Hsup. rewrite Hsup. simpl. exec. unfold extend.
      rewrite app_nil_r.
      by destruct (GoStrings.Contains (Query dbquery) "where"). }
  rewrite Hstep. unfold fetchRecords. simpl. rewrite Hcol.
  unfold GetState. exec.
  change (GoStrings.Replace
            (GoStrings.Replace (appended dbquery) "STATEVALUE"
               (default (InitialIndexColumnStartValue dbquery)
                  (states w !! QueryId dbquery)))
            "INDEXCOLUMNNAME" (IndexColumnName dbquery)) with text.
  rewrite Hrun. simpl. rewrite copyInto_empty.
  fold (lastRecord res lastIndex).
  destruct (len res =? 0)%nat eqn:Hlen.
  { left. split; [by apply Nat.eqb_eq|].
    rewrite (size_zero_default _ Hlen).
    eexists _, _. unfold extend. simpl. rewrite <- !app_assoc. reflexivity. }
  right. apply Nat.eqb_neq in Hlen.
  destruct (json.Unmarshal (lastRecord res lastIndex)) as [val|] eqn:Hdec.
  - right.
    destruct (val !! IndexColumnName dbquery) as [v|] eqn:Hv.
    + right. split; [done|]. exists val, v. repeat split; try done.
      unfold SaveState. simpl. eexists _, _. rewrite <- !app_assoc.
      reflexivity.
    + left. split; [done|]. exists val. repeat split; try done.
      eexists _, _. unfold extend. simpl. rewrite <- !app_assoc. reflexivity.
  - left. repeat split; try done.
    eexists _, _. unfold extend. simpl. rewrite <- !app_assoc. reflexivity.
Qed.

(** Every QuerySpec with a query text is a snapshot query, a query with a
    well-formed cursor, or malformed. *)
Lemma query_kinds dbquery :
  GoStrings.blank (Query dbquery) = false →
  snapshotQuery dbquery = true ∨ cursorQuery dbquery = true
  ∨ malformed dbquery = true.
Proof.
  intros Hq. unfold snapshotQuery, cursorQuery, malformed. rewrite Hq. simpl.
  destruct (GoStrings.blank (IndexColumnName dbquery)); simpl; [by left|].
  right. destruct (supported (IndexColumnType dbquery)) eqn:Hsup; simpl.
  - by left.
  - right. apply orb_true_r.
Qed.

(** ** Records of plain strings are decoded as they were encoded *)

Lemma chr_byte c : utf8.chr (utf8.byte c) = String c EmptyString.
Proof. unfold utf8.chr, utf8.byte. by rewrite ascii_N_embedding. Qed.

Lemma plainByte_tests c :
  plainByte c = true →
  let b := utf8.byte c in
  ((b <? 128) = true ∧ (b =? 34) = false ∧ (b =? 92) = false
   ∧ (b =? 10) = false ∧ (b =? 13) = false ∧ (b =? 9) = false
   ∧ (b <? 32) = false ∧ (b =? 60) = false ∧ (b =? 62) = false
   ∧ (b =? 38) = false)%N.
Proof.
  unfold plainByte. cbv zeta. intros H. set (b := utf8.byte c) in *.
  repeat (apply andb_true_iff in H as [H ?]).
  repeat match goal with
         | H : negb _ = true |- _ => apply negb_true_iff, N.eqb_neq in H
         end.
  apply N.leb_le in H.
  match goal with H : (_ <? _)%N = true |- _ => apply N.ltb_lt in H end.
  repeat split;
    first [apply N.ltb_lt | apply N.ltb_ge | apply N.eqb_neq]; lia.
Qed.

Lemma escapeFrom_plain s : plain s = true → json.escapeFrom O s = s.
Proof.
  induction s as [|c s IH]; intros Hs; [done|].
  cbn [plain] in Hs. apply andb_true_iff in Hs as [Hc Hs].
  destruct (plainByte_tests c Hc)
    as (H128 & H34 & H92 & H10 & H13 & H9 & H32 & H60 & H62 & H38).
  cbn [json.escapeFrom]. cbv zeta.
  rewrite H128, H34, H92, H10, H13, H9, H32, H60, H62, H38. cbn [orb].
  rewrite chr_byte, (IH Hs). reflexivity.
Qed.

Lemma quote_plain s :
  plain s = true → json.quote s = json.dquote +:+ s +:+ json.dquote.
Proof. intros Hs. unfold json.quote. by rewrite escapeFrom_plain. Qed.

Lemma unquoteFrom_plain s rest :
  plain s = true →
  json.unquoteFrom O (s +:+ json.dquote +:+ rest) = Some (s, rest).
Proof.
  induction s as [|c s IH]; intros Hs; [done|].
  cbn [plain] in Hs. apply andb_true_iff in Hs as [Hc Hs].
  destruct (plainByte_tests c Hc)
    as (H128 & H34 & H92 & H10 & H13 & H9 & H32 & H60 & H62 & H38).
  change (String c s +:+ json.dquote +:+ rest)
    with (String c (s +:+ json.dquote +:+ rest)).
  cbn [json.unquoteFrom]. cbv zeta.
  rewrite H34, H92, H32, H128, (IH Hs). unfold json.prepend.
  by rewrite chr_byte.
Qed.

Lemma member_text k v rest :
  plain k = true → plain v = true →
  json.member (k, v) +:+ rest
  = String "034" (k +:+ String "034" (String ":" (String "034"
      (v +:+ String "034" rest)))).
Proof.
  intros Hk Hv. unfold json.member. simpl fst. simpl snd.
  rewrite !quote_plain by done. rewrite !append_assoc. reflexivity.
Qed.

Lemma members_step fuel k v rest acc :
  plain k = true → plain v = true →
  json.members (S fuel)
    (String "034" (k +:+ String "034" (String ":" (String "034"
       (v +:+ String "034" rest))))) acc
  = match rest with
    | String d s3 =>
        if Ascii.eqb d "," then json.members fuel s3 (<[k:=v]> acc)
        else if (Ascii.eqb d "}" && String.eqb s3 EmptyString)%bool
        then Some (<[k:=v]> acc)
        else None
    | EmptyString => None
    end.
Proof.
  intros Hk Hv. cbn [json.members].
  change (Ascii.eqb "034" "034") with true. cbv iota.
  change (String "034" (String ":" (String "034" (v +:+ String "034" rest))))
    with (json.dquote +:+ String ":" (String "034" (v +:+ String "034" rest))).
  rewrite (unquoteFrom_plain k _ Hk).
  change (Ascii.eqb ":" ":" && Ascii.eqb "034" "034")%bool with true. cbv iota.
  change (String "034" rest) with (json.dquote +:+ rest).
  rewrite (unquoteFrom_plain v _ Hv). reflexivity.
Qed.

Lemma members_join l :
  Forall plainPair l →
  ∀ fuel acc,
    l ≠ [] → (length l ≤ fuel)%nat →
    json.members fuel (json.join "," (json.member <$> l) +:+ "}") acc
    = Some (foldl (λ m kv, <[kv.1 := kv.2]> m) acc l).
Proof.
  induction 1 as [|[k v] l [Hk Hv] Hall IH]; intros fuel acc Hne Hfuel;
    [done|].
  destruct fuel as [|fuel]; [simpl in Hfuel; lia|].
  simpl in Hk, Hv. destruct l as [|kv' l].
  - cbn [fmap list_fmap json.join].
    rewrite (member_text k v _ Hk Hv), (members_step _ k v _ acc Hk Hv).
    reflexivity.
  - change (json.join "," (json.member <$> (k, v) :: kv' :: l))
      with (json.member (k, v) +:+ "," +:+
            json.join "," (json.member <$> kv' :: l)).
    rewrite !append_assoc.
    rewrite (member_text k v _ Hk Hv), (members_step _ k v _ acc Hk Hv).
    change ("," +:+ ?x) with (String "," x).
    change (Ascii.eqb "," ",") with true. cbv iota.
    rewrite IH; [done|done|]. simpl in Hfuel |- *. lia.
Qed.

Lemma foldl_insert_union (l : list (string * string)) :
  NoDup l.*1 →
  ∀ acc : gmap string string,
    foldl (λ m kv, <[kv.1 := kv.2]> m) acc l = list_to_map l ∪ acc.
Proof.
  induction l as [|[k v] l IH]; intros Hnd acc.
  - simpl. by rewrite (left_id_L ∅ (∪)).
  - rewrite fmap_cons in Hnd. apply NoDup_cons in Hnd as [Hk Hnd].
    cbn [foldl list_to_map foldr]. simpl. rewrite (IH Hnd).
    rewrite <- insert_union_l. symmetry. apply insert_union_r.
    by apply not_elem_of_list_to_map_1.
Qed.

Lemma string_length_app (a b : string) :
  String.length (a +:+ b) = (String.length a + String.length b)%nat.
Proof.
  induction a as [|c a IH]; [done|].
  change (String c a +:+ b) with (String c (a +:+ b)). simpl. by rewrite IH.
Qed.

Lemma join_members_length (l : list (string * string)) rest :
  (length l ≤ String.length (json.join "," (json.member <$> l) +:+ rest))%nat.
Proof.
  revert rest. induction l as [|kv l IH]; intros rest; [simpl; lia|].
  assert (Hmember : ∀ r, (1 ≤ String.length (json.member kv +:+ r))%nat).
  { intros r. change (json.member kv +:+ r)
      with (String "034" ((json.escapeFrom 0 kv.1 +:+ json.dquote) +:+
              ":" +:+ json.quote kv.2) +:+ r).
    simpl. lia. }
  destruct l as [|kv' l].
  - cbn [fmap list_fmap json.join length]. apply Hmember.
  - change (json.join "," (json.member <$> kv :: kv' :: l))
      with (json.member kv +:+ "," +:+
            json.join "," (json.member <$> kv' :: l)).
    rewrite !append_assoc, string_length_app.
    specialize (IH rest). specialize (Hmember EmptyString).
    rewrite string_length_app in Hmember. simpl in Hmember.
    change ("," +:+ ?x) with (String "," x).
    cbn [String.length]. cbn [length] in IH |- *. lia.
Qed.

(** [json.Unmarshal] gives back the map that [json.Marshal] encoded when
    its keys and values are plain. *)
Lemma Unmarshal_Marshal (m : gmap string string) :
  (∀ k v, m !! k = Some v → plain k = true ∧ plain v = true) →
  json.Unmarshal (json.Marshal m).1 = Some m.
Proof.
  intros Hplain. unfold json.Marshal. cbn [fst].
  set (l := merge_sort json.key_le (map_to_list m)).
  assert (Hperm : l ≡ₚ map_to_list m) by apply merge_sort_Permutation.
  assert (Hall : Forall plainPair l).
  { rewrite Hperm. apply Forall_forall. intros [k v] Hkv.
    apply elem_of_map_to_list in Hkv. by apply Hplain. }
  assert (Hnd : NoDup l.*1).
  { rewrite Hperm. apply NoDup_fst_map_to_list. }
  change ("{" +:+ ?x) with (String "{" x). cbn [json.Unmarshal].
  change (Ascii.eqb "{" "{") with true. cbv iota.
  destruct l as [|kv l'] eqn:Hl.
  - symmetry in Hperm. apply Permutation_nil_r in Hperm.
    apply map_to_list_empty_iff in Hperm. by subst m.
  - assert (Hnot : String.eqb
                     (json.join "," (json.member <$> kv :: l') +:+ "}") "}"
                   = false).
    { destruct l' as [|kv' l''].
      - cbn [fmap list_fmap json.join].
        destruct kv as [k v]. inversion Hall as [|? ? [Hk Hv] _]; subst.
        by rewrite (member_text k v _ Hk Hv).
      - change (json.join "," (json.member <$> kv :: kv' :: l''))
          with (json.member kv +:+ "," +:+
                json.join "," (json.member <$> kv' :: l'')).
        rewrite !append_assoc.
        destruct kv as [k v]. inversion Hall as [|? ? [Hk Hv] _]; subst.
        by rewrite (member_text k v _ Hk Hv). }
    rewrite Hnot.
    rewrite (members_join _ Hall); [|done|apply join_members_length].
    rewrite (foldl_insert_union _ Hnd), (right_id_L ∅ (∪)).
    f_equal. rewrite (list_to_map_proper _ _ Hnd Hperm).
    apply list_to_map_to_list.
Qed.

(** ** Rows without NULL *)

Lemma scanLine_full (values : list string) : scanLine (Some <$> values) = values.
Proof.
  unfold scanLine.
  assert (H : ∀ x (line : list string),
    (foldl (λ (vars : string * list string) (col : RawBytes),
              let '(value, line) := vars in
              match col with
              | None => ("NULL", line)
              | Some bytes => (bytes, (line ++ [bytes])%list)
              end) (x, line) (Some <$> values)).2 = (line ++ values)%list).
  { induction values as [|b values IH]; intros x line; simpl.
    - by rewrite app_nil_r.
    - rewrite IH, <- app_assoc. reflexivity. }
  apply (H EmptyString []).
Qed.

Lemma scanRows_full ncols tbl lines :
  Forall (λ row, length row = ncols) tbl →
  scanRows ncols tbl lines = ((lines ++ (scanLine <$> tbl))%list, None).
Proof.
  intros Hall. revert lines.
  induction Hall as [|row tbl Hrow Hall IH]; intros lines; simpl.
  - by rewrite app_nil_r.
  - unfold sql.Scan. rewrite Hrow, Nat.eqb_refl, IH, <- app_assoc.
    reflexivity.
Qed.

(** The fields of the object are columns, before and after a row is
    written into it. *)
Lemma setColumns_keys columns value :
  ∀ i obj obj',
    setColumns columns i value obj = Some obj' →
    (∀ k, is_Some (obj !! k) → k ∈ columns) →
    ∀ k, is_Some (obj' !! k) → k ∈ columns.
Proof.
  induction value as [|x value IH]; intros i obj obj' Hset Hkeys k Hk.
  - simpl in Hset. injection Hset as <-. by apply Hkeys.
  - simpl in Hset. destruct (columns !! i) as [name|] eqn:Hi; [|done].
    apply (IH _ _ _ Hset); [|done].
    intros k' Hk'. destruct (decide (name = k')) as [<-|Hne].
    + by apply list_elem_of_lookup_2 in Hi.
    + rewrite lookup_insert_ne in Hk' by done. by apply Hkeys.
Qed.

(** With distinct columns, the field of the column at position [p] holds
    the value written at [p], or what it held before when [p] is outside
    the positions written. *)
Lemma setColumns_lookup columns :
  NoDup columns →
  ∀ value i obj obj',
    setColumns columns i value obj = Some obj' →
    ∀ p name, columns !! p = Some name →
      obj' !! name
      = if decide (i ≤ p < i + length value)%nat
        then value !! (p - i)%nat else obj !! name.
Proof.
  intros Hnd. induction value as [|x value IH];
    intros i obj obj' Hset p name Hp.
  - simpl in Hset. injection Hset as <-.
    destruct (decide (i ≤ p < i + length [])%nat) as [Hin|_]; [|done].
    simpl in Hin. lia.
  - simpl in Hset. destruct (columns !! i) as [n0|] eqn:Hi; [|done].
    rewrite (IH _ _ _ Hset p name Hp).
    destruct (decide (p = i)) as [->|Hpi].
    + assert (n0 = name) as -> by congruence.
      destruct (decide (S i ≤ i < S i + length value)%nat) as [?|_]; [lia|].
      rewrite decide_True by (simpl; lia).
      rewrite lookup_insert_eq, Nat.sub_diag. reflexivity.
    + assert (Hne : n0 ≠ name).
      { intros ->. apply Hpi. by apply (NoDup_lookup columns p i name). }
      destruct (decide (S i ≤ p < S i + length value)%nat) as [Hin|Hout].
      * rewrite decide_True by (simpl; lia).
        replace (p - i)%nat with (S (p - S i)) by lia. reflexivity.
      * rewrite decide_False by (simpl; lia).
        by rewrite lookup_insert_ne.
Qed.

(** A row with a value for every column decides every field of the
    object. *)
Lemma setColumns_full columns value obj obj' :
  NoDup columns →
  length value = length columns →
  (∀ k, is_Some (obj !! k) → k ∈ columns) →
  setColumns columns O value obj = Some obj' →
  (∀ p name, columns !! p = Some name → obj' !! name = value !! p)
  ∧ (∀ k x, obj' !! k = Some x → k ∈ columns ∧ x ∈ value).
Proof.
  intros Hnd Hlen Hkeys Hset.
  assert (Hat : ∀ p name, columns !! p = Some name →
                          obj' !! name = value !! p).
  { intros p name Hp.
    rewrite (setColumns_lookup columns Hnd _ _ _ _ Hset p name Hp).
    apply lookup_lt_Some in Hp as Hlt.
    rewrite decide_True by lia. by rewrite Nat.sub_0_r. }
  split; [done|]. intros k x Hk.
  assert (Hin : k ∈ columns).
  { apply (setColumns_keys _ _ _ _ _ Hset Hkeys). by eexists. }
  split; [done|].
  apply list_elem_of_lookup_1 in Hin as [p Hp].
  rewrite (Hat p k Hp) in Hk. by apply list_elem_of_lookup_2 in Hk.
Qed.

(** The record stored under the last key encodes the object after the
    last line was written into it. *)
Lemma encodeLines_last columns queryid lines0 value :
  Forall (λ l, (length l ≤ length columns)%nat) lines0 →
  (length value ≤ length columns)%nat →
  ∀ j obj rec last,
    (∀ k, is_Some (obj !! k) → k ∈ columns) →
    ∃ res lastIndex obj_prev obj_last,
      (∀ w, encodeLines columns queryid j (lines0 ++ [value]) obj rec last w
            = (Returned (Some res, lastIndex, None), w))
      ∧ (∀ k, is_Some (obj_prev !! k) → k ∈ columns)
      ∧ setColumns columns O value obj_prev = Some obj_last
      ∧ res !! lastIndex = Some (json.Marshal obj_last).1.
Proof.
  intros Hall Hvalue.
  induction Hall as [|l lines0 Hl Hall IH]; intros j obj rec last Hkeys.
  - destruct (setColumns_in_range columns value 0 obj ltac:(simpl; lia))
      as [obj' Hobj].
    eexists _, _, obj, obj'. split; [|split; [done|split; [done|]]].
    + intros w. simpl. rewrite Hobj. unfold json.Marshal. reflexivity.
    + apply lookup_insert_eq.
  - destruct (setColumns_in_range columns l 0 obj ltac:(simpl; lia))
      as [obj1 Hobj1].
    pose proof (setColumns_keys _ _ _ _ _ Hobj1 Hkeys) as Hkeys1.
    destruct (IH (S j) obj1
                 (<[recordKey queryid j := (json.Marshal obj1).1]> rec)
                 (recordKey queryid j) Hkeys1)
      as (res & lastIndex & obj_prev & obj_last & Hrun & Hprev & Hset & Hres).
    exists res, lastIndex, obj_prev, obj_last.
    split; [|split; [done|split; [done|done]]].
    intros w. simpl. rewrite Hobj1. unfold json.Marshal. apply Hrun.
Qed.

(** On rows of which the last has no NULL value, with distinct columns and
    plain column names and values, a query with a cursor column moves the
    checkpoint to the value of the cursor column in the last row. *)
Lemma checkpoint_is_last_cursor_value c db dbquery w columns rows values p v :
  client c = Some db →
  cursorQuery dbquery = true →
  let text := rewritten dbquery (checkpoint dbquery w) in
  answer db text
  = inr (mkRows (inr columns) (rows ++ [Some <$> values]) EndOfRows) →
  Forall (λ row, length row = length columns) rows →
  length values = length columns →
  NoDup columns →
  Forall (λ s, plain s = true) columns →
  Forall (λ s, plain s = true) values →
  columns !! p = Some (IndexColumnName dbquery) →
  values !! p = Some v →
  ∃ records es,
    getRecords c dbquery w
    = (Returned (setQuery dbquery text, (Some records, None)),
       mkWorld (<[QueryId dbquery := v]> (states w))
               (logged w ++ es) (sent w ++ [text])).
Proof.
  intros Hc Hcur text Hans Hrows Hlen Hnd Hpc Hpv Hcol Hval.
  assert (Hlines0 : Forall (λ l, (length l ≤ length columns)%nat)
                           (scanLine <$> rows)).
  { apply Forall_fmap. eapply Forall_impl; [exact Hrows|].
    intros row Hrow. simpl. rewrite <- Hrow. apply scanLine_length. }
  destruct (encodeLines_last columns (QueryId dbquery) (scanLine <$> rows)
              values Hlines0 ltac:(lia) O ∅ ∅ EmptyString)
    as (res & lastIndex & obj_prev & obj_last & Hrun & Hprev & Hset & Hres).
  { intros k [x Hx]. by rewrite lookup_empty in Hx. }
  assert (Hexec : ∀ w0,
    ExecuteQueryandFetchRecords c text (QueryId dbquery) w0
    = (Returned (Some res, lastIndex, None), extend w0 [] [text])).
  { intros w0. unfold ExecuteQueryandFetchRecords. rewrite Hc. exec.
    rewrite Hans. simpl. rewrite scanRows_full.
    - simpl. rewrite fmap_app. simpl. rewrite scanLine_full, Hrun.
      unfold extend. simpl. by rewrite app_nil_r.
    - apply Forall_app. split; [done|]. constructor; [|constructor].
      by rewrite length_fmap. }
  destruct (setColumns_full columns values obj_prev obj_last Hnd Hlen Hprev Hset)
    as [Hat Hfrom].
  assert (Hdec : json.Unmarshal (lastRecord (Some res) lastIndex)
                 = Some obj_last).
  { unfold lastRecord. simpl. rewrite Hres. simpl.
    apply Unmarshal_Marshal. intros k x Hk.
    destruct (Hfrom k x Hk) as [Hkc Hxv]. split.
    - by apply (proj1 (Forall_forall _ _) Hpc).
    - by apply (proj1 (Forall_forall _ _) Hpv). }
  assert (Hfield : obj_last !! IndexColumnName dbquery = Some v).
  { by rewrite (Hat p _ Hcol). }
  assert (Hsize : len (Some res) ≠ O).
  { unfold len. simpl. intros Hzero. apply map_size_empty_inv in Hzero.
    rewrite Hzero, lookup_empty in Hres. discriminate. }
  destruct (getRecords_cursor c dbquery w (Some res) lastIndex [] Hcur Hexec)
    as [(Hzero & _) | [(_ & Hnone & _)
       | [(_ & val & Hsome & Hmiss & _)
         | (_ & val & v' & Hsome & Hhit & e & es & Heq)]]].
  - done.
  - rewrite Hdec in Hnone. discriminate.
  - rewrite Hdec in Hsome. injection Hsome as <-.
    rewrite Hfield in Hmiss. discriminate.
  - rewrite Hdec in Hsome. injection Hsome as <-.
    rewrite Hfield in Hhit. injection Hhit as <-.
    eexists _, _. exact Heq.
Qed.

(** ** The objects behind the records *)

Lemma encodeLines_objects columns queryid lines :
  Forall (λ l, (length l ≤ length columns)%nat) lines →
  ∀ j obj rec last,
  ∃ res lastIndex objs,
    (∀ w, encodeLines columns queryid j lines obj rec last w
          = (Returned (Some res, lastIndex, None), w))
    ∧ length objs = length lines
    ∧ (∀ key, (∀ k, (k < length lines)%nat → key ≠ recordKey queryid (j + k)) →
              res !! key = rec !! key)
    ∧ (∀ k o, objs !! k = Some o →
              res !! recordKey queryid (j + k) = Some (json.Marshal o).1)
    ∧ (∀ k value o, lines !! k = Some value → objs !! k = Some o →
              setColumns columns O value (before obj objs k) = Some o).
Proof.
  induction 1 as [|value lines Hlen Hall IH]; intros j obj rec last.
  - exists rec, last, []. repeat split; try done.
  - simpl.
    destruct (setColumns_in_range columns value O obj) as [obj' Hobj'];
      [simpl; lia|].
    rewrite Hobj'. simpl.
    destruct (IH (S j) obj'
                (<[recordKey queryid j := (json.Marshal obj').1]> rec)
                (recordKey queryid j))
      as (res & lastIndex & objs & Hrun & Hlenobjs & Hframe & Hrec & Hstep).
    exists res, lastIndex, (obj' :: objs).
    split; [exact Hrun|]. split; [simpl; congruence|]. split; [|split].
    + intros key Hkey. rewrite Hframe.
      * apply lookup_insert_ne. specialize (Hkey O ltac:(simpl; lia)).
        rewrite Nat.add_0_r in Hkey. done.
      * intros k Hk. specialize (Hkey (S k) ltac:(simpl; lia)).
        by replace (S j + k)%nat with (j + S k)%nat by lia.
    + intros [|k] o Ho; simpl in Ho.
      * injection Ho as <-. rewrite Nat.add_0_r, Hframe.
        -- apply lookup_insert_eq.
        -- intros k _ Heq. apply recordKey_inj in Heq. lia.
      * replace (j + S k)%nat with (S j + k)%nat by lia. by apply Hrec.
    + intros [|k] value' o Hv Ho; simpl in Hv, Ho.
      * by injection Hv as <-; injection Ho as <-.
      * specialize (Hstep k value' o Hv Ho).
        destruct k as [|k]; simpl in *; [done|].
        destruct (objs !! k) eqn:Hk; simpl in *; [done|].
        apply lookup_lt_Some in Ho. apply lookup_ge_None in Hk. lia.
Qed.

Lemma scanLine_omap_aux values (value : string) (line : list string) :
  (foldl (λ (vars : string * list string) (col : RawBytes),
            let '(value, line) := vars in
            match col with
            | None => ("NULL", line)
            | Some bytes => (bytes, (line ++ [bytes])%list)
            end) (value, line) values).2
  = (line ++ nonNull values)%list.
Proof.
  revert value line.
  induction values as [|[bytes|] values IH]; intros value line; simpl.
  - by rewrite app_nil_r.
  - rewrite IH. rewrite <- app_assoc. done.
  - apply IH.
Qed.

Lemma scanLine_omap values : scanLine values = nonNull values.
Proof. unfold scanLine. by rewrite scanLine_omap_aux. Qed.

Lemma nonNull_length (values : list RawBytes) :
  (length (nonNull values) ≤ length values)%nat.
Proof.
  induction values as [|[x|] values IH]; [done|..].
  - change (nonNull (Some x :: values)) with (x :: nonNull values).
    simpl. lia.
  - change (nonNull (None :: values)) with (nonNull values).
    simpl. lia.
Qed.

(** The answer of a database whose rows all have one value per column. *)
Lemma fetch_encodes c db query queryid columns tbl :
  client c = Some db →
  answer db query = inr (mkRows (inr columns) tbl EndOfRows) →
  Forall (λ row, length row = length columns) tbl →
  ∀ w, ExecuteQueryandFetchRecords c query queryid w
       = encodeLines columns queryid O (nonNull <$> tbl) ∅ ∅ EmptyString
           (extend w [] [query]).
Proof.
  intros Hc Hans Hfull w.
  unfold ExecuteQueryandFetchRecords. rewrite Hc, Hans. simpl.
  rewrite (scanRows_full _ _ _ Hfull). simpl.
  unfold mbind, Exec_bind. rewrite send_extend.
  assert (Heq : scanLine <$> tbl = nonNull <$> tbl)
    by (apply list_fmap_ext; intros; apply scanLine_omap).
  by rewrite Heq.
Qed.

Lemma encodeLines_fields columns queryid (tbl : list (list RawBytes)) :
  Forall (λ row, length row = length columns) tbl →
  NoDup columns →
  ∃ res lastIndex objs,
    (∀ w, encodeLines columns queryid O (nonNull <$> tbl) ∅ ∅ EmptyString w
          = (Returned (Some res, lastIndex, None), w))
    ∧ length objs = length tbl
    ∧ (∀ k o, objs !! k = Some o →
              res !! recordKey queryid k = Some (json.Marshal o).1)
    ∧ (∀ k row o p name,
         tbl !! k = Some row → objs !! k = Some o → columns !! p = Some name →
         o !! name = match nonNull row !! p with
                     | Some v => Some v
                     | None => before ∅ objs k !! name
                     end)
    ∧ (∀ k o name, objs !! k = Some o → is_Some (o !! name) → name ∈ columns).
Proof.
  intros Hfull Hnodup.
  assert (Hlines : Forall (λ l : list string, (length l ≤ length columns)%nat)
                     (nonNull <$> tbl)).
  { apply Forall_fmap. eapply Forall_impl; [exact Hfull|].
    intros row Hrow. simpl. rewrite <- Hrow. apply nonNull_length. }
  destruct (encodeLines_objects columns queryid _ Hlines O ∅ ∅ EmptyString)
    as (res & lastIndex & objs & Hrun & Hlen & _ & Hrec & Hstep).
  assert (Hkeys : ∀ k o, objs !! k = Some o →
                         ∀ name, is_Some (o !! name) → name ∈ columns).
  { intros k. induction k as [|k IH]; intros o Ho name Hname.
    - destruct (lookup_lt_is_Some_2 (nonNull <$> tbl) O) as [value Hvalue].
      { apply lookup_lt_Some in Ho. lia. }
      specialize (Hstep O value o Hvalue Ho). simpl in Hstep.
      eapply setColumns_keys; [exact Hstep| |exact Hname].
      intros x Hx. rewrite lookup_empty in Hx. by destruct Hx.
    - destruct (lookup_lt_is_Some_2 (nonNull <$> tbl) (S k)) as [value Hvalue].
      { apply lookup_lt_Some in Ho. lia. }
      destruct (lookup_lt_is_Some_2 objs k) as [o' Ho'].
      { apply lookup_lt_Some in Ho. lia. }
      specialize (Hstep (S k) value o Hvalue Ho). simpl in Hstep.
      rewrite Ho' in Hstep. simpl in Hstep.
      eapply setColumns_keys; [exact Hstep| |exact Hname].
      intros x Hx. by apply (IH o'). }
  exists res, lastIndex, objs.
  split; [exact Hrun|]. split; [by rewrite Hlen, length_fmap|].
  split; [intros k o Ho; by rewrite <- (Hrec k o Ho)|]. split.
  - intros k row o p name Hrow Ho Hp.
    assert (Hvalue : (nonNull <$> tbl) !! k = Some (nonNull row))
      by (by rewrite list_lookup_fmap, Hrow).
    specialize (Hstep k _ o Hvalue Ho).
    rewrite (setColumns_lookup columns Hnodup _ _ _ _ Hstep p name Hp).
    rewrite Nat.sub_0_r.
    destruct (decide (0 ≤ p < 0 + length (nonNull row))%nat) as [Hin|Hout].
    + destruct (lookup_lt_is_Some_2 (nonNull row) p) as [v Hv]; [lia|].
      by rewrite Hv.
    + rewrite (proj2 (lookup_ge_None (nonNull row) p)); [done|lia].
  - intros k o name Ho Hname. by apply (Hkeys k o).
Qed.

Lemma nonNull_full values : nonNull (full values) = values.
Proof. rewrite <- scanLine_omap. apply scanLine_full. Qed.

Lemma lookup_zip_columns (columns values : list string) p name :
  NoDup columns →
  length values = length columns →
  columns !! p = Some name →
  (list_to_map (zip columns values) : gmap string string) !! name = values !! p.
Proof.
  intros Hnodup Hlen Hp.
  destruct (lookup_lt_is_Some_2 values p) as [v Hv].
  { apply lookup_lt_Some in Hp. lia. }
  rewrite Hv. apply elem_of_list_to_map_1.
  - rewrite fst_zip; [done|lia].
  - apply list_elem_of_lookup. exists p.
    rewrite lookup_zip_with, Hp. simpl. by rewrite Hv.
Qed.

Lemma zip_decodes (columns values : list string) :
  Forall (λ s, plain s = true) columns →
  Forall (λ s, plain s = true) values →
  json.Unmarshal (json.Marshal (list_to_map (zip columns values))).1
  = Some (list_to_map (zip columns values)).
Proof.
  intros Hcols Hvals. apply Unmarshal_Marshal.
  intros name v Hname.
  apply elem_of_list_to_map_2, elem_of_zip_with in Hname.
  destruct Hname as (x & y & Heq & Hx & Hy). injection Heq as -> ->.
  split.
  - by apply (proj1 (Forall_forall _ _) Hcols).
  - by apply (proj1 (Forall_forall _ _) Hvals).
Qed.



(** ** The checkpoint and the delivery (C1) *)

(** C1 as the specification states it does not hold: on the two managers
    of the example, [getRecords] has moved the checkpoint of Q2 to 7 when
    it returns, before its caller has the batch to deliver. *)
Lemma C1_counterexample :
  ¬ checkpoint_kept (Examples.connected Examples.managers) Examples.Q2
      Examples.world0.
Proof.
  unfold checkpoint_kept. intros H.
  apply (f_equal (λ m : gmap string string, m !! "Q2")) in H.
  vm_compute in H. discriminate H.
Qed.

(** C1, amended: for a query with a cursor column, [getRecords] itself
    writes the checkpoint, after the fetch and before it returns the batch
    to its caller. When it returns a batch that is not empty the store has
    been updated at the identifier of the query; the store is as it was
    only when no record is returned. *)
Theorem C1_checkpoint_written_before_return
    c db dbquery w dbquery' records err w' :
  client c = Some db →
  cursorQuery dbquery = true →
  getRecords c dbquery w = (Returned (dbquery', (records, err)), w') →
  (len records = O → states w' = states w)
  ∧ (len records ≠ O →
     ∃ v, states w' = <[QueryId dbquery := v]> (states w)).
Proof.
  intros Hc Hcur Hget.
  destruct (ExecuteQueryandFetchRecords_returns c db
              (rewritten dbquery (checkpoint dbquery w)) (QueryId dbquery) Hc)
    as (res & lastIndex & es0 & Hrun & _).
  destruct (getRecords_cursor c dbquery w res lastIndex es0 Hcur Hrun)
    as [(Hlen & e & es & Heq) | [(Hlen & Hdec & e & es & Heq)
       | [(Hlen & val & Hdec & Hv & e & es & Heq)
         | (Hlen & val & v & Hdec & Hv & e & es & Heq)]]];
    rewrite Heq in Hget; inversion Hget; subst; clear Hget.
  - split; [done|]. intros Hne. by destruct Hne.
  - split; [done|]. intros Hne. by destruct Hne.
  - split; [intros Hzero; by destruct Hlen|]. intros _. by exists v.
Qed.

Lemma C1_witness :
  ∃ records w',
    (len records = O → states w' = states Examples.world0)
    ∧ (len records ≠ O →
       ∃ v, states w' = <[QueryId Examples.Q2 := v]> (states Examples.world0)).
Proof.
  eexists _, _.
  eapply (C1_checkpoint_written_before_return
            (Examples.connected Examples.managers)
            (Examples.database Examples.managers) Examples.Q2
            Examples.world0).
  - reflexivity.
  - reflexivity.
  - vm_compute. reflexivity.
Defined.

(** The next tick after the two managers were fetched asks for the rows
    after 7, whatever became of the batch. *)
Example next_tick_starts_after_checkpoint :
  let w1 := (getRecords (Examples.connected Examples.managers) Examples.Q2
               Examples.world0).2 in
  sent (getRecords (Examples.connected Examples.managers) Examples.Q2 w1).2
  = ["Select * from dept_manager where emp_no > 3 order by emp_no asc;";
     "Select * from dept_manager where emp_no > 7 order by emp_no asc;"].
Proof. vm_compute. reflexivity. Qed.

(** ** The incremental rewrite (C2) *)

(** What [getRecords] sends and stores for a QuerySpec with a query text,
    a cursor column and the cursor type TIMESTAMP or NUMBER, whose text
    does not contain the placeholders STATEVALUE and INDEXCOLUMNNAME and
    whose checkpoint does not contain INDEXCOLUMNNAME: the configured text
    followed by the predicate [<cursor> > <value>] and
    [order by <cursor> asc;], the predicate joined by what the test
    [strings.Contains(Query, "where")] selects. *)
Lemma incremental_rewrite c db dbquery w :
  client c = Some db →
  cursorQuery dbquery = true →
  GoStrings.Contains (Query dbquery) "STATEVALUE" = false →
  GoStrings.Contains (Query dbquery) "INDEXCOLUMNNAME" = false →
  GoStrings.Contains (checkpoint dbquery w) "INDEXCOLUMNNAME" = false →
  sent (getRecords c dbquery w).2
  = (sent w ++ [incremental dbquery (checkpoint dbquery w)])%list
  ∧ (∀ dbquery' result w',
       getRecords c dbquery w = (Returned (dbquery', result), w') →
       Query dbquery' = incremental dbquery (checkpoint dbquery w)).
Proof.
  intros Hc Hcur HQ1 HQ2 Hv.
  assert (Hsup : supported (IndexColumnType dbquery) = true).
  { unfold cursorQuery in Hcur. by apply andb_true_iff in Hcur as [_ ?]. }
  rewrite <- (rewritten_incremental dbquery _ Hsup HQ1 HQ2 Hv).
  destruct (ExecuteQueryandFetchRecords_returns c db
              (rewritten dbquery (checkpoint dbquery w)) (QueryId dbquery) Hc)
    as (res & lastIndex & es0 & Hrun & _).
  destruct (getRecords_cursor c dbquery w res lastIndex es0 Hcur Hrun)
    as [(Hlen & e & es & Heq) | [(Hlen & Hdec & e & es & Heq)
       | [(Hlen & val & Hdec & Hval & e & es & Heq)
         | (Hlen & val & v & Hdec & Hval & e & es & Heq)]]];
    rewrite Heq; (split; [done|]);
    intros dbquery' result w' Hret; by inversion Hret.
Qed.

(** Where the test of the code finds the filter clause that the text has,
    or the text has none, the rewrite is the one the specification
    describes. *)
Lemma rewrite_as_specified c db dbquery w :
  client c = Some db →
  cursorQuery dbquery = true →
  GoStrings.Contains (Query dbquery) "STATEVALUE" = false →
  GoStrings.Contains (Query dbquery) "INDEXCOLUMNNAME" = false →
  GoStrings.Contains (checkpoint dbquery w) "INDEXCOLUMNNAME" = false →
  GoStrings.Contains (Query dbquery) "where"
  = has_filter_clause (Query dbquery) →
  sent (getRecords c dbquery w).2
  = (sent w ++ [spec_rewrite dbquery (checkpoint dbquery w)])%list.
Proof.
  intros Hc Hcur HQ1 HQ2 Hv Hsame.
  destruct (incremental_rewrite c db dbquery w Hc Hcur HQ1 HQ2 Hv) as [-> _].
  unfold incremental, spec_rewrite, joiner. by rewrite Hsame.
Qed.

(** The example of the specification: the query of Q2 has no filter
    clause, and the predicate is joined with [where]. *)
Example rewrite_of_Q2 :
  sent (getRecords (Examples.connected Examples.managers) Examples.Q2
          Examples.world0).2
  = ["Select * from dept_manager where emp_no > 3 order by emp_no asc;"].
Proof.
  apply (rewrite_as_specified (Examples.connected Examples.managers)
           (Examples.database Examples.managers) Examples.Q2 Examples.world0);
    reflexivity.
Qed.

(** C2 fails on a filter clause written in upper case. The text of Q3 has
    a filter clause, [WHERE title = 'Staff'], and no placeholder; the claim
    has the predicate joined to it with [and]. The test for the clause
    looks for the lower-case [where] only, misses it, and the text that is
    sent has a second [where]: it is no SQL statement. *)
Theorem C2_upper_case_WHERE_gets_a_second_where :
  cursorQuery Examples.Q3 = true
  ∧ has_filter_clause (Query Examples.Q3) = true
  ∧ spec_rewrite Examples.Q3 (checkpoint Examples.Q3 Examples.world0)
    = "SELECT * FROM titles WHERE title = 'Staff' and from_date > "
      +:+ json.dquote +:+ "2006-01-02 15:04:05" +:+ json.dquote
      +:+ " order by from_date asc;"
  ∧ sent (getRecords (Examples.connected Examples.no_titles) Examples.Q3
            Examples.world0).2
    = ["SELECT * FROM titles WHERE title = 'Staff' where from_date > "
       +:+ json.dquote +:+ "2006-01-02 15:04:05" +:+ json.dquote
       +:+ " order by from_date asc;"].
Proof.
  split; [reflexivity|]. split; [reflexivity|].
  split; [reflexivity|]. vm_compute. reflexivity.
Qed.

(** ** The checkpoint value (C3) and the encoded record (C5) *)

(** The example of the specification: rows with [emp_no] 4 and 7 and no
    NULL value move the checkpoint of Q2 to 7. *)
Example checkpoint_of_managers :
  states (getRecords (Examples.connected Examples.managers) Examples.Q2
            Examples.world0).2 !! "Q2" = Some "7".
Proof. vm_compute. reflexivity. Qed.

(** C3 fails on rows with a NULL value: the last row fetched has [emp_no]
    7, its first column is NULL, and the checkpoint saved is 4. The last
    record is built from the shortened line of the row, so its [emp_no]
    field still holds the value of the row before. *)
Theorem C3_checkpoint_after_null_row :
  last (table Examples.managers_null) = Some [None; Some "7"]
  ∧ Columns Examples.managers_null = inr ["note"; "emp_no"]
  ∧ states (getRecords (Examples.connected Examples.managers_null)
              Examples.Q2 Examples.world0).2 !! "Q2" = Some "4".
Proof.
  split; [reflexivity|]. split; [reflexivity|]. vm_compute. reflexivity.
Qed.

(** C5 fails on a NULL value: for the columns [a], [b] and the row
    (NULL, x) the record is the object with the single member [a] = x. The
    column [a] does not get the sentinel, the value of [b] is filed under
    [a], and [b] is absent. *)
Theorem C5_null_column_dropped :
  ExecuteQueryandFetchRecords (Examples.connected Examples.one_null_row)
    "Select * from t" "Q1" Examples.world0
  = (Returned
       (Some {[ "Q1_record1" :=
                  "{" +:+ json.quote "a" +:+ ":" +:+ json.quote "x" +:+ "}" ]},
        "Q1_record1", None),
     extend Examples.world0 [] ["Select * from t"]).
Proof. vm_compute. reflexivity. Qed.

(** ** The QuerySpec after the call (C4) *)

(** C4 as the specification states it does not hold: after the call the
    query text of Q2 is the rewritten text. *)
Lemma C4_counterexample :
  ¬ spec_unchanged (Examples.connected Examples.managers) Examples.Q2
      Examples.world0.
Proof.
  unfold spec_unchanged. intros H.
  specialize (H (setQuery Examples.Q2
                   "Select * from dept_manager where emp_no > 3 order by emp_no asc;")
                _ _ ltac:(vm_compute; reflexivity)).
  discriminate H.
Qed.

(** C4, amended: a call of [getRecords] that returns leaves the
    identifier, the cursor column, the cursor type and the initial value of
    its QuerySpec as they were. The query text is also left as it was,
    unless the QuerySpec has a query text, a cursor column and a supported
    cursor type: then the query text is overwritten with the rewritten
    text of this call. *)
Theorem C4_only_query_text_changes c db dbquery w dbquery' result w' :
  client c = Some db →
  getRecords c dbquery w = (Returned (dbquery', result), w') →
  dbquery' = setQuery dbquery (Query dbquery')
  ∧ (cursorQuery dbquery = false → dbquery' = dbquery)
  ∧ (cursorQuery dbquery = true →
     Query dbquery' = rewritten dbquery (checkpoint dbquery w)).
Proof.
  intros Hc Hget.
  assert (Hsame : dbquery' = dbquery →
    dbquery' = setQuery dbquery (Query dbquery')
    ∧ (cursorQuery dbquery = false → dbquery' = dbquery)).
  { intros ->. by rewrite setQuery_same. }
  destruct (GoStrings.blank (Query dbquery)) eqn:Hq.
  { rewrite (getRecords_blank_query c dbquery w Hq) in Hget.
    injection Hget as Hd Hr Hw; subst dbquery' result w'. destruct (Hsame eq_refl) as [? ?].
    repeat split; try done.
    unfold cursorQuery. rewrite Hq. discriminate. }
  destruct (query_kinds dbquery Hq) as [Hsnap | [Hcur | Hbad]].
  - destruct (ExecuteQueryandFetchRecords_returns c db (Query dbquery)
                (QueryId dbquery) Hc)
      as (res & lastIndex & es0 & Hrun & _).
    destruct (getRecords_snapshot c dbquery res lastIndex es0 Hsnap Hrun)
      as (e1 & e2 & Heq).
    rewrite Heq in Hget. injection Hget as Hd Hr Hw; subst dbquery' result w'.
    destruct (Hsame eq_refl) as [? ?]. repeat split; try done.
    unfold snapshotQuery in Hsnap. apply andb_true_iff in Hsnap as [_ Hcol].
    unfold cursorQuery. rewrite Hcol, andb_false_r. discriminate.
  - destruct (ExecuteQueryandFetchRecords_returns c db
                (rewritten dbquery (checkpoint dbquery w)) (QueryId dbquery) Hc)
      as (res & lastIndex & es0 & Hrun & _).
    destruct (getRecords_cursor c dbquery w res lastIndex es0 Hcur Hrun)
      as [(Hlen & e & es & Heq) | [(Hlen & Hdec & e & es & Heq)
         | [(Hlen & val & Hdec & Hval & e & es & Heq)
           | (Hlen & val & v & Hdec & Hval & e & es & Heq)]]];
      rewrite Heq in Hget; try discriminate Hget;
      injection Hget as Hd Hr Hw; subst dbquery' result w';
      (split; [done|]); (split; [by rewrite Hcur|done]).
  - destruct (getRecords_malformed c dbquery w Hq Hbad)
      as (es & _ & _ & Heq).
    rewrite Heq in Hget. injection Hget as Hd Hr Hw; subst dbquery' result w'.
    destruct (Hsame eq_refl) as [? ?]. repeat split; try done.
    unfold malformed in Hbad. apply andb_true_iff in Hbad as [_ Hbad].
    unfold cursorQuery.
    destruct (supported (IndexColumnType dbquery)) eqn:Hsup.
    + rewrite (supported_not_blank _ Hsup) in Hbad. discriminate.
    + rewrite andb_false_r. discriminate.
Qed.

Lemma C4_witness :
  ∃ dbquery',
    dbquery' = setQuery Examples.Q2 (Query dbquery')
    ∧ (cursorQuery Examples.Q2 = false → dbquery' = Examples.Q2)
    ∧ (cursorQuery Examples.Q2 = true →
       Query dbquery'
       = rewritten Examples.Q2 (checkpoint Examples.Q2 Examples.world0)).
Proof.
  eexists.
  eapply (C4_only_query_text_changes
            (Examples.connected Examples.managers)
            (Examples.database Examples.managers) Examples.Q2
            Examples.world0).
  - reflexivity.
  - vm_compute. reflexivity.
Defined.

(** A second call on the QuerySpec that the first call left behind
    rewrites the rewritten text. *)
Example second_call_on_same_QuerySpec :
  ∃ dbquery' result w1,
    getRecords (Examples.connected Examples.managers) Examples.Q2
      Examples.world0 = (Returned (dbquery', result), w1)
    ∧ sent (getRecords (Examples.connected Examples.managers) dbquery' w1).2
      = ["Select * from dept_manager where emp_no > 3 order by emp_no asc;";
         "Select * from dept_manager where emp_no > 3 order by emp_no asc; and emp_no > 7 order by emp_no asc;"].
Proof.
  eexists _, _, _. split; [vm_compute; reflexivity|].
  vm_compute. reflexivity.
Qed.

(** ** Malformed cursor configuration (C6) *)

Lemma getRecords_skipped c dbquery w :
  GoStrings.blank (Query dbquery) = true ∨ malformed dbquery = true →
  skippedPerTick c dbquery w.
Proof.
  intros Hbad.
  destruct (GoStrings.blank (Query dbquery)) eqn:Hq.
  - eexists [_]. split; [done|]. split; last first.
    + by apply getRecords_blank_query.
    + by repeat constructor.
  - destruct Hbad as [Hbad|Hbad]; [done|]. by apply getRecords_malformed.
Qed.

(** C6 as the specification states it does not hold: Q4 has a cursor
    column and no cursor type, and [getRecords] handles it on the tick, by
    logging and skipping the query. *)
Lemma C6_counterexample :
  ¬ (malformed Examples.Q4 = true →
     ¬ skippedPerTick (Examples.connected Examples.managers) Examples.Q4
         Examples.world0).
Proof.
  intros H. apply H; [reflexivity|].
  apply getRecords_skipped. by right.
Qed.

(** C6, amended: a QuerySpec that declares a cursor column without a
    cursor type, or with a cursor type other than TIMESTAMP and NUMBER, is
    handled by [getRecords] on every tick: errors are logged and the query
    is skipped, with no record and a [nil] error returned, nothing sent to
    the database, and the QuerySpec and the checkpoint left as they
    were. *)
Theorem C6_malformed_cursor_skipped_per_tick c dbquery w :
  malformed dbquery = true →
  skippedPerTick c dbquery w.
Proof. intros Hbad. apply getRecords_skipped. by right. Qed.

Lemma C6_witness :
  skippedPerTick (Examples.connected Examples.managers) Examples.Q4
    Examples.world0.
Proof.
  apply (C6_malformed_cursor_skipped_per_tick
           (Examples.connected Examples.managers) Examples.Q4 Examples.world0).
  reflexivity.
Defined.

(** ** Queries without a cursor column (C7) *)



(** ** The credential resolver (C8) *)

(** C8 as the specification states it does not hold: with the settings of
    the configuration example (an encrypted password), a secret file that
    cannot be read and a decryption that fails, [newMySQLClient] does not
    fail: it returns a client. *)
Lemma C8_counterexample :
  ¬ (PasswordType Examples.conf0 = "encrypted" →
     (Examples.noSecret Examples.conf0).2 ≠ None →
     fails (newMySQLClient Examples.noSecret Examples.noCipher
              Examples.noCipher None Examples.noToken Examples.noFile
              (λ _, false) (λ _ _, None) Examples.showDSN
              Examples.conf0 Examples.world0)).
Proof.
  intros H.
  eapply (H eq_refl ltac:(discriminate)). vm_compute. reflexivity.
Qed.

Lemma logsOnly_ret {A : Type} (a : A) : logsOnly (mret a).
Proof. exists a, []. intros w. by rewrite extend_nil. Qed.

Lemma logsOnly_log l msg fs : logsOnly (log l msg fs).
Proof. eexists _, _. intros w. apply log_extend. Qed.

Lemma logsOnly_logIfErr err msg : logsOnly (logIfErr err msg).
Proof.
  destruct err; simpl; [apply logsOnly_log|apply (logsOnly_ret ())].
Qed.

Lemma logsOnly_bind {A B : Type} (m : Exec A) (k : A → Exec B) :
  logsOnly m → (∀ a, logsOnly (k a)) → logsOnly (m ≫= k).
Proof.
  intros (a & es & Hm) Hk. destruct (Hk a) as (b & es' & Hka).
  exists b, (es ++ es')%list. intros w. unfold mbind, Exec_bind.
  rewrite Hm, Hka, extend_extend. reflexivity.
Qed.

Ltac logs_only :=
  repeat first
    [ apply logsOnly_ret | apply logsOnly_log | apply logsOnly_logIfErr
    | apply logsOnly_bind; [|intros ?]
    | match goal with
      | |- logsOnly (let '(_, _) := ?p in _) => destruct p
      | |- logsOnly (if ?b then _ else _) => destruct b
      end ].

Section Credentials.

Variable readMySecret : Config → string * option error.
Variable Encrypt : string → string → string * option error.
Variable Decrypt : string → string → string * option error.
Variable LoadDefaultConfig : option error.
Variable BuildAuthToken : string → string → string → string * option error.
Variable ReadFile : string → string * option error.
Variable AppendCertsFromPEM : string → bool.
Variable RegisterTLSConfig : string → string → option error.
Variable FormatDSN : DriverConfig → string.

Lemma newMySQLClient_logsOnly conf :
  logsOnly (newMySQLClient readMySecret Encrypt Decrypt LoadDefaultConfig
              BuildAuthToken ReadFile AppendCertsFromPEM RegisterTLSConfig
              FormatDSN conf).
Proof.
  unfold newMySQLClient, generateIAMAuthToken, createIAMRDSTLSConf.
  logs_only.
Qed.

(** C8, amended: [newMySQLClient] has no failing outcome: in every
    authentication mode it returns a client, and it does nothing else but
    log. With an encrypted password (and password authentication) it
    returns the client whatever the secret file and the decryption do: a
    failure to read the secret and a failure to decrypt are each logged as
    an error, and the connection string is built with the text that
    [Decrypt] returned as the password. *)
Theorem C8_encrypted_mode_never_fails conf w :
  let resolve :=
    newMySQLClient readMySecret Encrypt Decrypt LoadDefaultConfig
      BuildAuthToken ReadFile AppendCertsFromPEM RegisterTLSConfig FormatDSN in
  (∃ c es, resolve conf w = (Returned c, extend w es []))
  ∧ (PasswordType conf = "encrypted" →
     AuthenticationMode conf ≠ "IAMRDSAuth" →
     let secret := readMySecret conf in
     let plain := Decrypt (Password conf) secret.1 in
     ∃ es,
       resolve conf w
       = (Returned
            (mkClient
               (FormatDSN
                  (mkDriverConfig (Username conf) plain.1 (Transport conf)
                     (DBHost conf +:+ ":" +:+ DBPort conf) (Database conf)
                     (AllowNativePasswords conf) EmptyString false))
               None conf),
          extend w es [])
       ∧ (∀ e, secret.2 = Some e →
            mkEntry ErrorLevel "error in reading encryption secret from file"
                    [zapError e] ∈ es)
       ∧ (∀ e, plain.2 = Some e →
            mkEntry ErrorLevel "error decrypting your encrypted text: "
                    [zapError e] ∈ es)).
Proof.
  intros resolve. split.
  { destruct (newMySQLClient_logsOnly conf) as (c & es & Hrun).
    exists c, es. apply Hrun. }
  intros Henc Hauth secret plain. subst resolve secret plain.
  unfold newMySQLClient. rewrite Henc.
  apply String.eqb_neq in Hauth. rewrite Hauth. simpl.
  destruct (readMySecret conf) as [secret [e1|]]; simpl;
    destruct (Decrypt (Password conf) secret) as [plain [e2|]]; simpl.
  - eexists [_; _]. split; [|split].
    + exec. unfold extend. simpl. rewrite <- app_assoc, app_nil_r. reflexivity.
    + intros e [= <-]. set_solver.
    + intros e [= <-]. set_solver.
  - eexists [_]. split; [|split].
    + exec. unfold extend. simpl. rewrite app_nil_r. reflexivity.
    + intros e [= <-]. set_solver.
    + intros e [=].
  - eexists [_]. split; [|split].
    + exec. unfold extend. simpl. rewrite app_nil_r. reflexivity.
    + intros e [=].
    + intros e [= <-]. set_solver.
  - exists []. split; [|split].
    + exec. unfold extend. simpl. rewrite !app_nil_r. by destruct w.
    + intros e [=].
    + intros e [=].
Qed.

End Credentials.

Lemma C8_witness :
  ∃ es c,
    newMySQLClient Examples.noSecret Examples.noCipher Examples.noCipher None
      Examples.noToken Examples.noFile (λ _, false) (λ _ _, None)
      Examples.showDSN Examples.conf0 Examples.world0
    = (Returned c, extend Examples.world0 es [])
    ∧ connStr c = "test:@tcp(localhost:3306)/employees"
    ∧ length es = 2%nat.
Proof.
  destruct (C8_encrypted_mode_never_fails Examples.noSecret Examples.noCipher
              Examples.noCipher None Examples.noToken Examples.noFile
              (λ _, false) (λ _ _, None) Examples.showDSN
              Examples.conf0 Examples.world0)
    as (_ & Henc).
  destruct (Henc eq_refl ltac:(discriminate)) as (es & Hrun & _).
  exists es. eexists. split; [exact Hrun|]. split; [reflexivity|].
  vm_compute in Hrun. by injection Hrun as <-.
Defined.

(** ** The pool limits (C9) *)

(** C9 as the specification states it does not hold: with a lifetime of 3
    minutes and a maximum of -1 open connections configured, [Connect] asks
    the pool for -1 open connections, not for the default of 5. *)
Lemma C9_counterexample :
  ∃ c db,
    Connect Examples.opens (Examples.unconnected Examples.conf_unlimited)
      Examples.world0
    = (Returned (c, None), Examples.world0)
    ∧ client c = Some db
    ∧ limits db ≠ spec_limits Examples.conf_unlimited.
Proof.
  eexists _, _. split; [vm_compute; reflexivity|]. split; [reflexivity|].
  vm_compute. intros H. discriminate H.
Qed.

(** With the lifetime unset and 10 open and 10 idle connections
    configured, [Connect] asks the pool for 5 and 5: the three tests read
    the lifetime. *)
Example limits_without_lifetime :
  ∃ c db,
    Connect Examples.opens (Examples.unconnected Examples.conf_no_lifetime)
      Examples.world0
    = (Returned (c, None), Examples.world0)
    ∧ client c = Some db
    ∧ limits db = (Some 180000000000, Some 5, Some 5).
Proof.
  eexists _, _. split; [vm_compute; reflexivity|]. split; [reflexivity|].
  vm_compute. reflexivity.
Qed.

Section Pool.

Variable sql_Open : string → string → (string → error + Rows) * option error.

(** C9, amended: when the connection opens, [Connect] sets the maximum
    connection lifetime from its own configured value, 3 minutes when that
    value is zero (unset) and the configured number of minutes otherwise,
    a negative number included. The maximum numbers of open and of idle
    connections are 5 when the lifetime and their own value are both zero,
    and their own configured value, a negative one included, when the
    lifetime and their own value are both not zero. *)
Theorem C9_pool_limits c w database :
  sql_Open "mysql" (connStr c) = (database, None) →
  ∃ db,
    Connect sql_Open c w = (Returned (setClient c db, None), w)
    ∧ answer db = database
    ∧ ConnMaxLifetime db
      = Some (if SetConnMaxLifetime (conf c) =? 0
              then time.mul time.Minute 3
              else time.mul time.Minute
                     (time.int64 (SetConnMaxLifetime (conf c))))
    ∧ (SetConnMaxLifetime (conf c) = 0 →
       (SetMaxOpenConns (conf c) = 0 → MaxOpenConns db = Some 5)
       ∧ (SetMaxIdleConns (conf c) = 0 → MaxIdleConns db = Some 5))
    ∧ (SetConnMaxLifetime (conf c) ≠ 0 →
       (SetMaxOpenConns (conf c) ≠ 0 →
        MaxOpenConns db = Some (SetMaxOpenConns (conf c)))
       ∧ (SetMaxIdleConns (conf c) ≠ 0 →
          MaxIdleConns db = Some (SetMaxIdleConns (conf c)))).
Proof.
  intros Hopen. unfold Connect. rewrite Hopen. exec.
  destruct (SetConnMaxLifetime (conf c) =? 0) eqn:Hlife; simpl.
  - apply Z.eqb_eq in Hlife. eexists. split; [reflexivity|]. simpl.
    repeat split; try done.
  - apply Z.eqb_neq in Hlife. eexists. split; [reflexivity|]. simpl.
    repeat split; try done.
Qed.

End Pool.

Lemma C9_witness :
  ∃ db,
    Connect Examples.opens (Examples.unconnected Examples.conf0)
      Examples.world0
    = (Returned (setClient (Examples.unconnected Examples.conf0) db, None),
       Examples.world0)
    ∧ limits db = (Some 180000000000, Some 10, Some 10).
Proof.
  destruct (C9_pool_limits Examples.opens (Examples.unconnected Examples.conf0)
              Examples.world0 _ eq_refl)
    as (db & Hrun & _ & Hlife & _ & Hset).
  exists db. split; [exact Hrun|].
  destruct (Hset ltac:(discriminate)) as [Hopen Hidle].
  unfold limits.
  rewrite Hlife, (Hopen ltac:(discriminate)), (Hidle ltac:(discriminate)).
  reflexivity.
Defined.

(** ** Errors are not returned (C10) *)

(** A fetch that fails or delivers no row: [getRecords] returns the empty
    map and a [nil] error. *)
Lemma getRecords_no_record c db dbquery w :
  client c = Some db →
  snapshotQuery dbquery = true ∨ cursorQuery dbquery = true →
  let text := queryText dbquery w in
  fetchFails (answer db text) = true ∨ rowCount (answer db text) = O →
  ∃ es,
    getRecords c dbquery w
    = (Returned (setQuery dbquery text, (Some ∅, None)), extend w es [text])
    ∧ (fetchFails (answer db text) = true → Exists isError es).
Proof.
  intros Hc Hkind text Hnone.
  destruct (ExecuteQueryandFetchRecords_returns c db text (QueryId dbquery) Hc)
    as (res & lastIndex & es0 & Hrun & Hfail & Hok).
  assert (Hempty : default ∅ res = ∅).
  { destruct (fetchFails (answer db text)) eqn:Hf.
    - by destruct (Hfail eq_refl) as (-> & _).
    - destruct Hnone as [?|Hzero]; [done|].
      destruct (Hok eq_refl) as (_ & m & -> & _ & Hm & _). by apply Hm. }
  assert (Hlogged : fetchFails (answer db text) = true →
                    ∀ e es, Exists isError (e :: es0 ++ es)).
  { intros Hf e es. destruct (Hfail Hf) as (_ & _ & e0 & -> & He0).
    apply Exists_cons_tl. by apply Exists_cons_hd. }
  subst text. unfold queryText in *.
  destruct Hkind as [Hsnap|Hcur].
  - pose proof Hsnap as Hcol. unfold snapshotQuery in Hcol.
    apply andb_true_iff in Hcol as [_ Hcol]. rewrite Hcol in *.
    destruct (getRecords_snapshot c dbquery res lastIndex es0 Hsnap Hrun)
      as (e1 & e2 & Hget).
    exists (e1 :: es0 ++ [e2])%list. split.
    + by rewrite Hget, Hempty, setQuery_same.
    + intros Hf. by apply Hlogged.
  - pose proof Hcur as Hcol. unfold cursorQuery in Hcol.
    apply andb_true_iff in Hcol as [Hcol _].
    apply andb_true_iff in Hcol as [_ Hcol]. apply negb_true_iff in Hcol.
    rewrite Hcol in *.
    assert (Hlen : len res = O).
    { unfold len. by rewrite Hempty. }
    destruct (getRecords_cursor c dbquery w res lastIndex es0 Hcur Hrun)
      as [(_ & e & es & Heq) | [(Hne & _) | [(Hne & _) | (Hne & _)]]];
      try done.
    exists (e :: es0 ++ es)%list. split; [done|].
    intros Hf. by apply Hlogged.
Qed.

(** What holds of the error results on a connected client:
    [ExecuteQueryandFetchRecords] returns on every input, with a [nil]
    error, and a failed fetch is logged and gives a [nil] map; [getRecords]
    never returns an error that is not [nil]; an empty query text and a
    malformed cursor configuration are logged and give a [nil] map and a
    [nil] error; and a fetch that fails gives the caller of [getRecords]
    the same value, the empty map and a [nil] error, as a fetch that
    delivers no row. *)
Lemma errors_are_not_returned c db :
  client c = Some db →
  (∀ query queryid w, ∃ res lastIndex es,
      ExecuteQueryandFetchRecords c query queryid w
      = (Returned (res, lastIndex, None), extend w es [query])
      ∧ (fetchFails (answer db query) = true →
         res = None ∧ Exists isError es))
  ∧ (∀ dbquery w dbquery' records err w',
       getRecords c dbquery w = (Returned (dbquery', (records, err)), w') →
       err = None)
  ∧ (∀ dbquery w,
       GoStrings.blank (Query dbquery) = true ∨ malformed dbquery = true →
       skippedPerTick c dbquery w)
  ∧ (∀ dbquery w,
       snapshotQuery dbquery = true ∨ cursorQuery dbquery = true →
       let text := queryText dbquery w in
       fetchFails (answer db text) = true ∨ rowCount (answer db text) = O →
       ∃ es,
         getRecords c dbquery w
         = (Returned (setQuery dbquery text, (Some ∅, None)),
            extend w es [text])
         ∧ (fetchFails (answer db text) = true → Exists isError es)).
Proof.
  intros Hc. split; [|split; [|split]].
  - intros query queryid w.
    destruct (ExecuteQueryandFetchRecords_returns c db query queryid Hc)
      as (res & lastIndex & es & Hrun & Hfail & _).
    exists res, lastIndex, es. split; [done|].
    intros Hf. destruct (Hfail Hf) as (-> & _ & e & -> & He).
    split; [done|]. by apply Exists_cons_hd.
  - intros dbquery w dbquery' records err w' Hget.
    destruct (GoStrings.blank (Query dbquery)) eqn:Hq.
    { rewrite (getRecords_blank_query c dbquery w Hq) in Hget.
      by injection Hget as _ _ <- _. }
    destruct (query_kinds dbquery Hq) as [Hsnap | [Hcur | Hbad]].
    + destruct (ExecuteQueryandFetchRecords_returns c db (Query dbquery)
                  (QueryId dbquery) Hc)
        as (res & lastIndex & es0 & Hrun & _).
      destruct (getRecords_snapshot c dbquery res lastIndex es0 Hsnap Hrun)
        as (e1 & e2 & Heq).
      rewrite Heq in Hget. by injection Hget as _ _ <- _.
    + destruct (ExecuteQueryandFetchRecords_returns c db
                  (rewritten dbquery (checkpoint dbquery w))
                  (QueryId dbquery) Hc)
        as (res & lastIndex & es0 & Hrun & _).
      destruct (getRecords_cursor c dbquery w res lastIndex es0 Hcur Hrun)
        as [(Hlen & e & es & Heq) | [(Hlen & Hdec & e & es & Heq)
           | [(Hlen & val & Hdec & Hval & e & es & Heq)
             | (Hlen & val & v & Hdec & Hval & e & es & Heq)]]];
        rewrite Heq in Hget; try discriminate Hget;
        by injection Hget as _ _ <- _.
    + destruct (getRecords_malformed c dbquery w Hq Hbad)
        as (es & _ & _ & Heq).
      rewrite Heq in Hget. by injection Hget as _ _ <- _.
  - intros dbquery w. apply getRecords_skipped.
  - intros dbquery w. by apply getRecords_no_record.
Qed.

(** C10 fails where the last record has no cursor field: Q5 does not
    select its cursor column, the answer has one row, and the type
    assertion on the missing field panics, so [getRecords] does not return
    a [nil] error: it does not return. The decoding error just before it is
    logged and answered with a [nil] map and a [nil] error. *)
Theorem C10_panic_on_missing_cursor_field :
  (getRecords (Examples.connected Examples.manager_names) Examples.Q5
     Examples.world0).1 = Panicked.
Proof. vm_compute. reflexivity. Qed.

(** * Further properties of the client

    What follows goes beyond the statements of the specification: it
    describes the records that [ExecuteQueryandFetchRecords] builds, the
    calls of [getRecords] one after the other, the connection strings of
    [newMySQLClient], the client without a handle and the closed client. *)

(** ** The records of a fetch *)

Lemma record_keys_exactly (m : gmap string string) queryid n :
  size m = n →
  (∀ k, (k < n)%nat → is_Some (m !! recordKey queryid k)) →
  ∀ key, is_Some (m !! key) → ∃ k, (k < n)%nat ∧ key = recordKey queryid k.
Proof.
  intros Hsize Hin key Hkey.
  set (K := list_to_set (recordKey queryid <$> seq 0 n) : gset string).
  assert (HK : K = dom m).
  { apply set_subseteq_size_eq.
    - intros x Hx. apply elem_of_list_to_set, list_elem_of_fmap in Hx.
      destruct Hx as (k & -> & Hk). apply elem_of_seq in Hk.
      apply elem_of_dom, Hin. lia.
    - rewrite size_dom, Hsize. unfold K.
      rewrite size_list_to_set, length_fmap, length_seq; [lia|].
      apply NoDup_fmap_2; [|apply NoDup_seq].
      intros a b. apply recordKey_inj. }
  apply elem_of_dom in Hkey. rewrite <- HK in Hkey.
  apply elem_of_list_to_set, list_elem_of_fmap in Hkey.
  destruct Hkey as (k & -> & Hk). apply elem_of_seq in Hk.
  exists k. split; [lia|done].
Qed.

(** X1. A fetch that succeeds returns one record for each row, under the
    keys [queryid_record1] to [queryid_recordN] and under no other key: a
    key of the result is the key of a row. The last key is returned beside
    the records, and it is the empty string when there is no row. Nothing
    is logged. *)
Theorem X1_record_keys c db query queryid :
  client c = Some db →
  fetchFails (answer db query) = false →
  let n := rowCount (answer db query) in
  ∃ m lastIndex,
    (∀ w, ExecuteQueryandFetchRecords c query queryid w
          = (Returned (Some m, lastIndex, None), extend w [] [query]))
    ∧ (∀ key, is_Some (m !! key)
              ↔ ∃ k, (k < n)%nat ∧ key = recordKey queryid k)
    ∧ lastIndex
      = (if (n =? 0)%nat then EmptyString else recordKey queryid (n - 1)).
Proof.
  intros Hc Hok n.
  destruct (ExecuteQueryandFetchRecords_returns c db query queryid Hc)
    as (res & lastIndex & es & Hrun & Hfail & Hgood).
  destruct (Hgood Hok) as (-> & m & -> & Hkeys & Hempty & Hlast & Hsize).
  exists m, lastIndex. split; [exact Hrun|]. split.
  - intros key. split.
    + by apply record_keys_exactly.
    + intros (k & Hk & ->). by apply Hkeys.
  - fold n in Hlast, Hempty, Hrun.
    destruct (Nat.eqb_spec n 0) as [Hn|Hn]; [|by apply Hlast].
    specialize (Hrun Examples.world0).
    specialize (Hempty Hn). subst m.
    unfold ExecuteQueryandFetchRecords in Hrun. rewrite Hc in Hrun.
    unfold fetchFails in Hok. unfold rowCount in n.
    destruct (answer db query) as [e|rows]; [done|].
    destruct (Columns rows) as [e|columns]; [done|].
    assert (Ht : table rows = []) by (by apply length_zero_iff_nil).
    rewrite Ht in Hrun. simpl in Hrun.
    destruct (ending rows); try done.
    simpl in Hrun. exec. by injection Hrun.
Qed.

Lemma X1_witness :
  ∃ m lastIndex,
    (∀ w, ExecuteQueryandFetchRecords
            (Examples.connected Examples.departments)
            "Select * from departments" "Q1" w
          = (Returned (Some m, lastIndex, None),
             extend w [] ["Select * from departments"]))
    ∧ (∀ key, is_Some (m !! key)
              ↔ ∃ k, (k < 2)%nat ∧ key = recordKey "Q1" k)
    ∧ lastIndex = recordKey "Q1" 1.
Proof.
  apply (X1_record_keys (Examples.connected Examples.departments)
           (Examples.database Examples.departments)
           "Select * from departments" "Q1").
  - reflexivity.
  - vm_compute. reflexivity.
Defined.

(** X3. The fields of the records, for an answer whose rows have one
    value per column and whose column names are distinct. The record of the
    row [k] is the encoding of an object [o] in which the column at the
    position [p] holds the non-NULL value number [p] of the row: a NULL
    leaves no trace, and the values after it move to the columns before. A
    column beyond the number of non-NULL values of the row holds what it
    held in the object of the row before, and nothing in the first row:
    [myjsonobject] is not emptied between two rows. No object has a field
    that is not a column. *)
Theorem X3_record_fields c db query queryid columns tbl :
  client c = Some db →
  answer db query = inr (mkRows (inr columns) tbl EndOfRows) →
  Forall (λ row, length row = length columns) tbl →
  NoDup columns →
  ∃ m lastIndex objs,
    (∀ w, ExecuteQueryandFetchRecords c query queryid w
          = (Returned (Some m, lastIndex, None), extend w [] [query]))
    ∧ length objs = length tbl
    ∧ (∀ k o, objs !! k = Some o →
              m !! recordKey queryid k = Some (json.Marshal o).1)
    ∧ (∀ k row o p name,
         tbl !! k = Some row → objs !! k = Some o → columns !! p = Some name →
         o !! name = match nonNull row !! p with
                     | Some v => Some v
                     | None => before ∅ objs k !! name
                     end)
    ∧ (∀ k o name, objs !! k = Some o → is_Some (o !! name) → name ∈ columns).
Proof.
  intros Hc Hans Hfull Hnodup.
  destruct (encodeLines_fields columns queryid tbl Hfull Hnodup)
    as (m & lastIndex & objs & Hrun & Hrest).
  exists m, lastIndex, objs. split; [|exact Hrest].
  intros w. rewrite (fetch_encodes c db query queryid columns tbl Hc Hans Hfull).
  apply Hrun.
Qed.

Lemma X3_witness :
  ∃ m lastIndex objs,
    (∀ w, ExecuteQueryandFetchRecords
            (Examples.connected Examples.managers_null) "Select * from t" "Q2" w
          = (Returned (Some m, lastIndex, None), extend w [] ["Select * from t"]))
    ∧ length objs = 2%nat
    ∧ (∀ k o, objs !! k = Some o →
              m !! recordKey "Q2" k = Some (json.Marshal o).1)
    ∧ (∀ k row o p name,
         table Examples.managers_null !! k = Some row →
         objs !! k = Some o → ["note"; "emp_no"] !! p = Some name →
         o !! name = match nonNull row !! p with
                     | Some v => Some v
                     | None => before ∅ objs k !! name
                     end)
    ∧ (∀ k o name, objs !! k = Some o → is_Some (o !! name) →
                   name ∈ ["note"; "emp_no"]).
Proof.
  apply (X3_record_fields (Examples.connected Examples.managers_null)
           (Examples.database Examples.managers_null) "Select * from t" "Q2"
           ["note"; "emp_no"] (table Examples.managers_null)).
  - reflexivity.
  - reflexivity.
  - repeat constructor.
  - apply (bool_decide_unpack _). vm_compute. reflexivity.
Defined.

Lemma full_objects columns queryid (tbl : list (list string)) :
  Forall (λ values, length values = length columns) tbl →
  NoDup columns →
  ∃ res lastIndex,
    (∀ w, encodeLines columns queryid O (nonNull <$> (full <$> tbl)) ∅ ∅
            EmptyString w
          = (Returned (Some res, lastIndex, None), w))
    ∧ ∀ k values, tbl !! k = Some values →
        res !! recordKey queryid k
        = Some (json.Marshal (list_to_map (zip columns values))).1.
Proof.
  intros Hlen Hnodup.
  assert (Hfull : Forall (λ row, length row = length columns) (full <$> tbl)).
  { apply Forall_fmap. eapply Forall_impl; [exact Hlen|].
    intros values Hv. simpl. unfold full. by rewrite length_fmap. }
  destruct (encodeLines_fields columns queryid (full <$> tbl) Hfull Hnodup)
    as (m & lastIndex & objs & Hrun & Hobjs & Hrec & Hfield & Hkeys).
  exists m, lastIndex. split; [exact Hrun|].
  intros k values Hk.
  destruct (lookup_lt_is_Some_2 objs k) as [o Ho].
  { rewrite Hobjs, length_fmap. by apply lookup_lt_Some in Hk. }
  assert (Hrow : (full <$> tbl) !! k = Some (full values))
    by (by rewrite list_lookup_fmap, Hk).
  assert (Hvlen : length values = length columns)
    by (by apply (Forall_lookup_1 _ _ _ _ Hlen Hk)).
  rewrite (Hrec k o Ho). do 3 f_equal.
  apply map_eq. intros name.
  destruct (decide (name ∈ columns)) as [Hin|Hout].
  - apply list_elem_of_lookup in Hin. destruct Hin as [p Hp].
    rewrite (Hfield k _ o p name Hrow Ho Hp), nonNull_full.
    rewrite (lookup_zip_columns columns values p name Hnodup Hvlen Hp).
    destruct (lookup_lt_is_Some_2 values p) as [v Hv].
    { apply lookup_lt_Some in Hp. lia. }
    by rewrite Hv.
  - rewrite (not_elem_of_list_to_map_1 (zip columns values) name).
    + destruct (o !! name) eqn:Hname; [|done].
      exfalso. apply Hout, (Hkeys k o name Ho). by rewrite Hname.
    + rewrite fst_zip; [done|lia].
Qed.

Lemma full_rows (columns : list string) (tbl : list (list string)) :
  Forall (λ values, length values = length columns) tbl →
  Forall (λ row : list RawBytes, length row = length columns) (full <$> tbl).
Proof.
  intros Hlen. apply Forall_fmap. eapply Forall_impl; [exact Hlen|].
  intros values Hv. simpl. unfold full. by rewrite length_fmap.
Qed.

(** X2. Encoding and decoding agree on rows without NULL: when every row
    has one value per column, the column names are distinct and names and
    values are plain strings, the record of each row is a text that
    [json.Unmarshal] decodes to the object with the value of the row under
    each column name. *)
Theorem X2_records_decode c db query queryid columns (tbl : list (list string)) :
  client c = Some db →
  answer db query = inr (mkRows (inr columns) (full <$> tbl) EndOfRows) →
  Forall (λ values, length values = length columns) tbl →
  NoDup columns →
  Forall (λ s, plain s = true) columns →
  Forall (Forall (λ s, plain s = true)) tbl →
  ∃ m lastIndex,
    (∀ w, ExecuteQueryandFetchRecords c query queryid w
          = (Returned (Some m, lastIndex, None), extend w [] [query]))
    ∧ ∀ k values, tbl !! k = Some values →
        ∃ record, m !! recordKey queryid k = Some record
                  ∧ json.Unmarshal record
                    = Some (list_to_map (zip columns values)).
Proof.
  intros Hc Hans Hlen Hnodup Hcols Hvals.
  destruct (full_objects columns queryid tbl Hlen Hnodup)
    as (m & lastIndex & Hrun & Hrec).
  exists m, lastIndex. split.
  { intros w.
    rewrite (fetch_encodes c db query queryid columns _ Hc Hans
               (full_rows columns tbl Hlen)).
    apply Hrun. }
  intros k values Hk. eexists. split; [by apply Hrec|].
  apply zip_decodes; [done|].
  by apply (Forall_lookup_1 _ _ _ _ Hvals Hk).
Qed.

Lemma X2_witness :
  ∃ m lastIndex,
    (∀ w, ExecuteQueryandFetchRecords
            (Examples.connected Examples.departments)
            "Select * from departments" "Q1" w
          = (Returned (Some m, lastIndex, None),
             extend w [] ["Select * from departments"]))
    ∧ ∀ k values,
        [["d001"; "Marketing"]; ["d002"; "Finance"]] !! k = Some values →
        ∃ record, m !! recordKey "Q1" k = Some record
                  ∧ json.Unmarshal record
                    = Some (list_to_map (zip ["dept_no"; "dept_name"] values)).
Proof.
  apply (X2_records_decode (Examples.connected Examples.departments)
           (Examples.database Examples.departments)
           "Select * from departments" "Q1" ["dept_no"; "dept_name"]
           [["d001"; "Marketing"]; ["d002"; "Finance"]]).
  - reflexivity.
  - reflexivity.
  - repeat constructor.
  - apply (bool_decide_unpack _). vm_compute. reflexivity.
  - repeat constructor.
  - repeat constructor.
Defined.

(** ** One call of [getRecords] and the next *)

(** X4. The incremental fetch on an answer without NULL: with a cursor
    column among the distinct, plain column names, [getRecords] sends the
    rewritten query once, returns one record for each row, each of which
    decodes to its row, and leaves the cursor value of the last row as the
    checkpoint, so that the next rewrite starts from it. *)
Theorem X4_cursor_fetch_advances c db dbquery w columns
    (tbl : list (list string)) values p v :
  client c = Some db →
  cursorQuery dbquery = true →
  let text := rewritten dbquery (checkpoint dbquery w) in
  answer db text
  = inr (mkRows (inr columns) (full <$> (tbl ++ [values])%list) EndOfRows) →
  Forall (λ row, length row = length columns) (tbl ++ [values])%list →
  NoDup columns →
  Forall (λ s, plain s = true) columns →
  Forall (Forall (λ s, plain s = true)) (tbl ++ [values])%list →
  columns !! p = Some (IndexColumnName dbquery) →
  values !! p = Some v →
  ∃ records w',
    getRecords c dbquery w
    = (Returned (setQuery dbquery text, (Some records, None)), w')
    ∧ size records = S (length tbl)
    ∧ (∀ k row, (tbl ++ [values])%list !! k = Some row →
         ∃ record, records !! recordKey (QueryId dbquery) k = Some record
                   ∧ json.Unmarshal record
                     = Some (list_to_map (zip columns row)))
    ∧ states w' = <[QueryId dbquery := v]> (states w)
    ∧ sent w' = (sent w ++ [text])%list
    ∧ checkpoint dbquery w' = v.
Proof.
  intros Hc Hcur text Hans Hlen Hnodup Hcols Hvals Hcol Hval.
  destruct (full_objects columns (QueryId dbquery) (tbl ++ [values])%list Hlen Hnodup)
    as (m & lastIndex & Hrun & Hrec).
  assert (Hexec : ∀ w0,
    ExecuteQueryandFetchRecords c text (QueryId dbquery) w0
    = (Returned (Some m, lastIndex, None), extend w0 [] [text])).
  { intros w0.
    rewrite (fetch_encodes c db text (QueryId dbquery) columns _ Hc Hans
               (full_rows columns _ Hlen)).
    apply Hrun. }
  destruct (ExecuteQueryandFetchRecords_returns c db text (QueryId dbquery) Hc)
    as (res' & lastIndex' & es' & Hrun' & _ & Hgood).
  specialize (Hrun' w). rewrite Hexec in Hrun'.
  injection Hrun' as <- <- _.
  assert (Hok : fetchFails (answer db text) = false).
  { rewrite Hans. unfold fetchFails. simpl.
    by rewrite (scanRows_full _ _ _ (full_rows columns _ Hlen)). }
  destruct (Hgood Hok) as (_ & m' & Hm' & _ & _ & Hlast & Hsize).
  injection Hm' as <-.
  rewrite Hans in Hlast, Hsize. simpl in Hlast, Hsize.
  rewrite length_fmap, length_app in Hlast, Hsize. simpl in Hlast, Hsize.
  assert (HlastIndex : lastIndex = recordKey (QueryId dbquery) (length tbl)).
  { rewrite Hlast; [|lia]. f_equal. lia. }
  assert (Hlastrow : (tbl ++ [values])%list !! length tbl = Some values).
  { by rewrite lookup_app_r, Nat.sub_diag. }
  assert (Hdec : json.Unmarshal (lastRecord (Some m) lastIndex)
                 = Some (list_to_map (zip columns values))).
  { unfold lastRecord. simpl. rewrite HlastIndex, (Hrec _ _ Hlastrow). simpl.
    apply zip_decodes; [done|].
    by apply (Forall_lookup_1 _ _ _ _ Hvals Hlastrow). }
  assert (Hfield : (list_to_map (zip columns values) : gmap string string)
                     !! IndexColumnName dbquery = Some v).
  { rewrite (lookup_zip_columns columns values p _ Hnodup); [done| |done].
    by apply (Forall_lookup_1 _ _ _ _ Hlen Hlastrow). }
  destruct (getRecords_cursor c dbquery w (Some m) lastIndex [] Hcur Hexec)
    as [(Hzero & _) | [(_ & Hnone & _)
       | [(_ & val & Hsome & Hmiss & _)
         | (_ & val & v' & Hsome & Hhit & e & es & Heq)]]].
  - unfold len in Hzero. simpl in Hzero. lia.
  - fold text in Hnone. rewrite Hdec in Hnone. discriminate.
  - rewrite Hdec in Hsome. injection Hsome as <-.
    rewrite Hfield in Hmiss. discriminate.
  - rewrite Hdec in Hsome. injection Hsome as <-.
    rewrite Hfield in Hhit. injection Hhit as <-.
    eexists m, _. split; [exact Heq|]. simpl.
    split; [lia|]. split; [|split; [done|split; [done|]]].
    + intros k row Hk. eexists. split; [by apply Hrec|].
      apply zip_decodes; [done|].
      by apply (Forall_lookup_1 _ _ _ _ Hvals Hk).
    + unfold checkpoint. simpl. by rewrite lookup_insert_eq.
Qed.

Lemma X4_witness :
  ∃ records w',
    getRecords (Examples.connected Examples.managers) Examples.Q2
      Examples.world0
    = (Returned
         (setQuery Examples.Q2
            (rewritten Examples.Q2 (checkpoint Examples.Q2 Examples.world0)),
          (Some records, None)), w')
    ∧ size records = 2%nat
    ∧ (∀ k row, [["4"; "d001"]; ["7"; "d002"]] !! k = Some row →
         ∃ record, records !! recordKey "Q2" k = Some record
                   ∧ json.Unmarshal record
                     = Some (list_to_map (zip ["emp_no"; "dept_no"] row)))
    ∧ states w' = <["Q2" := "7"]> (states Examples.world0)
    ∧ sent w'
      = (sent Examples.world0
         ++ [rewritten Examples.Q2 (checkpoint Examples.Q2 Examples.world0)])%list
    ∧ checkpoint Examples.Q2 w' = "7".
Proof.
  apply (X4_cursor_fetch_advances (Examples.connected Examples.managers)
           (Examples.database Examples.managers) Examples.Q2 Examples.world0
           ["emp_no"; "dept_no"] [["4"; "d001"]] ["7"; "d002"] O "7").
  - reflexivity.
  - reflexivity.
  - reflexivity.
  - repeat constructor.
  - apply (bool_decide_unpack _). vm_compute. reflexivity.
  - repeat constructor.
  - repeat constructor.
  - reflexivity.
  - reflexivity.
Defined.

Lemma wellFormed_or_skipped dbquery :
  wellFormed dbquery = false →
  GoStrings.blank (Query dbquery) = true ∨ malformed dbquery = true.
Proof.
  intros Hwf. destruct (GoStrings.blank (Query dbquery)) eqn:Hq; [by left|].
  right. destruct (query_kinds dbquery Hq) as [H|[H|H]]; [| |done].
  - unfold wellFormed in Hwf. rewrite H in Hwf. done.
  - unfold wellFormed in Hwf. rewrite H, orb_true_r in Hwf. done.
Qed.

Lemma getRecords_nil_handle c dbquery w :
  client c = None →
  wellFormed dbquery = true →
  ∃ e, level e = InfoLevel
       ∧ getRecords c dbquery w = (Panicked, extend w [e] []).
Proof.
  intros Hc Hwf. unfold wellFormed in Hwf. apply orb_true_iff in Hwf.
  unfold getRecords, fetchRecords, ExecuteQueryandFetchRecords.
  rewrite Hc.
  destruct Hwf as [Hsnap|Hcur].
  - unfold snapshotQuery in Hsnap. apply andb_true_iff in Hsnap.
    destruct Hsnap as [Hq Hname]. apply negb_true_iff in Hq.
    rewrite Hq, Hname. exec.
    eexists. split; [|unfold extend; simpl; by rewrite app_nil_r]. done.
  - unfold cursorQuery in Hcur. apply andb_true_iff in Hcur.
    destruct Hcur as [Hcur Hsup]. apply andb_true_iff in Hcur.
    destruct Hcur as [Hq Hname]. apply negb_true_iff in Hq, Hname.
    rewrite Hq, Hname, (supported_not_blank _ Hsup). simpl.
    unfold supported in Hsup.
    destruct (is_TIMESTAMP (IndexColumnType dbquery)) eqn:Ht; simpl.
    + destruct (GoStrings.Contains (Query dbquery) "where");
        simpl; rewrite Hname; exec;
        (eexists; split; [|unfold extend; simpl; by rewrite app_nil_r]; done).
    + simpl in Hsup. rewrite Hsup. simpl.
      destruct (GoStrings.Contains (Query dbquery) "where");
        simpl; rewrite Hname; exec;
        (eexists; split; [|unfold extend; simpl; by rewrite app_nil_r]; done).
Qed.

(** X6. A client without a handle, as [newMySQLClient] returns it and as
    a failed [Connect] leaves it: [getRecords] skips a query that does not
    pass its checks, as it does on a connected client, and on every query
    that passes them it panics in [c.client.Query], after one line of the
    log and before anything is sent or the checkpoint is touched. *)
Theorem X6_getRecords_without_handle c dbquery w :
  client c = None →
  (wellFormed dbquery = false → skippedPerTick c dbquery w)
  ∧ (wellFormed dbquery = true →
     ∃ e, level e = InfoLevel
          ∧ getRecords c dbquery w = (Panicked, extend w [e] [])
          ∧ states (getRecords c dbquery w).2 = states w
          ∧ sent (getRecords c dbquery w).2 = sent w).
Proof.
  intros Hc. split.
  - intros Hwf. by apply getRecords_skipped, wellFormed_or_skipped.
  - intros Hwf.
    destruct (getRecords_nil_handle c dbquery w Hc Hwf) as (e & He & Hget).
    exists e. rewrite Hget. simpl. by rewrite app_nil_r.
Qed.

Lemma X6_witness :
  (wellFormed Examples.Q2 = false →
   skippedPerTick (Examples.unconnected Examples.conf0) Examples.Q2
     Examples.world0)
  ∧ (wellFormed Examples.Q2 = true →
     ∃ e, level e = InfoLevel
          ∧ getRecords (Examples.unconnected Examples.conf0) Examples.Q2
              Examples.world0
            = (Panicked, extend Examples.world0 [e] [])
          ∧ states (getRecords (Examples.unconnected Examples.conf0)
                      Examples.Q2 Examples.world0).2
            = states Examples.world0
          ∧ sent (getRecords (Examples.unconnected Examples.conf0)
                    Examples.Q2 Examples.world0).2
            = sent Examples.world0).
Proof.
  apply (X6_getRecords_without_handle (Examples.unconnected Examples.conf0)
           Examples.Q2 Examples.world0).
  reflexivity.
Defined.

Lemma wellFormed_kinds dbquery :
  wellFormed dbquery = true →
  snapshotQuery dbquery = true ∨ cursorQuery dbquery = true.
Proof. intros H. by apply orb_true_iff in H. Qed.

Lemma wellFormed_not_skipped dbquery :
  wellFormed dbquery = true →
  GoStrings.blank (Query dbquery) = false ∧ malformed dbquery = false.
Proof.
  intros Hwf. apply wellFormed_kinds in Hwf. unfold malformed.
  destruct Hwf as [H|H].
  - unfold snapshotQuery in H. apply andb_true_iff in H. destruct H as [Hq Hn].
    apply negb_true_iff in Hq. by rewrite Hq, Hn.
  - unfold cursorQuery in H. apply andb_true_iff in H. destruct H as [H Hsup].
    apply andb_true_iff in H. destruct H as [Hq Hn].
    apply negb_true_iff in Hq. rewrite Hq, Hsup, (supported_not_blank _ Hsup).
    by rewrite andb_false_r.
Qed.

Lemma getRecords_cursor_returns c db dbquery w :
  client c = Some db →
  cursorQuery dbquery = true →
  let text := rewritten dbquery (checkpoint dbquery w) in
  sent (getRecords c dbquery w).2 = (sent w ++ [text])%list
  ∧ ∀ dbquery' result w',
      getRecords c dbquery w = (Returned (dbquery', result), w') →
      dbquery' = setQuery dbquery text.
Proof.
  intros Hc Hcur text.
  destruct (ExecuteQueryandFetchRecords_returns c db text (QueryId dbquery) Hc)
    as (res & lastIndex & es & Hrun & _).
  destruct (getRecords_cursor c dbquery w res lastIndex es Hcur Hrun)
    as [(_ & e & es' & ->) | [(_ & _ & e & es' & ->)
       | [(_ & val & _ & _ & e & es' & ->)
         | (_ & val & v' & _ & _ & e & es' & ->)]]];
    (split; [done|]); intros dbquery' result w' [=]; done.
Qed.

Lemma getRecords_sent c db dbquery w :
  client c = Some db →
  wellFormed dbquery = true →
  sent (getRecords c dbquery w).2 = (sent w ++ [queryText dbquery w])%list.
Proof.
  intros Hc Hwf.
  destruct (wellFormed_kinds _ Hwf) as [Hsnap|Hcur].
  - destruct (ExecuteQueryandFetchRecords_returns c db (Query dbquery)
                (QueryId dbquery) Hc) as (res & lastIndex & es & Hrun & _).
    destruct (getRecords_snapshot c dbquery res lastIndex es Hsnap Hrun)
      as (e1 & e2 & Hget).
    rewrite Hget. simpl. unfold queryText.
    unfold snapshotQuery in Hsnap. apply andb_true_iff in Hsnap.
    by rewrite (proj2 Hsnap).
  - assert (Hname : GoStrings.blank (IndexColumnName dbquery) = false).
    { unfold cursorQuery in Hcur. apply andb_true_iff in Hcur.
      destruct Hcur as [Hcur _]. apply andb_true_iff in Hcur.
      by apply negb_true_iff, Hcur. }
    unfold queryText. rewrite Hname.
    apply (getRecords_cursor_returns c db dbquery w Hc Hcur).
Qed.

(** X5. One call, at most one query: on a connected client [getRecords]
    hands exactly one text to the database when the query passes its
    checks, the configured text without a cursor column and the rewritten
    text with one, and it hands over nothing when it skips the query. This
    holds for every outcome of the call, a panic included. *)
Theorem X5_one_query_per_call c db dbquery w :
  client c = Some db →
  sent (getRecords c dbquery w).2
  = (sent w ++ (if wellFormed dbquery then [queryText dbquery w] else []))%list.
Proof.
  intros Hc. destruct (wellFormed dbquery) eqn:Hwf.
  - by apply (getRecords_sent c db).
  - destruct (getRecords_skipped c dbquery w (wellFormed_or_skipped _ Hwf))
      as (es & _ & _ & ->). done.
Qed.

Lemma X5_witness :
  sent (getRecords (Examples.connected Examples.managers) Examples.Q2
          Examples.world0).2
  = (sent Examples.world0
     ++ (if wellFormed Examples.Q2
         then [queryText Examples.Q2 Examples.world0] else []))%list.
Proof.
  apply (X5_one_query_per_call (Examples.connected Examples.managers)
           (Examples.database Examples.managers) Examples.Q2 Examples.world0).
  reflexivity.
Defined.

Section Decode.
Import utf8 GoStrings.

Lemma cont_app lo hi c1 a b :
  cont lo hi (String c1 a +:+ b)
  = match cont lo hi (String c1 a) with
    | Some (x, r) => Some (x, r +:+ b)
    | None => None
    end.
Proof.
  change (String c1 a +:+ b) with (String c1 (a +:+ b)).
  unfold cont. by destruct (_ && _)%N.
Qed.

Lemma cont_ascii lo hi b :
  (128 ≤ lo)%N → startsAscii b = true → cont lo hi b = None.
Proof.
  intros Hlo Hb. destruct b as [|d b]; [done|]. simpl in *.
  apply N.ltb_lt in Hb.
  destruct (N.leb_spec lo (byte d)); [lia|done].
Qed.

Lemma cont_empty lo hi : cont lo hi EmptyString = None.
Proof. done. Qed.

Lemma DecodeRune_app c a b :
  startsAscii b = true →
  DecodeRuneInString (String c (a +:+ b)) = DecodeRuneInString (String c a).
Proof.
  intros Hb. unfold DecodeRuneInString.
  set (b0 := byte c).
  destruct (b0 <? 128)%N; [done|].
  destruct (b0 <? 194)%N; [done|].
  assert (H128 : ∀ hi, cont 128 hi b = None)
    by (intros; by apply cont_ascii).
  destruct (b0 <? 224)%N.
  { destruct a as [|c1 a].
    - change (EmptyString +:+ b) with b. by rewrite H128.
    - rewrite cont_app. by destruct (cont 128 191 (String c1 a)) as [[x r]|]. }
  destruct (b0 <? 240)%N.
  { set (lo := if (b0 =? 224)%N then 160%N else 128%N).
    set (hi := if (b0 =? 237)%N then 159%N else 191%N).
    assert (Hlo : (128 ≤ lo)%N) by (unfold lo; destruct (b0 =? 224)%N; lia).
    destruct a as [|c1 a].
    - change (EmptyString +:+ b) with b. by rewrite (cont_ascii lo hi b Hlo Hb).
    - rewrite cont_app.
      destruct (cont lo hi (String c1 a)) as [[x r]|] eqn:Hc1; [|done].
      change (String c1 a +:+ b) with (String c1 (a +:+ b)).
      assert (r = a) as ->.
      { unfold cont in Hc1. destruct (_ && _)%N; [|done]. by injection Hc1. }
      destruct a as [|c2 a].
      + change (EmptyString +:+ b) with b. by rewrite H128.
      + rewrite cont_app. by destruct (cont 128 191 (String c2 a)) as [[y r]|]. }
  destruct (b0 <? 245)%N; [|done].
  set (lo := if (b0 =? 240)%N then 144%N else 128%N).
  set (hi := if (b0 =? 244)%N then 143%N else 191%N).
  assert (Hlo : (128 ≤ lo)%N) by (unfold lo; destruct (b0 =? 240)%N; lia).
  destruct a as [|c1 a].
  - change (EmptyString +:+ b) with b. by rewrite (cont_ascii lo hi b Hlo Hb).
  - rewrite cont_app.
    destruct (cont lo hi (String c1 a)) as [[x r]|] eqn:Hc1; [|done].
    change (String c1 a +:+ b) with (String c1 (a +:+ b)).
    assert (r = a) as ->.
    { unfold cont in Hc1. destruct (_ && _)%N; [|done]. by injection Hc1. }
    destruct a as [|c2 a].
    + change (EmptyString +:+ b) with b. by rewrite H128.
    + rewrite cont_app.
      destruct (cont 128 191 (String c2 a)) as [[y r]|] eqn:Hc2; [|done].
      assert (r = a) as ->.
      { unfold cont in Hc2. destruct (_ && _)%N; [|done]. by injection Hc2. }
      destruct a as [|c3 a].
      * change (EmptyString +:+ b) with b. by rewrite H128.
      * rewrite cont_app.
        by destruct (cont 128 191 (String c3 a)) as [[z r]|].
Qed.

Lemma blankFrom_app a b :
  startsAscii b = true →
  ∀ k, blankFrom k (a +:+ b) = true → blankFrom k a = true.
Proof.
  intros Hb. induction a as [|c a IH]; intros k; [done|].
  change (String c a +:+ b) with (String c (a +:+ b)).
  destruct k as [|k]; [|apply IH].
  cbn [blankFrom]. rewrite (DecodeRune_app c a b Hb).
  destruct (DecodeRuneInString (String c a)) as [r size].
  intros H. apply andb_true_iff in H. destruct H as [Hr Hrest].
  rewrite Hr. simpl. by apply IH.
Qed.

Lemma not_blank_app a b :
  startsAscii b = true → blank a = false → blank (a +:+ b) = false.
Proof.
  intros Hb Ha. destruct (blank (a +:+ b)) eqn:Hab; [|done].
  unfold blank in *. by rewrite (blankFrom_app a b Hb O Hab) in Ha.
Qed.

End Decode.

Section Contains.
Import GoStrings.

Lemma prefixb_app p a b : prefixb p a = true → prefixb p (a +:+ b) = true.
Proof.
  revert a. induction p as [|x p IH]; intros a; [done|].
  destruct a as [|y a]; [done|].
  change (String y a +:+ b) with (String y (a +:+ b)). simpl.
  destruct (Ascii.eqb x y); [apply IH|done].
Qed.

Lemma Contains_app_stop p a b :
  stops p b = true →
  Contains (a +:+ b) p = Contains a p || Contains b p.
Proof.
  intros Hstop. induction a as [|c a IH].
  - change (EmptyString +:+ b) with b.
    destruct p as [|x p]; [by destruct b|]. done.
  - change (String c a +:+ b) with (String c (a +:+ b)).
    cbn [Contains]. rewrite IH.
    assert (Hpre : prefixb p (String c (a +:+ b)) = prefixb p (String c a)).
    { destruct (prefixb p (String c a)) eqn:H1.
      - by apply (prefixb_app p (String c a) b).
      - destruct (prefixb p (String c (a +:+ b))) eqn:H2; [|done].
        apply (prefixb_before_stop p (String c a) b Hstop) in H2. congruence. }
    rewrite Hpre. by rewrite orb_assoc.
Qed.

Lemma Contains_cons_ne c s x p :
  Ascii.eqb x c = false →
  Contains (String c s) (String x p) = Contains s (String x p).
Proof. intros Hne. cbn [Contains prefixb]. by rewrite Hne. Qed.

Lemma Contains_app_l p a b : Contains a p = true → Contains (a +:+ b) p = true.
Proof.
  induction a as [|c a IH].
  - destruct p; [by destruct b|done].
  - change (String c a +:+ b) with (String c (a +:+ b)). cbn [Contains].
    intros H. apply orb_true_iff in H. destruct H as [H|H].
    + change (String c (a +:+ b)) with (String c a +:+ b).
      by rewrite (prefixb_app _ _ _ H).
    + by rewrite (IH H), orb_true_r.
Qed.

Lemma Contains_app_r p a b : Contains b p = true → Contains (a +:+ b) p = true.
Proof.
  intros H. induction a as [|c a IH]; [done|].
  change (String c a +:+ b) with (String c (a +:+ b)). cbn [Contains].
  by rewrite IH, orb_true_r.
Qed.

End Contains.

Lemma append_cons c s r : String c s +:+ r = String c (s +:+ r).
Proof. done. Qed.

Lemma append_nil r : EmptyString +:+ r = r.
Proof. done. Qed.

Ltac peel :=
  repeat first
    [ rewrite append_cons | rewrite append_nil
    | rewrite Contains_cons_ne by reflexivity
    | rewrite Contains_app_stop by reflexivity ].

Lemma suffix_free old j t col v :
  old = "STATEVALUE" ∨ old = "INDEXCOLUMNNAME" →
  j = " and " ∨ j = " where " →
  GoStrings.Contains col old = false →
  GoStrings.Contains v old = false →
  GoStrings.Contains (suffix j t col v) old = false.
Proof.
  intros Hold Hj Hcol Hv. unfold suffix, literal, json.dquote, utf8.chr.
  destruct (is_TIMESTAMP t);
    destruct Hold as [-> | ->]; destruct Hj as [-> | ->];
    peel; rewrite ?Hcol, ?Hv; reflexivity.
Qed.

Lemma incremental_suffix dbquery v :
  incremental dbquery v
  = Query dbquery
    +:+ suffix (joiner (Query dbquery)) (IndexColumnType dbquery)
          (IndexColumnName dbquery) v.
Proof. done. Qed.

Lemma joiner_cases text : joiner text = " and " ∨ joiner text = " where ".
Proof. unfold joiner. destruct (GoStrings.Contains text "where"); auto. Qed.

Lemma suffix_starts j t col v :
  j = " and " ∨ j = " where " →
  startsAscii (suffix j t col v) = true
  ∧ stops "STATEVALUE" (suffix j t col v) = true
  ∧ stops "INDEXCOLUMNNAME" (suffix j t col v) = true.
Proof. by intros [-> | ->]. Qed.

Lemma incremental_has_where dbquery v :
  GoStrings.Contains (incremental dbquery v) "where" = true.
Proof.
  rewrite incremental_suffix. unfold joiner.
  destruct (GoStrings.Contains (Query dbquery) "where") eqn:HQ.
  - by apply Contains_app_l.
  - by apply Contains_app_r.
Qed.

Lemma incremental_free dbquery v old :
  old = "STATEVALUE" ∨ old = "INDEXCOLUMNNAME" →
  GoStrings.Contains (Query dbquery) old = false →
  GoStrings.Contains (IndexColumnName dbquery) old = false →
  GoStrings.Contains v old = false →
  GoStrings.Contains (incremental dbquery v) old = false.
Proof.
  intros Hold HQ Hcol Hv. rewrite incremental_suffix.
  destruct (suffix_starts (joiner (Query dbquery)) (IndexColumnType dbquery)
              (IndexColumnName dbquery) v (joiner_cases _))
    as (_ & Hs1 & Hs2).
  rewrite Contains_app_stop by (by destruct Hold as [-> | ->]).
  rewrite HQ. simpl.
  by apply suffix_free; [|apply joiner_cases| |].
Qed.

Lemma placeholderFree_inv s :
  placeholderFree s = true →
  GoStrings.Contains s "STATEVALUE" = false
  ∧ GoStrings.Contains s "INDEXCOLUMNNAME" = false.
Proof.
  intros H. apply andb_true_iff in H. destruct H as [H1 H2].
  by apply negb_true_iff in H1, H2.
Qed.

(** X7. A second call on the query that a first call has rewritten. With
    a cursor column and no placeholder text in the configured query, the
    column name and the checkpoint, the first call leaves the incremental
    text in the query; a second call on the same query takes that text for
    the configured one: it contains [where], so the predicate is appended
    once more with [and], after the semicolon of the first. *)
Theorem X7_second_call_appends_again c db dbquery w dbquery' result w' :
  client c = Some db →
  cursorQuery dbquery = true →
  placeholderFree (Query dbquery) = true →
  placeholderFree (IndexColumnName dbquery) = true →
  placeholderFree (checkpoint dbquery w) = true →
  getRecords c dbquery w = (Returned (dbquery', result), w') →
  GoStrings.Contains (checkpoint dbquery w') "INDEXCOLUMNNAME" = false →
  let first := incremental dbquery (checkpoint dbquery w) in
  Query dbquery' = first
  ∧ sent (getRecords c dbquery' w').2
    = (sent w ++ [first;
                  first +:+ suffix " and " (IndexColumnType dbquery)
                              (IndexColumnName dbquery)
                              (checkpoint dbquery w')])%list.
Proof.
  intros Hc Hcur HQ Hcol Hv1 Hget Hv2 first.
  apply placeholderFree_inv in HQ, Hcol, Hv1.
  destruct HQ as [HQ1 HQ2], Hcol as [Hcol1 Hcol2], Hv1 as [Hv11 Hv12].
  pose proof Hcur as Hcur0.
  unfold cursorQuery in Hcur0. apply andb_true_iff in Hcur0.
  destruct Hcur0 as [Hcur0 Hsup]. apply andb_true_iff in Hcur0.
  destruct Hcur0 as [Hq Hname]. apply negb_true_iff in Hq.
  destruct (getRecords_cursor_returns c db dbquery w Hc Hcur) as [Hsent Hdb].
  rewrite (rewritten_incremental dbquery _ Hsup HQ1 HQ2 Hv12) in Hsent, Hdb.
  fold first in Hsent, Hdb.
  specialize (Hdb _ _ _ Hget). subst dbquery'.
  rewrite Hget in Hsent. simpl in Hsent.
  split; [done|].
  assert (Hcur' : cursorQuery (setQuery dbquery first) = true).
  { unfold cursorQuery. simpl. rewrite Hname, Hsup.
    unfold first. rewrite incremental_suffix.
    rewrite not_blank_app; [done| |done].
    apply suffix_starts, joiner_cases. }
  assert (Hwf : wellFormed (setQuery dbquery first) = true).
  { unfold wellFormed. by rewrite Hcur', orb_true_r. }
  rewrite (getRecords_sent c db _ w' Hc Hwf), Hsent.
  rewrite <- app_assoc. simpl. do 3 f_equal.
  unfold queryText. simpl. apply negb_true_iff in Hname. rewrite Hname.
  change (checkpoint (setQuery dbquery first) w') with (checkpoint dbquery w').
  rewrite rewritten_incremental; [|done|..|done].
  - unfold incremental. simpl. unfold joiner.
    unfold first. by rewrite incremental_has_where.
  - simpl. unfold first. apply incremental_free; auto.
  - simpl. unfold first. apply incremental_free; auto.
Qed.

Lemma X7_witness :
  ∃ dbquery' w',
    Query dbquery' = incremental Examples.Q2 (checkpoint Examples.Q2 Examples.world0)
    ∧ sent (getRecords (Examples.connected Examples.managers) dbquery' w').2
      = (sent Examples.world0
         ++ [incremental Examples.Q2 (checkpoint Examples.Q2 Examples.world0);
             incremental Examples.Q2 (checkpoint Examples.Q2 Examples.world0)
             +:+ suffix " and " (IndexColumnType Examples.Q2)
                   (IndexColumnName Examples.Q2)
                   (checkpoint Examples.Q2 w')])%list.
Proof.
  eexists _, _.
  eapply (X7_second_call_appends_again
            (Examples.connected Examples.managers)
            (Examples.database Examples.managers) Examples.Q2
            Examples.world0).
  - reflexivity.
  - reflexivity.
  - reflexivity.
  - reflexivity.
  - reflexivity.
  - vm_compute. reflexivity.
  - vm_compute. reflexivity.
Defined.

Lemma logsOnlyWith_ret {A : Type} (P : A → Prop) (a : A) :
  P a → logsOnlyWith P (mret a).
Proof.
  intros HP. exists a, []. split; [done|]. intros w.
  by rewrite extend_nil.
Qed.

Lemma logsOnlyWith_bind {A B : Type} (P : B → Prop) (m : Exec A)
    (k : A → Exec B) :
  logsOnly m → (∀ a, logsOnlyWith P (k a)) → logsOnlyWith P (m ≫= k).
Proof.
  intros (a & es & Hm) Hk. destruct (Hk a) as (b & es' & HP & Hb).
  exists b, (es ++ es')%list. split; [done|]. intros w.
  unfold mbind, Exec_bind. rewrite Hm, Hb, extend_extend. done.
Qed.

(** ** The connection string and the handle *)

Section Resolve.

Variable readMySecret : Config → string * option error.
Variable Encrypt : string → string → string * option error.
Variable Decrypt : string → string → string * option error.
Variable LoadDefaultConfig : option error.
Variable BuildAuthToken : string → string → string → string * option error.
Variable ReadFile : string → string * option error.
Variable AppendCertsFromPEM : string → bool.
Variable RegisterTLSConfig : string → string → option error.
Variable FormatDSN : DriverConfig → string.

#[local] Abbreviation new :=
  (newMySQLClient readMySecret Encrypt Decrypt LoadDefaultConfig
     BuildAuthToken ReadFile AppendCertsFromPEM RegisterTLSConfig FormatDSN).

Lemma newMySQLClient_no_handle settings :
  logsOnlyWith (λ c, client c = None ∧ conf c = settings) (new settings).
Proof.
  unfold newMySQLClient.
  apply logsOnlyWith_bind.
  { unfold generateIAMAuthToken, createIAMRDSTLSConf. logs_only. }
  intros _. apply logsOnlyWith_bind.
  { logs_only. }
  intros pw. apply logsOnlyWith_bind.
  { unfold generateIAMAuthToken, createIAMRDSTLSConf. logs_only. }
  intros d. by apply logsOnlyWith_ret.
Qed.

(** X8. Every password type but [encrypted] is a plaintext password: with
    password authentication the connection string is built with the
    configured password as it stands, also for a type that is neither empty
    nor [plaintext]. Nothing is logged, unless the type is empty or
    [plaintext] and a path to the encryption secret is configured: then the
    last line of the log carries the text that [Encrypt] returned, and the
    connection string is the same. *)
Theorem X8_plain_password_is_used_verbatim conf w :
  PasswordType conf ≠ "encrypted" →
  AuthenticationMode conf ≠ "IAMRDSAuth" →
  ∃ es,
    new conf w
    = (Returned
         (mkClient
            (FormatDSN
               (mkDriverConfig (Username conf) (Password conf) (Transport conf)
                  (endpoint conf) (Database conf) (AllowNativePasswords conf)
                  EmptyString false))
            None conf),
       extend w es [])
    ∧ (offersEncryption conf = false → es = [])
    ∧ (offersEncryption conf = true →
       last es
       = Some (mkEntry DebugLevel
                 "The plaintext password can be replaced with this encrypted password."
                 [zapString "encryptedPassword"
                    (Encrypt (Password conf) (readMySecret conf).1).1])).
Proof.
  intros Htype Hauth.
  apply String.eqb_neq in Htype, Hauth.
  unfold newMySQLClient. fold (offersEncryption conf).
  rewrite Htype, Hauth.
  destruct (offersEncryption conf) eqn:Hoffer.
  - destruct (readMySecret conf) as [secret [e1|]]; simpl;
      destruct (Encrypt (Password conf) secret) as [encText [e2|]]; simpl.
    + eexists [_; _; _]. split; [|split; [done|]].
      * exec. unfold extend. simpl. rewrite <- !app_assoc, app_nil_r. reflexivity.
      * done.
    + eexists [_; _]. split; [|split; [done|]].
      * exec. unfold extend. simpl. rewrite <- !app_assoc, app_nil_r. reflexivity.
      * done.
    + eexists [_; _]. split; [|split; [done|]].
      * exec. unfold extend. simpl. rewrite <- !app_assoc, app_nil_r. reflexivity.
      * done.
    + eexists [_]. split; [|split; [done|]].
      * exec. unfold extend. simpl. rewrite app_nil_r. reflexivity.
      * done.
  - exists []. split; [|split; [done|done]].
    exec. by rewrite extend_nil.
Qed.

(** X9. With IAM authentication (and AWS credentials that load) the
    password of the connection string is the token that [BuildAuthToken]
    returned, whatever the configured password and its type; the TLS
    configuration [custom] and clear text passwords are switched on. The
    client is returned also when the token cannot be built or the
    certificate file cannot be read: each is logged as an error. *)
Theorem X9_IAM_mode_uses_the_token conf w :
  AuthenticationMode conf = "IAMRDSAuth" →
  LoadDefaultConfig = None →
  let token := BuildAuthToken (endpoint conf) (Region conf) (Username conf) in
  ∃ es,
    new conf w
    = (Returned
         (mkClient
            (FormatDSN
               (mkDriverConfig (Username conf) token.1 (Transport conf)
                  (endpoint conf) (Database conf) (AllowNativePasswords conf)
                  "custom" true))
            None conf),
       extend w es [])
    ∧ (∀ e, token.2 = Some e →
         mkEntry ErrorLevel "failed to create authentication token:"
                 [zapError e] ∈ es)
    ∧ (∀ e, (ReadFile (AWSCertificatePath conf)).2 = Some e →
         mkEntry ErrorLevel "error in reading pem file" [zapError e] ∈ es).
Proof.
  intros Hauth Hload token.
  assert (HA : logsOnly
    (if offersEncryption conf
     then
       let '(secret, err) := readMySecret conf in
       logIfErr err "error in reading encryption secret from file" ;;
       let '(encText, err) := Encrypt (Password conf) secret in
       logIfErr err "error encrypting your classified text" ;;
       log DebugLevel
         "The plaintext password can be replaced with this encrypted password."
         [zapString "encryptedPassword" encText]
     else mret ())) by logs_only.
  assert (HB : logsOnly
    (if String.eqb (PasswordType conf) "encrypted"
     then
       let '(secret, err) := readMySecret conf in
       logIfErr err "error in reading encryption secret from file" ;;
       let '(decText, err) := Decrypt (Password conf) secret in
       logIfErr err "error decrypting your encrypted text: " ;;
       mret decText
     else mret (Password conf))) by logs_only.
  destruct HA as ([] & esA & HA). destruct HB as (pw & esB & HB).
  unfold newMySQLClient. fold (offersEncryption conf).
  fold (endpoint conf). rewrite Hauth. simpl.
  unfold generateIAMAuthToken, createIAMRDSTLSConf. rewrite Hload.
  fold token.
  unfold mbind at 1, Exec_bind at 1. rewrite HA.
  unfold mbind at 1, Exec_bind at 1. rewrite HB.
  destruct token as [tok [e1|]];
    destruct (ReadFile (AWSCertificatePath conf)) as [pem [e2|]];
    destruct (AppendCertsFromPEM pem);
    exec;
    match goal with
    | |- context [RegisterTLSConfig "custom" ?x] =>
        destruct (RegisterTLSConfig "custom" x) as [e3|]
    end;
    (eexists; split;
     [ exec; unfold extend; simpl;
       rewrite ?(app_nil_r (sent w)), <- ?app_assoc; simpl; reflexivity
     | split; intros e [= <-]; set_solver ]).
Qed.

End Resolve.

Section Lifecycle.

Variable readMySecret : Config → string * option error.
Variable Encrypt : string → string → string * option error.
Variable Decrypt : string → string → string * option error.
Variable LoadDefaultConfig : option error.
Variable BuildAuthToken : string → string → string → string * option error.
Variable ReadFile : string → string * option error.
Variable AppendCertsFromPEM : string → bool.
Variable RegisterTLSConfig : string → string → option error.
Variable FormatDSN : DriverConfig → string.
Variable sql_Open : string → string → (string → error + Rows) * option error.
Variable closeConns : DB → option error.

#[local] Abbreviation new :=
  (newMySQLClient readMySecret Encrypt Decrypt LoadDefaultConfig
     BuildAuthToken ReadFile AppendCertsFromPEM RegisterTLSConfig FormatDSN).

(** X10. The client has no handle until [Connect] succeeds.
    [newMySQLClient] returns a client without a handle in every
    configuration; [Close] on it returns nil and does nothing; a [Connect]
    whose [sql.Open] fails logs the error, returns it and leaves the client
    as it was; and [getRecords] on it panics on every query that passes its
    checks. *)
Theorem X10_no_handle_before_Connect_succeeds conf w :
  ∃ c es,
    new conf w = (Returned c, extend w es [])
    ∧ client c = None
    ∧ (∀ w1, Close closeConns c w1 = (Returned (c, None), w1))
    ∧ (∀ w1 database e,
         sql_Open "mysql" (connStr c) = (database, Some e) →
         Connect sql_Open c w1
         = (Returned (c, Some e),
            extend w1 [mkEntry ErrorLevel "Unable to connect to database"
                         [zapError e]] []))
    ∧ (∀ w1 dbquery, wellFormed dbquery = true →
         (getRecords c dbquery w1).1 = Panicked).
Proof.
  destruct (newMySQLClient_no_handle readMySecret Encrypt Decrypt
              LoadDefaultConfig BuildAuthToken ReadFile AppendCertsFromPEM
              RegisterTLSConfig FormatDSN conf) as (c & es & [Hc Hconf] & Hrun).
  exists c, es. split; [apply Hrun|]. split; [exact Hc|]. split; [|split].
  - intros w1. unfold Close. by rewrite Hc.
  - intros w1 database e Hopen. unfold Connect. rewrite Hopen.
    exec. unfold extend. by rewrite app_nil_r.
  - intros w1 dbquery Hwf.
    destruct (getRecords_nil_handle c dbquery w1 Hc Hwf) as (e & _ & ->).
    done.
Qed.

End Lifecycle.

Lemma X8_witness :
  ∃ es,
    newMySQLClient Cases.theSecret Cases.cipher Examples.noCipher None
      Examples.noToken Examples.noFile (λ _, false) (λ _ _, None)
      Examples.showDSN Cases.conf_plain Examples.world0
    = (Returned
         (mkClient
            (Examples.showDSN
               (mkDriverConfig "test" "test" "tcp" "localhost:3306"
                  "employees" true EmptyString false))
            None Cases.conf_plain),
       extend Examples.world0 es [])
    ∧ (offersEncryption Cases.conf_plain = false → es = [])
    ∧ (offersEncryption Cases.conf_plain = true →
       last es
       = Some (mkEntry DebugLevel
                 "The plaintext password can be replaced with this encrypted password."
                 [zapString "encryptedPassword" "uqDpyLNh4Ytfxw=="])).
Proof.
  apply (X8_plain_password_is_used_verbatim Cases.theSecret Cases.cipher
           Examples.noCipher None Examples.noToken Examples.noFile
           (λ _, false) (λ _ _, None) Examples.showDSN Cases.conf_plain
           Examples.world0).
  - discriminate.
  - discriminate.
Defined.

Lemma X9_witness :
  ∃ es,
    newMySQLClient Cases.theSecret Cases.cipher Examples.noCipher None
      Examples.noToken Examples.noFile (λ _, false) (λ _ _, None)
      Examples.showDSN Cases.conf_iam Examples.world0
    = (Returned
         (mkClient
            (Examples.showDSN
               (mkDriverConfig "test" EmptyString "tcp" "db.example.com:3306"
                  "employees" true "custom" true))
            None Cases.conf_iam),
       extend Examples.world0 es [])
    ∧ (∀ e, Some "failed to retrieve credentials" = Some e →
         mkEntry ErrorLevel "failed to create authentication token:"
                 [zapError e] ∈ es)
    ∧ (∀ e, Some "no such file or directory" = Some e →
         mkEntry ErrorLevel "error in reading pem file" [zapError e] ∈ es).
Proof.
  apply (X9_IAM_mode_uses_the_token Cases.theSecret Cases.cipher
           Examples.noCipher None Examples.noToken Examples.noFile
           (λ _, false) (λ _ _, None) Examples.showDSN Cases.conf_iam
           Examples.world0).
  - reflexivity.
  - reflexivity.
Defined.

(** ** The lifetime of a connection *)

Section Lifetime.

Variable sql_Open : string → string → (string → error + Rows) * option error.

(** X11. The configured lifetime is a number of minutes: [Connect] asks
    for exactly that many minutes, in nanoseconds, for every value other
    than 0 up to 153722867 in either direction, a negative value included.
    From 153722868 minutes on the product no longer fits a [time.Duration]:
    up to 307445734 the lifetime asked for is negative. *)
Theorem X11_lifetime_in_minutes c w database :
  sql_Open "mysql" (connStr c) = (database, None) →
  SetConnMaxLifetime (conf c) ≠ 0 →
  ∃ db,
    Connect sql_Open c w = (Returned (setClient c db, None), w)
    ∧ (-153722867 ≤ SetConnMaxLifetime (conf c) ≤ 153722867 →
       ConnMaxLifetime db
       = Some (SetConnMaxLifetime (conf c) * 60000000000))
    ∧ (153722867 < SetConnMaxLifetime (conf c) ≤ 307445734 →
       ∃ d, ConnMaxLifetime db = Some d ∧ d < 0).
Proof.
  intros Hopen Hn. unfold Connect. rewrite Hopen.
  apply Z.eqb_neq in Hn. rewrite Hn. simpl.
  eexists. split; [reflexivity|]. simpl.
  unfold time.mul, time.Minute, time.int64. split.
  - intros Hrange. f_equal.
    rewrite (Z.mod_small (SetConnMaxLifetime (conf c) + 2 ^ 63)) by lia.
    rewrite Z.mod_small by lia. lia.
  - intros Hrange. eexists. split; [reflexivity|].
    rewrite (Z.mod_small (SetConnMaxLifetime (conf c) + 2 ^ 63)) by lia.
    replace (SetConnMaxLifetime (conf c) + 2 ^ 63 - 2 ^ 63)
      with (SetConnMaxLifetime (conf c)) by lia.
    assert (H : (60000000000 * SetConnMaxLifetime (conf c) + 2 ^ 63) mod 2 ^ 64
                = 60000000000 * SetConnMaxLifetime (conf c) + 2 ^ 63 - 2 ^ 64).
    { symmetry. apply Z.mod_unique_pos with (q := 1); lia. }
    rewrite H. lia.
Qed.

End Lifetime.

Lemma X11_witness :
  ∃ db,
    Connect Examples.opens (Examples.unconnected Cases.conf_hour)
      Examples.world0
    = (Returned (setClient (Examples.unconnected Cases.conf_hour) db, None),
       Examples.world0)
    ∧ (-153722867 ≤ 60 ≤ 153722867 →
       ConnMaxLifetime db = Some (60 * 60000000000))
    ∧ (153722867 < 60 ≤ 307445734 →
       ∃ d, ConnMaxLifetime db = Some d ∧ d < 0).
Proof.
  apply (X11_lifetime_in_minutes Examples.opens
           (Examples.unconnected Cases.conf_hour) Examples.world0
           (λ _, inr Examples.departments)).
  - reflexivity.
  - simpl. lia.
Defined.

(** ** The closed client *)

(** X12. [Close] closes the pool and keeps the handle in the client, and
    it logs nothing. A later [getRecords] on a query that passes the checks
    does not panic and reports no error: the query is refused by the closed
    handle, which is logged, and the call returns an empty map and a nil
    error and leaves the checkpoint as it was. *)
Theorem X12_use_after_Close closeConns c db dbquery w :
  client c = Some db →
  wellFormed dbquery = true →
  ∃ c' es,
    Close closeConns c w = (Returned (c', closeConns db), w)
    ∧ getRecords c' dbquery w
      = (Returned (setQuery dbquery (queryText dbquery w), (Some ∅, None)),
         extend w es [queryText dbquery w])
    ∧ Exists (λ e, level e = ErrorLevel ∧ zapError errDBClosed ∈ fields e) es.
Proof.
  intros Hc Hwf. unfold Close. rewrite Hc.
  eexists _. 
  assert (Hex : ∃ es, getRecords (mkClient (connStr c) (Some (closeDB db)) (conf c))
                   dbquery w
      = (Returned (setQuery dbquery (queryText dbquery w), (Some ∅, None)),
         extend w es [queryText dbquery w])
    ∧ Exists (λ e, level e = ErrorLevel ∧ zapError errDBClosed ∈ fields e) es).
  2: { destruct Hex as (es & H1 & H2). exists es. split; [done|]. by split. }
  set (c' := mkClient (connStr c) (Some (closeDB db)) (conf c)).
  assert (Hexec : ∀ query queryid w0,
    ExecuteQueryandFetchRecords c' query queryid w0
    = (Returned (None, EmptyString, None),
       extend w0 [mkEntry ErrorLevel "Error in executing sql query"
                    [zapString "queryId" queryid; zapError errDBClosed]]
              [query])).
  { intros query queryid w0. unfold ExecuteQueryandFetchRecords. simpl.
    exec. done. }
  destruct (wellFormed_kinds _ Hwf) as [Hsnap|Hcur].
  - destruct (getRecords_snapshot c' dbquery None EmptyString _ Hsnap
                (Hexec _ _)) as (e1 & e2 & Hget).
    unfold queryText.
    unfold snapshotQuery in Hsnap. apply andb_true_iff in Hsnap.
    rewrite (proj2 Hsnap). eexists. split.
    + rewrite Hget, setQuery_same. reflexivity.
    + apply Exists_cons_tl, Exists_cons_hd. split; [done|]. simpl.
      repeat constructor.
  - assert (Hname : GoStrings.blank (IndexColumnName dbquery) = false).
    { unfold cursorQuery in Hcur. apply andb_true_iff in Hcur.
      destruct Hcur as [Hcur _]. apply andb_true_iff in Hcur.
      by apply negb_true_iff, Hcur. }
    unfold queryText. rewrite Hname.
    destruct (getRecords_cursor c' dbquery w None EmptyString _ Hcur
                (Hexec _ _))
      as [(_ & e & es' & Hget) | [(Hlen & _) | [(Hlen & _) | (Hlen & _)]]];
      try done.
    eexists. split; [exact Hget|].
    apply Exists_cons_tl, Exists_cons_hd. split; [done|]. simpl.
    repeat constructor.
Qed.

Lemma X12_witness :
  ∃ c' es,
    Close Cases.drops (Examples.connected Examples.managers) Examples.world0
    = (Returned (c', None), Examples.world0)
    ∧ getRecords c' Examples.Q2 Examples.world0
      = (Returned
           (setQuery Examples.Q2 (queryText Examples.Q2 Examples.world0),
            (Some ∅, None)),
         extend Examples.world0 es [queryText Examples.Q2 Examples.world0])
    ∧ Exists (λ e, level e = ErrorLevel ∧ zapError errDBClosed ∈ fields e) es.
Proof.
  apply (X12_use_after_Close Cases.drops
           (Examples.connected Examples.managers)
           (Examples.database Examples.managers) Examples.Q2 Examples.world0).
  - reflexivity.
  - reflexivity.
Defined.

(** * Properties of the Sumo Logic extension *)

Section Extension.

Import sumologicextension.

Variable url : Type.
Variable url_Parse : string → error + url.
Variable setPath : url → string → url.
Variable url_String : url → string.
Variable os_Hostname : error + string.
Variable http_NewRequest : string → string → option error.
Variable server : list Request → Request → error + Response.
Variable Decode : string → error + OpenRegisterResponsePayload.

#[local] Abbreviation register :=
  (sumologicextension.register url url_Parse setPath url_String os_Hostname
     http_NewRequest server Decode).
#[local] Abbreviation sendHeartbeat :=
  (sumologicextension.sendHeartbeat url url_Parse url_String http_NewRequest
     server).
#[local] Abbreviation beats :=
  (sumologicextension.beats url url_Parse url_String http_NewRequest server).
#[local] Abbreviation heartbeatLoop :=
  (sumologicextension.heartbeatLoop url url_Parse url_String http_NewRequest
     server).
#[local] Abbreviation Start :=
  (sumologicextension.Start url url_Parse setPath url_String os_Hostname
     http_NewRequest server Decode).

Ltac run :=
  unfold mbind, Run_bind, mret, Run_ret, log, lift, wrap, returnErr, errorOf,
    Do; simpl.

(** X13. A new extension. Without a collector name the constructor
    returns the error [collector name is unset] and leaves the
    configuration as it is. With a collector name it returns an extension
    over the configuration it was given, in which only the heartbeat
    interval may differ: it is positive, the configured one when that is
    positive and 15 seconds otherwise. The extension is not registered: its
    heartbeat loop logs an error and ends without a request, however long
    it is left to run. *)
Theorem X13_new_extension_is_not_registered conf :
  (CollectorName conf = EmptyString →
   newSumologicExtension conf = (conf, inl "collector name is unset"))
  ∧ (CollectorName conf ≠ EmptyString →
     ∃ conf' se,
       newSumologicExtension conf = (conf', inr se)
       ∧ sumologicextension.conf se = conf'
       ∧ conf' = setHeartBeatInterval conf (HeartBeatInterval conf')
       ∧ 0 < HeartBeatInterval conf'
       ∧ (0 < HeartBeatInterval conf →
          HeartBeatInterval conf' = HeartBeatInterval conf)
       ∧ (HeartBeatInterval conf ≤ 0 →
          HeartBeatInterval conf' = 15000000000)
       ∧ ∀ ticks s,
           heartbeatLoop ticks se s
           = (inr (),
              mkNet (logged s
                     ++ [mkEntry ErrorLevel
                           "Collector not registered, cannot send heartbeat" []])
                    (requests s))).
Proof.
  split.
  { intros Hname. unfold newSumologicExtension. by rewrite Hname. }
  intros Hname. apply String.eqb_neq in Hname.
  unfold newSumologicExtension. rewrite Hname.
  eexists _, _. split; [reflexivity|]. simpl.
  split; [done|].
  destruct (Z.leb_spec (HeartBeatInterval conf) 0) as [Hle|Hgt]; simpl.
  - split; [done|]. split; [done|]. split; [lia|]. split; [done|]. done.
  - split; [by destruct conf|]. split; [done|]. split; [done|].
    split; [lia|]. done.
Qed.

Lemma register_sends ctx se u hostname s :
  url_Parse (baseUrl se) = inr u →
  os_Hostname = inr hostname →
  http_NewRequest "POST" (url_String (setPath u registerUrl)) = None →
  let req := registerRequest url setPath url_String ctx se u hostname in
  let s1 := mkNet (logged s
                   ++ [mkEntry InfoLevel "Calling register API"
                         [zapString "URL" (url_String (setPath u registerUrl))]])
                  (requests s ++ [req]) in
  register ctx se s
  = match server (requests s) req with
    | inl e => (inl ("failed to register the collector: " +:+ e), s1)
    | inr res =>
        if (StatusCode res <? 200) || (400 <=? StatusCode res) then
          match ResponseBody res with
          | inl e =>
              (inl ("failed to copy collector registration response body, status code: "
                    +:+ strconv.Itoa (StatusCode res) +:+ ", err: " +:+ e), s1)
          | inr body =>
              (inr se,
               mkNet (logged s1
                      ++ [mkEntry ErrorLevel "Collector registration failed"
                            [zapInt "response status code" (StatusCode res);
                             zapString "response" body]])
                     (requests s1))
          end
        else
          match ResponseBody res with
          | inl e => (inl e, s1)
          | inr text =>
              match Decode text with
              | inl e => (inl e, s1)
              | inr resp =>
                  (inr (setRegistrationInfo se resp),
                   mkNet (logged s1
                          ++ [mkEntry InfoLevel "Collector registered"
                                [zapString "CollectorID" (CollectorId resp);
                                 zapAny "response" resp]])
                         (requests s1))
              end
          end
    end.
Proof.
  intros Hu Hh Hreq req s1.
  unfold sumologicextension.register, NewRequestWithContext.
  rewrite Hu. run. rewrite Hh. run. rewrite Hreq. run.
  change (addJSONHeaders _) with req.
  destruct (server (requests s) req) as [e|res]; simpl; [done|].
  destruct ((StatusCode res <? 200) || (400 <=? StatusCode res)); simpl.
  - destruct (ResponseBody res) as [e|body]; simpl; [|done].
    by rewrite !append_assoc.
  - destruct (ResponseBody res) as [e|text]; simpl; [done|].
    by destruct (Decode text) as [e|resp].
Qed.

Lemma sendHeartbeat_sends se u s :
  url_Parse (baseUrl se +:+ heartbeatUrl) = inr u →
  http_NewRequest "POST" (url_String u) = None →
  let req := heartbeatRequest url url_String se u in
  sendHeartbeat se s
  = (match server (requests s) req with
     | inl e => inl ("unable to send HTTP request: " +:+ e)
     | inr res =>
         if negb (StatusCode res =? 204) then
           match ResponseBody res with
           | inl e =>
               inl ("failed to copy collector heartbeat response body, status code: "
                    +:+ strconv.Itoa (StatusCode res) +:+ ", err: " +:+ e)
           | inr body =>
               inl ("collector heartbeat request failed, status code: "
                    +:+ strconv.Itoa (StatusCode res) +:+ ", body: " +:+ body)
           end
         else inr ()
     end,
     mkNet (logged s) (requests s ++ [req])).
Proof.
  intros Hu Hreq req.
  unfold sumologicextension.sendHeartbeat, NewRequest, NewRequestWithContext.
  rewrite Hu. run. rewrite Hreq. run.
  change (addJSONHeaders _) with req.
  destruct (server (requests s) req) as [e|res]; simpl; [done|].
  destruct (negb (StatusCode res =? 204)); simpl; [|done].
  destruct (ResponseBody res) as [e|body]; simpl; [|done].
  by rewrite !append_assoc.
Qed.

Lemma sendHeartbeat_logs_nothing se s :
  ∃ r reqs,
    sendHeartbeat se s = (r, mkNet (logged s) (requests s ++ reqs))
    ∧ (length reqs ≤ 1)%nat.
Proof.
  unfold sumologicextension.sendHeartbeat, NewRequest, NewRequestWithContext.
  destruct (url_Parse (baseUrl se +:+ heartbeatUrl)) as [e|u]; run.
  { exists (inl ("unable to parse heartbeat URL " +:+ e)), [].
    rewrite app_nil_r. split; [by destruct s|simpl; lia]. }
  destruct (http_NewRequest "POST" (url_String u)) as [e|]; run.
  { exists (inl ("unable to create HTTP request " +:+ e)), [].
    rewrite app_nil_r. split; [by destruct s|simpl; lia]. }
  match goal with
  | |- context [server (requests s) ?r] =>
      destruct (server (requests s) r) as [e|res]; simpl
  end.
  { eexists _, [_]. split; [reflexivity|simpl; lia]. }
  destruct (negb (StatusCode res =? 204)); simpl.
  - destruct (ResponseBody res) as [e|body]; simpl;
      (eexists _, [_]; split; [reflexivity|simpl; lia]).
  - eexists _, [_]. split; [reflexivity|simpl; lia].
Qed.

Lemma marks_app msg es1 es2 :
  marks msg (es1 ++ es2) = (marks msg es1 + marks msg es2)%nat.
Proof. unfold marks. by rewrite List.filter_app, length_app. Qed.

Lemma beats_counts se ticks :
  ∀ s, ∃ es reqs,
    beats ticks se s = (inr (), mkNet (logged s ++ es) (requests s ++ reqs))
    ∧ marks "Heartbeat sent" es = ticks
    ∧ (length reqs ≤ ticks)%nat
    ∧ last es = Some (mkEntry InfoLevel "Heartbeat sender turn off" []).
Proof.
  induction ticks as [|ticks IH]; intros s.
  - exists [mkEntry InfoLevel "Heartbeat sender turn off" []], [].
    simpl. run. by rewrite app_nil_r.
  - destruct (sendHeartbeat_logs_nothing se s) as (r & reqs & Hsend & Hlen).
    cbn [sumologicextension.beats]. run. rewrite Hsend.
    destruct r as [e|[]]; simpl.
    + destruct (IH (mkNet
                  ((logged s
                    ++ [mkEntry ErrorLevel "Heartbeat error: "
                          [zapString "error: " e]])
                   ++ [mkEntry DebugLevel "Heartbeat sent" []])
                  (requests s ++ reqs)))
        as (es & reqs' & -> & Hmarks & Hlen' & Hlast).
      simpl. eexists (_ :: _ :: es), (reqs ++ reqs')%list.
      split; [|split; [|split]].
      * rewrite <- !app_assoc. reflexivity.
      * unfold marks in *. simpl. by rewrite Hmarks.
      * rewrite length_app. lia.
      * destruct es; [done|]. simpl in *. by destruct es.
    + destruct (IH (mkNet (logged s ++ [mkEntry DebugLevel "Heartbeat sent" []])
                          (requests s ++ reqs)))
        as (es & reqs' & -> & Hmarks & Hlen' & Hlast).
      simpl. eexists (_ :: es), (reqs ++ reqs')%list.
      split; [|split; [|split]].
      * rewrite <- !app_assoc. reflexivity.
      * unfold marks in *. simpl. by rewrite Hmarks.
      * rewrite length_app. lia.
      * destruct es; [done|]. done.
Qed.

Lemma beats_requests se u ticks :
  url_Parse (baseUrl se +:+ heartbeatUrl) = inr u →
  http_NewRequest "POST" (url_String u) = None →
  ∀ s, ∃ es,
    beats ticks se s
    = (inr (),
       mkNet (logged s ++ es)
             (requests s
              ++ replicate ticks (heartbeatRequest url url_String se u)))
    ∧ marks "Heartbeat sent" es = ticks.
Proof.
  intros Hu Hreq. induction ticks as [|ticks IH]; intros s.
  - exists [mkEntry InfoLevel "Heartbeat sender turn off" []].
    simpl. run. by rewrite app_nil_r.
  - cbn [sumologicextension.beats]. run.
    rewrite (sendHeartbeat_sends se u s Hu Hreq).
    match goal with
    | |- context [match ?r with inl _ => _ | inr _ => _ end] =>
        destruct r as [e|[]]; simpl
    end.
    + match goal with
      | |- context [beats ticks se ?s1] =>
          destruct (IH s1) as (es & -> & Hmarks)
      end.
      simpl. eexists (_ :: _ :: es). split.
      * rewrite <- !app_assoc. reflexivity.
      * unfold marks in *. simpl. by rewrite Hmarks.
    + match goal with
      | |- context [beats ticks se ?s1] =>
          destruct (IH s1) as (es & -> & Hmarks)
      end.
      simpl. eexists (_ :: es). split.
      * rewrite <- !app_assoc. reflexivity.
      * unfold marks in *. simpl. by rewrite Hmarks.
Qed.

Lemma heartbeatLoop_unregistered se ticks s :
  registered se = false →
  heartbeatLoop ticks se s
  = (inr (),
     mkNet (logged s
            ++ [mkEntry ErrorLevel
                  "Collector not registered, cannot send heartbeat" []])
           (requests s)).
Proof.
  intros Hreg. unfold registered in Hreg. apply negb_false_iff in Hreg.
  unfold sumologicextension.heartbeatLoop. by rewrite Hreg.
Qed.

(** X14. A registration that the server rejects is not reported to the
    caller. When the answer has a status below 200 or from 400 on,
    [register] logs the status and the body and returns a nil error, and
    the extension is as it was; [Start] then returns a nil error as well,
    and the heartbeat loop of an extension that was not registered before
    ends without a request: the registration is the only request made. *)
Theorem X14_rejected_registration_is_not_reported ctx se u hostname s status body
    ticks :
  url_Parse (baseUrl se) = inr u →
  os_Hostname = inr hostname →
  http_NewRequest "POST" (url_String (setPath u registerUrl)) = None →
  let req := registerRequest url setPath url_String ctx se u hostname in
  server (requests s) req = inr (mkResponse status (inr body)) →
  status < 200 ∨ 400 ≤ status →
  registered se = false →
  register ctx se s
  = (inr se,
     mkNet (logged s
            ++ [mkEntry InfoLevel "Calling register API"
                  [zapString "URL" (url_String (setPath u registerUrl))];
                mkEntry ErrorLevel "Collector registration failed"
                  [zapInt "response status code" status;
                   zapString "response" body]])
           (requests s ++ [req]))
  ∧ Start ticks ctx se s
    = (inr se,
       mkNet (logged s
              ++ [mkEntry InfoLevel "Calling register API"
                    [zapString "URL" (url_String (setPath u registerUrl))];
                  mkEntry ErrorLevel "Collector registration failed"
                    [zapInt "response status code" status;
                     zapString "response" body];
                  mkEntry ErrorLevel
                    "Collector not registered, cannot send heartbeat" []])
             (requests s ++ [req])).
Proof.
  intros Hu Hh Hreq req Hserver Hstatus Hreg.
  assert (Hregister : register ctx se s
    = (inr se,
       mkNet (logged s
              ++ [mkEntry InfoLevel "Calling register API"
                    [zapString "URL" (url_String (setPath u registerUrl))];
                  mkEntry ErrorLevel "Collector registration failed"
                    [zapInt "response status code" status;
                     zapString "response" body]])
             (requests s ++ [req]))).
  { rewrite (register_sends ctx se u hostname s Hu Hh Hreq).
    fold req. rewrite Hserver. simpl.
    assert (Hcode : (status <? 200) || (400 <=? status) = true).
    { apply orb_true_iff. destruct Hstatus; [left|right]; lia. }
    rewrite Hcode. by rewrite <- app_assoc. }
  split; [exact Hregister|].
  unfold sumologicextension.Start. run. rewrite Hregister.
  rewrite (heartbeatLoop_unregistered se ticks _ Hreg). simpl.
  by rewrite <- app_assoc.
Qed.

(** X15. A registration that the server accepts. When the answer has a
    status from 200 to 399 and its body decodes to credentials with a
    credential id and a collector id, [Start] returns the extension with
    these credentials, the log shows the decoded answer, and the heartbeat
    loop sends one heartbeat for each of its rounds, to the heartbeat URL
    and under the credentials of the answer. *)
Theorem X15_accepted_registration_starts_heartbeats ctx se u hostname s status
    text resp hu ticks :
  url_Parse (baseUrl se) = inr u →
  os_Hostname = inr hostname →
  http_NewRequest "POST" (url_String (setPath u registerUrl)) = None →
  let req := registerRequest url setPath url_String ctx se u hostname in
  server (requests s) req = inr (mkResponse status (inr text)) →
  200 ≤ status < 400 →
  Decode text = inr resp →
  let se' := setRegistrationInfo se resp in
  registered se' = true →
  url_Parse (baseUrl se +:+ heartbeatUrl) = inr hu →
  http_NewRequest "POST" (url_String hu) = None →
  ∃ es,
    Start ticks ctx se s
    = (inr se',
       mkNet (logged s ++ es)
             (requests s
              ++ req :: replicate ticks (heartbeatRequest url url_String se' hu)))
    ∧ marks "Heartbeat sent" es = ticks
    ∧ mkEntry InfoLevel "Collector registered"
        [zapString "CollectorID" (CollectorId resp); zapAny "response" resp]
      ∈ es.
Proof.
  intros Hu Hh Hreq req Hserver Hstatus Hdecode se' Hreg Hhu Hhreq.
  unfold sumologicextension.Start. run.
  rewrite (register_sends ctx se u hostname s Hu Hh Hreq).
  fold req. rewrite Hserver. simpl.
  assert (Hcode : (status <? 200) || (400 <=? status) = false).
  { apply orb_false_iff. split; lia. }
  rewrite Hcode, Hdecode. fold se'.
  unfold sumologicextension.heartbeatLoop.
  unfold registered in Hreg. apply negb_true_iff in Hreg. rewrite Hreg. run.
  match goal with
  | |- context [sumologicextension.beats _ _ _ _ _ ticks se' ?s1] =>
      destruct (beats_requests se' hu ticks Hhu Hhreq s1) as (es & Hbeats & Hmarks)
  end.
  rewrite Hbeats. simpl.
  eexists (_ :: _ :: _ :: es). split; [|split].
  - rewrite <- !app_assoc. reflexivity.
  - unfold marks in *. simpl. exact Hmarks.
  - apply list_elem_of_further, list_elem_of_here.
Qed.

(** X16. A heartbeat succeeds on status 204 and on no other: with a
    heartbeat URL that parses, [sendHeartbeat] makes one request and logs
    nothing; it returns a nil error exactly when the server answers with
    status 204, and for any other status it returns an error that names the
    status and the body of the answer. *)
Theorem X16_heartbeat_succeeds_only_on_204 se u s :
  url_Parse (baseUrl se +:+ heartbeatUrl) = inr u →
  http_NewRequest "POST" (url_String u) = None →
  let req := heartbeatRequest url url_String se u in
  ∃ r,
    sendHeartbeat se s = (r, mkNet (logged s) (requests s ++ [req]))
    ∧ (r = inr ()
       ↔ ∃ res, server (requests s) req = inr res ∧ StatusCode res = 204)
    ∧ (∀ res body,
         server (requests s) req = inr res →
         StatusCode res ≠ 204 →
         ResponseBody res = inr body →
         r = inl ("collector heartbeat request failed, status code: "
                  +:+ strconv.Itoa (StatusCode res) +:+ ", body: " +:+ body)).
Proof.
  intros Hu Hreq req. eexists. split.
  { apply (sendHeartbeat_sends se u s Hu Hreq). }
  fold req. destruct (server (requests s) req) as [e|res]; simpl.
  { split; [|done]. split; [done|]. by intros (res & ? & _). }
  destruct (Z.eqb_spec (StatusCode res) 204) as [H204|H204]; simpl.
  - split.
    + split; [|done]. intros _. by exists res.
    + intros res' body [= <-] Hne. done.
  - split.
    + split.
      * by destruct (ResponseBody res).
      * intros (res' & [= <-] & H). done.
    + intros res' body [= <-] _ ->. done.
Qed.

(** X17. The heartbeat loop of a registered extension never fails. Left
    to run for a number of rounds it makes at most one request in each
    round, exactly one to the heartbeat URL when that URL parses, and it
    logs [Heartbeat sent] once in each round, whatever became of the
    heartbeat; its last line says that the sender is turned off. *)
Theorem X17_heartbeat_loop_counts se ticks s :
  registered se = true →
  ∃ es reqs,
    heartbeatLoop ticks se s
    = (inr (), mkNet (logged s ++ es) (requests s ++ reqs))
    ∧ marks "Heartbeat sent" es = ticks
    ∧ (length reqs ≤ ticks)%nat
    ∧ last es = Some (mkEntry InfoLevel "Heartbeat sender turn off" [])
    ∧ (∀ u, url_Parse (baseUrl se +:+ heartbeatUrl) = inr u →
            http_NewRequest "POST" (url_String u) = None →
            reqs = replicate ticks (heartbeatRequest url url_String se u)).
Proof.
  intros Hreg. unfold registered in Hreg. apply negb_true_iff in Hreg.
  unfold sumologicextension.heartbeatLoop. rewrite Hreg. run.
  match goal with
  | |- context [sumologicextension.beats _ _ _ _ _ ticks se ?s1] =>
      set (s0 := s1);
      destruct (beats_counts se ticks s0) as (es & reqs & Hbeats & Hmarks & Hlen & Hlast)
  end.
  rewrite Hbeats. simpl.
  eexists (_ :: es), reqs. split; [|split; [|split; [|split]]].
  - rewrite <- app_assoc. reflexivity.
  - unfold marks in *. simpl. exact Hmarks.
  - exact Hlen.
  - destruct es; [done|]. done.
  - intros u Hu Hreq.
    destruct (beats_requests se u ticks Hu Hreq s0) as (es' & Hbeats' & _).
    rewrite Hbeats in Hbeats'. injection Hbeats' as _ Hreqs.
    simpl in Hreqs. by apply app_inv_head in Hreqs.
Qed.

End Extension.

(** ** Shutting down and authenticating *)

Section Shutdown.

Import sumologicextension.

Lemma Shutdown_once ctx se :
  closeChan_closed se = closeOnce_done se →
  Shutdown ctx se
  = Some (mkExtension (baseUrl se) (conf se) (registrationInfo se) true true,
          ctx).
Proof.
  intros Hinv. unfold Shutdown, close. rewrite Hinv.
  destruct se as [b c r ch [|]]; simpl in *; subst; by destruct ctx.
Qed.

(** X18. [Shutdown] may be called any number of times. On an extension
    whose channel is closed exactly when [closeOnce] has run, as it is for
    a new one, no call panics, each call returns the error of its own
    context, and after the first call the channel is closed; nothing else
    of the extension changes. Without [closeOnce] a call on a closed
    channel would panic. *)
Theorem X18_Shutdown_any_number_of_times se ctx ctxs :
  closeChan_closed se = closeOnce_done se →
  Shutdowns (ctx :: ctxs) se
  = Some (mkExtension (baseUrl se) (conf se) (registrationInfo se) true true,
          ctx :: ctxs)
  ∧ (∀ se0, closeChan_closed se0 = true → closeOnce_done se0 = false →
            Shutdown ctx se0 = None).
Proof.
  intros Hinv. split.
  - revert se ctx Hinv. induction ctxs as [|ctx' ctxs IH]; intros se ctx Hinv.
    + simpl. by rewrite (Shutdown_once ctx se Hinv).
    + change (Shutdowns (ctx :: ctx' :: ctxs) se)
        with ('(se1, err) ← Shutdown ctx se ;
              '(se2, errs) ← Shutdowns (ctx' :: ctxs) se1 ;
              Some (se2, err :: errs)).
      rewrite (Shutdown_once ctx se Hinv).
      pose proof (IH (mkExtension (baseUrl se) (conf se) (registrationInfo se)
                        true true) ctx' eq_refl) as Hrest.
      cbn [mbind option_bind]. by rewrite Hrest.
  - intros se0 Hclosed Hdone. unfold Shutdown, close.
    by rewrite Hdone, Hclosed.
Qed.

(** X19. [RoundTrip] adds the credentials to the request it is given and
    passes that request on: under the canonical names of the two headers
    the credential id and the credential key are appended to the values
    that are there, and nothing else of the request changes. The headers
    are added, not set: a request that passes twice carries each credential
    twice. *)
Theorem X19_RoundTrip_adds_the_credentials rt req :
  let id := "Collectorcredentialid" in
  let key := "Collectorcredentialkey" in
  let req' := (RoundTrip rt req).1 in
  (RoundTrip rt req).2 = base rt req'
  ∧ (Method req', URL req', Body req', Ctx req')
    = (Method req, URL req, Body req, Ctx req)
  ∧ header req' !! id
    = Some (default [] (header req !! id) ++ [collectorCredentialId rt])%list
  ∧ header req' !! key
    = Some (default [] (header req !! key) ++ [collectorCredentialKey rt])%list
  ∧ (∀ k, k ≠ id → k ≠ key → header req' !! k = header req !! k)
  ∧ header (RoundTrip rt req').1 !! id
    = Some (default [] (header req !! id)
            ++ [collectorCredentialId rt; collectorCredentialId rt])%list.
Proof.
  intros id key req'. unfold req', RoundTrip, addCollectorCredentials, Add.
  simpl. unfold Header in *.
  change (CanonicalMIMEHeaderKey "collectorCredentialId") with id.
  change (CanonicalMIMEHeaderKey "collectorCredentialKey") with key.
  assert (Hne : id ≠ key) by done.
  split; [done|]. split; [done|]. split; [|split; [|split]].
  - rewrite lookup_insert_ne by done. by rewrite lookup_insert_eq.
  - rewrite lookup_insert_eq. by rewrite lookup_insert_ne by done.
  - intros k Hk1 Hk2. by rewrite !lookup_insert_ne by done.
  - rewrite lookup_insert_ne by done. rewrite lookup_insert_eq.
    rewrite lookup_insert_ne by done. rewrite lookup_insert_eq. simpl.
    by rewrite <- app_assoc.
Qed.

End Shutdown.

Lemma X13_witness :
  ∃ conf' se,
    sumologicextension.newSumologicExtension Cases.settings = (conf', inr se)
    ∧ sumologicextension.conf se = conf'
    ∧ conf' = sumologicextension.setHeartBeatInterval Cases.settings
                (sumologicextension.HeartBeatInterval conf')
    ∧ 0 < sumologicextension.HeartBeatInterval conf'
    ∧ (0 < 0 → sumologicextension.HeartBeatInterval conf' = 0)
    ∧ (0 ≤ 0 → sumologicextension.HeartBeatInterval conf' = 15000000000)
    ∧ ∀ ticks s,
        sumologicextension.heartbeatLoop string Cases.parse Cases.text
          Cases.anyRequest Cases.accepting ticks se s
        = (inr (),
           sumologicextension.mkNet
             (sumologicextension.logged s
              ++ [sumologicextension.mkEntry ErrorLevel
                    "Collector not registered, cannot send heartbeat" []])
             (sumologicextension.requests s)).
Proof.
  apply (X13_new_extension_is_not_registered string Cases.parse Cases.text
           Cases.anyRequest Cases.accepting Cases.settings).
  discriminate.
Defined.

Lemma X14_witness :
  ∃ req es,
    sumologicextension.Start string Cases.parse Cases.withPath Cases.text
      Cases.hostname Cases.anyRequest Cases.unauthorized Cases.decode
      3 None Cases.fresh Cases.offline
    = (inr Cases.fresh, sumologicextension.mkNet es [req])
    ∧ length es = 3%nat.
Proof.
  destruct (X14_rejected_registration_is_not_reported string Cases.parse
              Cases.withPath Cases.text Cases.hostname Cases.anyRequest
              Cases.unauthorized Cases.decode None Cases.fresh
              sumologicextension.niteBaseUrl "collector-1" Cases.offline
              401 "unauthorized" 3)
    as [_ Hstart].
  - reflexivity.
  - reflexivity.
  - reflexivity.
  - reflexivity.
  - right. lia.
  - reflexivity.
  - eexists _, _. split; [exact Hstart|reflexivity].
Defined.

Lemma X15_witness :
  ∃ se' req beat es,
    sumologicextension.Start string Cases.parse Cases.withPath Cases.text
      Cases.hostname Cases.anyRequest Cases.accepting Cases.decode
      3 None Cases.fresh Cases.offline
    = (inr se', sumologicextension.mkNet es [req; beat; beat; beat])
    ∧ sumologicextension.registrationInfo se' = Cases.issued
    ∧ sumologicextension.marks "Heartbeat sent" es = 3%nat.
Proof.
  destruct (X15_accepted_registration_starts_heartbeats string Cases.parse
              Cases.withPath Cases.text Cases.hostname Cases.anyRequest
              Cases.accepting Cases.decode None Cases.fresh
              sumologicextension.niteBaseUrl "collector-1" Cases.offline
              200 "registered" Cases.issued
              (sumologicextension.niteBaseUrl
               +:+ sumologicextension.heartbeatUrl) 3)
    as (es & Hstart & Hmarks & _).
  - reflexivity.
  - reflexivity.
  - reflexivity.
  - reflexivity.
  - lia.
  - reflexivity.
  - reflexivity.
  - reflexivity.
  - reflexivity.
  - eexists _, _, _, es. split; [exact Hstart|]. split; [reflexivity|].
    exact Hmarks.
Defined.

Lemma X16_witness :
  ∃ r req,
    sumologicextension.sendHeartbeat string Cases.parse Cases.text
      Cases.anyRequest Cases.unauthorized Cases.fresh Cases.offline
    = (r, sumologicextension.mkNet [] [req])
    ∧ r = inl ("collector heartbeat request failed, status code: 401, body: unauthorized").
Proof.
  destruct (X16_heartbeat_succeeds_only_on_204 string Cases.parse Cases.text
              Cases.anyRequest Cases.unauthorized Cases.fresh
              (sumologicextension.niteBaseUrl
               +:+ sumologicextension.heartbeatUrl) Cases.offline)
    as (r & Hsend & _ & Hfail).
  - reflexivity.
  - reflexivity.
  - exists r. eexists. split; [exact Hsend|].
    apply (Hfail (sumologicextension.mkResponse 401 (inr "unauthorized"))
                 "unauthorized"); [reflexivity|simpl; lia|reflexivity].
Defined.

Lemma X17_witness :
  ∃ es reqs,
    sumologicextension.heartbeatLoop string Cases.parse Cases.text
      Cases.anyRequest Cases.unauthorized 2
      (sumologicextension.setRegistrationInfo Cases.fresh Cases.issued)
      Cases.offline
    = (inr (), sumologicextension.mkNet es reqs)
    ∧ sumologicextension.marks "Heartbeat sent" es = 2%nat
    ∧ (length reqs ≤ 2)%nat.
Proof.
  destruct (X17_heartbeat_loop_counts string Cases.parse Cases.text
              Cases.anyRequest Cases.unauthorized
              (sumologicextension.setRegistrationInfo Cases.fresh Cases.issued)
              2 Cases.offline)
    as (es & reqs & Hloop & Hmarks & Hlen & _).
  - reflexivity.
  - exists es, reqs. split; [exact Hloop|]. split; [exact Hmarks|exact Hlen].
Defined.

Lemma X18_witness :
  sumologicextension.Shutdowns [None; Some "context canceled"; None] Cases.fresh
  = Some (sumologicextension.mkExtension
            (sumologicextension.baseUrl Cases.fresh)
            (sumologicextension.conf Cases.fresh)
            (sumologicextension.registrationInfo Cases.fresh) true true,
          [None; Some "context canceled"; None])
  ∧ (∀ se0, sumologicextension.closeChan_closed se0 = true →
            sumologicextension.closeOnce_done se0 = false →
            sumologicextension.Shutdown None se0 = None).
Proof.
  apply (X18_Shutdown_any_number_of_times Cases.fresh None
           [Some "context canceled"; None]).
  reflexivity.
Defined.
